(** * Visual chat assistant: session store, chat turn and event detection

    A shallow embedding of [src/conversation_manager.py],
    [src/chat_handler.py], [src/event_recognizer.py], the frame sampling
    of [src/video_processor.py] and the routes of [main.py], followed by
    the properties of the specification that concern them and by further
    properties of the code.

    Modelling conventions.
    - Python [int] is [Z]; [len] is [length], injected with [Z.of_nat].
    - [datetime] values are microsecond counts ([Z]); a [timedelta] is a
      difference of two of them.  A message timestamp is the string
      [datetime.now().isoformat()]; that rendering is injective, so the
      model keeps the instant itself.
    - [datetime.now()] reads a clock owned by the runtime: the world
      carries the sequence of readings and the number of reads made so
      far, every call consumes one reading.
    - A [str] is a [string] with one character per [ascii].
    - A finite [float] is the rational it denotes ([Qc]); [inf], [-inf]
      and [nan], which [json.loads] accepts, are values of their own.
      Comparisons of numbers are exact in Python and in the model.
      Arithmetic that rounds is not computed by the model: where the
      code subtracts a decoded number, the result is asked of a
      [Runtime], and so is the order [list.sort] leaves keys in that
      are not all finite numbers.  The timestamps [extract_frames]
      computes are kept as the exact quotient.
    - A session is a record with one field per key of the session dict;
      session records and history lists are kept by value and written
      back to the store where the code mutates them in place.  The
      ['context'] dict is kept by reference (a location in [dicts]),
      because callers receive that very object.
    - Exceptions are explicit: a computation either returns or raises,
      and in both cases hands back the world it has reached. *)

From Stdlib Require Import ZArith QArith Qcanon Qcabs String Ascii List Lia DecimalString.
From stdpp Require Import base gmap strings list numbers sorting.

Local Open Scope string_scope.
Local Open Scope Z_scope.
Local Open Scope list_scope.

(** ** Python built-ins used by the code *)

Module Py.

(** [l[start:]] for an integer [start]. *)
Definition slice_from {A} (start : Z) (l : list A) : list A :=
  let n := Z.of_nat (length l) in
  let i := if bool_decide (start < 0) then Z.max 0 (start + n) else start in
  drop (Z.to_nat i) l.

(** [l[:stop]] for an integer [stop]. *)
Definition slice_to {A} (stop : Z) (l : list A) : list A :=
  let n := Z.of_nat (length l) in
  let j := if bool_decide (stop < 0) then Z.max 0 (stop + n) else stop in
  take (Z.to_nat j) l.

(** [str(n)] for a length. *)
Definition str_of_nat (n : nat) : string :=
  NilZero.string_of_uint (Nat.to_uint n).

(** [s[:n]] on a string, [n >= 0]. *)
Definition str_take (n : nat) (s : string) : string := String.substring 0 n s.

(** [s.find(c)]: index of the first occurrence of the character, or -1. *)
Fixpoint find (c : ascii) (s : string) : Z :=
  match s with
  | EmptyString => -1
  | String a s' =>
      if Ascii.eqb a c then 0
      else let r := find c s' in if bool_decide (r = -1) then -1 else r + 1
  end.

(** [s.rfind(c)]: index of the last occurrence of the character, or -1. *)
Fixpoint rfind (c : ascii) (s : string) : Z :=
  match s with
  | EmptyString => -1
  | String a s' =>
      let r := rfind c s' in
      if bool_decide (r = -1) then (if Ascii.eqb a c then 0 else -1) else r + 1
  end.

(** [s[i:j]] for indices already known to satisfy [0 <= i]. *)
Definition str_slice (i j : Z) (s : string) : string :=
  String.substring (Z.to_nat i) (Z.to_nat (j - i)) s.

(** [c.lower()] on one character, and [s.lower()]; the letters are the
    ASCII ones. *)
Definition lower_ascii (c : ascii) : ascii :=
  let n := nat_of_ascii c in
  if (Nat.leb 65 n && Nat.leb n 90)%bool then ascii_of_nat (n + 32) else c.

Fixpoint lower (s : string) : string :=
  match s with
  | EmptyString => EmptyString
  | String c s' => String (lower_ascii c) (lower s')
  end.

(** [word in s] for strings. *)
Definition contains (word s : string) : bool :=
  match String.index 0 word s with Some _ => true | None => false end.

(** Values that travel through the code untyped: JSON documents decoded
    by [json.loads], event dicts, context values.  A dict keeps its
    insertion order. *)
#[local] Unset Elimination Schemes.
Inductive value : Type :=
| VNone
| VBool (b : bool)
| VInt (z : Z)
| VFloat (q : Qc)
| VInf (negative : bool)
| VNaN
| VStr (s : string)
| VList (l : list value)
| VDict (kv : list (string * value)).
#[local] Set Elimination Schemes.

Definition dict := list (string * value).

(** [d.get(k)] as an option, [d[k] = v]. *)
Fixpoint dict_get (k : string) (d : dict) : option value :=
  match d with
  | [] => None
  | (k', v) :: d' => if String.eqb k' k then Some v else dict_get k d'
  end.

Fixpoint dict_set (k : string) (v : value) (d : dict) : dict :=
  match d with
  | [] => [(k, v)]
  | (k', v') :: d' =>
      if String.eqb k' k then (k, v) :: d' else (k', v') :: dict_set k v d'
  end.

(** The numbers: [bool], [int] and [float] subtract and compare with
    one another; nothing else does. *)
Definition is_number (v : value) : bool :=
  match v with
  | VBool _ | VInt _ | VFloat _ | VInf _ | VNaN => true
  | _ => false
  end.

(** The value of a finite number. *)
Definition num_of (v : value) : option Qc :=
  match v with
  | VBool b => Some (if b then Qc_of_Z 1 else Qc_of_Z 0)
  | VInt z => Some (Qc_of_Z z)
  | VFloat q => Some q
  | _ => None
  end.

(** The truth value of a value, as [if v] and list-comprehension
    conditions take it. *)
Definition truthy (v : value) : bool :=
  match v with
  | VNone => false
  | VBool b => b
  | VInt z => negb (Z.eqb z 0)
  | VFloat q => negb (Qeq_bool q 0)
  | VInf _ => true
  | VNaN => true
  | VStr s => negb (String.eqb s "")
  | VList l => match l with [] => false | _ :: _ => true end
  | VDict kv => match kv with [] => false | _ :: _ => true end
  end.

(** [d.get(k, default)] *)
Definition dict_get_default (k : string) (default : value) (d : dict) : value :=
  match dict_get k d with
  | Some v => v
  | None => default
  end.

End Py.

(** ** Data model of the session store *)

Definition datetime := Z.
Definition timedelta := Z.

(** [timedelta(minutes=m)] in microseconds. *)
Definition timedelta_minutes (m : Z) : timedelta := m * 60000000.

Record Message := mkMessage {
  role : string;
  content : string;
  timestamp : datetime;
  metadata : gmap string string
}.

#[global] Instance Message_eq_dec : EqDecision Message.
Proof. solve_decision. Defined.

Record VideoAnalysis := mkVideoAnalysis {
  events : list Py.dict;
  summary : string;
  guidelines : Py.dict;
  analyzed_at : datetime
}.

(** A location of a dict object. *)
Definition ref := nat.

Record Session := mkSession {
  id : string;
  created_at : datetime;
  last_activity : datetime;
  conversation_history : list Message;
  video_analysis : option VideoAnalysis;
  context : ref
}.

(** The manager object ([sessions], [max_history], [session_timeout]),
    the dict objects reachable from it, and the clock. *)
Record World := mkWorld {
  sessions : gmap string Session;
  max_history : Z;
  session_timeout : timedelta;
  dicts : gmap ref (gmap string Py.value);
  next_ref : ref;
  clock : nat -> datetime;
  ticks : nat
}.

(** ** Computations: state and exceptions *)

Inductive exn :=
| KeyError | IndexError | TypeError | AttributeError | JSONDecodeError
| OverflowError
| UpstreamError (* the remote model call failed *).

Inductive Outcome (A : Type) :=
| Returns (a : A) (w : World)
| Raises (e : exn) (w : World).
Arguments Returns {A} a w.
Arguments Raises {A} e w.

Definition M (A : Type) : Type := World -> Outcome A.

#[global] Instance M_ret : MRet M := λ A a w, Returns a w.
#[global] Instance M_bind : MBind M := λ A B f m w,
  match m w with
  | Returns a w' => f a w'
  | Raises e w' => Raises e w'
  end.

Definition raise {A} (e : exn) : M A := λ w, Raises e w.

(** [try: m except Exception: h] *)
Definition try_except {A} (m : M A) (h : exn -> M A) : M A := λ w,
  match m w with
  | Returns a w' => Returns a w'
  | Raises e w' => h e w'
  end.

Definition gets {A} (f : World -> A) : M A := λ w, Returns (f w) w.

(** World updates: one clock reading consumed, the store replaced, the
    dict objects replaced. *)
Definition tick (w : World) : World :=
  mkWorld (sessions w) (max_history w) (session_timeout w) (dicts w)
    (next_ref w) (clock w) (S (ticks w)).

Definition with_sessions (ss : gmap string Session) (w : World) : World :=
  mkWorld ss (max_history w) (session_timeout w) (dicts w)
    (next_ref w) (clock w) (ticks w).

Definition with_dicts (ds : gmap ref (gmap string Py.value)) (w : World) : World :=
  mkWorld (sessions w) (max_history w) (session_timeout w) ds
    (next_ref w) (clock w) (ticks w).

(** [datetime.now()] *)
Definition now : M datetime := λ w, Returns (clock w (ticks w)) (tick w).

Definition set_sessions (ss : gmap string Session) : M unit := λ w,
  Returns tt (with_sessions ss w).

Definition set_dicts (ds : gmap ref (gmap string Py.value)) : M unit := λ w,
  Returns tt (with_dicts ds w).

(** A dict literal [{}]: a new object. *)
Definition new_dict : M ref := λ w,
  Returns (next_ref w)
    (mkWorld (sessions w) (max_history w) (session_timeout w)
       (<[next_ref w := ∅]> (dicts w)) (S (next_ref w)) (clock w) (ticks w)).

(** [d[k] = v] on the dict object at [r]. *)
Definition dict_setitem (r : ref) (k : string) (v : Py.value) : M unit :=
  ds ← gets dicts;
  set_dicts (alter (insert k v) r ds).

(** [del self.sessions[k]] *)
Definition del_session (k : string) : M unit :=
  ss ← gets sessions;
  match ss !! k with
  | Some _ => set_sessions (delete k ss)
  | None => raise KeyError
  end.

(** [self.sessions[k] = s]; also the write-back of a session the code
    has mutated in place. *)
Definition store_session (k : string) (s : Session) : M unit :=
  ss ← gets sessions;
  set_sessions (<[k := s]> ss).

Definition with_last_activity (t : datetime) (s : Session) : Session :=
  mkSession (id s) (created_at s) t (conversation_history s)
    (video_analysis s) (context s).

Definition with_history (h : list Message) (s : Session) : Session :=
  mkSession (id s) (created_at s) (last_activity s) h
    (video_analysis s) (context s).

Definition with_analysis (a : option VideoAnalysis) (s : Session) : Session :=
  mkSession (id s) (created_at s) (last_activity s) (conversation_history s)
    a (context s).

(** ** [class ConversationManager] *)

Module ConversationManager.

(** [create_session]; [uuid4] is the identifier [uuid.uuid4()] draws. *)
Definition create_session (uuid4 : string) : M string :=
  let session_id := uuid4 in
  t1 ← now;
  t2 ← now;
  c ← new_dict;
  store_session session_id (mkSession session_id t1 t2 [] None c);;
  mret session_id.

Definition clear_session (session_id : string) : M unit :=
  ss ← gets sessions;
  if bool_decide (is_Some (ss !! session_id))
  then del_session session_id
  else mret tt.

Definition get_session (session_id : string) : M (option Session) :=
  ss ← gets sessions;
  match ss !! session_id with
  | Some session =>
      t ← now;
      timeout ← gets session_timeout;
      if bool_decide (t - last_activity session > timeout)
      then clear_session session_id;; mret None
      else
        t' ← now;
        let session := with_last_activity t' session in
        store_session session_id session;;
        mret (Some session)
  | None => mret None
  end.

(** The trimming step of [add_message], on the history that already
    holds the new message. *)
Definition trim (max_history : Z) (history : list Message) : list Message :=
  if bool_decide (Z.of_nat (length history) > max_history * 2)
  then
    let system_messages := filter (λ m, role m = "system") history in
    let recent_messages := Py.slice_from (- (max_history * 2)) history in
    system_messages ++ filter (λ m, m ∉ system_messages) recent_messages
  else history.

Definition add_message (session_id role content : string)
    (metadata : option (gmap string string)) : M unit :=
  o ← get_session session_id;
  match o with
  | None => mret tt
  | Some session =>
      t ← now;
      let message := mkMessage role content t (default ∅ metadata) in
      let history := conversation_history session ++ [message] in
      mh ← gets max_history;
      store_session session_id (with_history (trim mh history) session)
  end.

Definition get_conversation_history (session_id : string) (limit : option Z)
    : M (list Message) :=
  o ← get_session session_id;
  match o with
  | None => mret []
  | Some session =>
      let history := conversation_history session in
      match limit with
      | Some l =>
          if bool_decide (l ≠ 0) then mret (Py.slice_from (- l) history)
          else mret history
      | None => mret history
      end
  end.

Definition analysis_notice (events : list Py.dict) (summary : string) : string :=
  "Video analyzed. Found " +:+ Py.str_of_nat (length events)
    +:+ " events. Summary: " +:+ Py.str_take 200 summary +:+ "...".

Definition store_video_analysis (session_id : string) (events : list Py.dict)
    (summary : string) (guidelines : Py.dict) : M unit :=
  o ← get_session session_id;
  match o with
  | None => mret tt
  | Some session =>
      t ← now;
      store_session session_id
        (with_analysis (Some (mkVideoAnalysis events summary guidelines t)) session);;
      add_message session_id "system" (analysis_notice events summary)
        (Some {["type" := "video_analysis"]})
  end.

Definition get_video_analysis (session_id : string) : M (option VideoAnalysis) :=
  o ← get_session session_id;
  match o with
  | Some session => mret (video_analysis session)
  | None => mret None
  end.

Definition update_context (session_id context_key : string)
    (context_value : Py.value) : M unit :=
  o ← get_session session_id;
  match o with
  | Some session => dict_setitem (context session) context_key context_value
  | None => mret tt
  end.

(** The result is the dict object itself: [session.get('context', {})]
    hands out the stored reference, and only an absent session yields a
    new empty dict. *)
Definition get_context (session_id : string) : M ref :=
  o ← get_session session_id;
  match o with
  | Some session => mret (context session)
  | None => new_dict
  end.

(** The second loop of [clear_expired_sessions]. *)
Fixpoint clear_sessions (expired_sessions : list string) : M unit :=
  match expired_sessions with
  | [] => mret tt
  | session_id :: rest => clear_session session_id;; clear_sessions rest
  end.

(** The first loop collects the expired ids in the order the dict yields
    them; the store keeps no insertion order here, and the ids are
    removed one by one whatever their order. *)
Definition clear_expired_sessions : M unit :=
  current_time ← now;
  ss ← gets sessions;
  timeout ← gets session_timeout;
  let expired_sessions :=
    map fst
      (filter (λ kv : string * Session, current_time - last_activity (snd kv) > timeout)
         (map_to_list ss)) in
  clear_sessions expired_sessions.

Definition get_active_sessions_count : M Z :=
  clear_expired_sessions;;
  ss ← gets sessions;
  mret (Z.of_nat (size ss)).

End ConversationManager.

(** ** [class ChatHandler] *)

Module ChatHandler.
Import ConversationManager.

Section Handler.

(** [self.system_prompt], and the text [_build_messages] appends to it
    for an attached analysis ([None] when formatting that text
    raises).  Both are prompt wording. *)
Variable system_prompt : string.
Variable describe_analysis : VideoAnalysis -> option string.

Definition apology : string :=
  "I apologize, but I encountered an error processing your message. Please try again.".

(** A chat message in the wire format of the model API: role, content. *)
Definition _build_messages (history : list Message)
    (video_analysis : option VideoAnalysis) (context : ref)
    (current_message : string) : M (list (string * string)) :=
  system_content ←
    match video_analysis with
    | Some a =>
        match describe_analysis a with
        | Some text => mret (system_prompt +:+ text)
        | None => raise TypeError
        end
    | None => mret system_prompt
    end;
  let past :=
    filter (λ msg, role msg = "user" ∨ role msg = "assistant")
      (Py.slice_to (-1) history) in
  mret ([("system", system_content)]
          ++ map (λ msg, (role msg, content msg)) past
          ++ [("user", current_message)]).

(** [reply] is what the remote chat model answers on this call,
    [None] when the call raises; the handler logs and re-raises. *)
Definition _generate_response (reply : option string)
    (messages : list (string * string)) : M string :=
  match reply with
  | Some text => mret text
  | None => raise UpstreamError
  end.

Definition keywords : list (string * list string) :=
  [ ("traffic", ["traffic"; "vehicle"; "car"; "pedestrian"; "light"; "road"]);
    ("safety", ["safety"; "violation"; "danger"; "hazard"; "risk"]);
    ("timeline", ["when"; "time"; "timestamp"; "sequence"; "order"]);
    ("summary", ["summary"; "overview"; "summarize"; "brief"]) ].

Definition _update_context_from_conversation
    (session_id message response : string) : M unit :=
  let message_lower := Py.lower message in
  let topics :=
    map fst
      (filter (λ kw, existsb (λ word, Py.contains word message_lower) (snd kw) = true)
         keywords) in
  match topics with
  | [] => mret tt
  | _ =>
      update_context session_id "current_topics"
        (Py.VList (map Py.VStr topics))
  end.

Definition process_message (reply : option string)
    (session_id message : string) : M string :=
  try_except
    (add_message session_id "user" message None;;
     history ← get_conversation_history session_id (Some 10);
     video_analysis ← get_video_analysis session_id;
     context ← get_context session_id;
     messages ← _build_messages history video_analysis context message;
     response ← _generate_response reply messages;
     add_message session_id "assistant" response None;;
     _update_context_from_conversation session_id message response;;
     mret response)
    (λ _, mret apology).

End Handler.

End ChatHandler.

(** ** Stable sorting by a rational key

    [list.sort(key=...)] is a stable sort; on keys that are totally
    ordered its result is the one list that is sorted and keeps equal
    keys in input order.  Insertion from the right computes that list. *)

Section StableSort.
Context {A : Type} (key : A -> Qc).

Fixpoint insert_by (x : A) (l : list A) : list A :=
  match l with
  | [] => [x]
  | y :: l' =>
      if decide (key x ≤ key y)%Qc then x :: y :: l' else y :: insert_by x l'
  end.

Fixpoint sort_by (l : list A) : list A :=
  match l with
  | [] => []
  | x :: l' => insert_by x (sort_by l')
  end.

End StableSort.

(** ** [class EventRecognizer]: event detection *)

Module EventRecognizer.

Inductive result (A : Type) :=
| Ok (a : A)
| Fail (e : exn).
Arguments Ok {A} a.
Arguments Fail {A} e.

#[export] Instance result_ret : MRet result := λ A a, Ok a.
#[export] Instance result_bind : MBind result := λ A B f r,
  match r with
  | Ok a => f a
  | Fail e => Fail e
  end.

Fixpoint for_each {A B} (f : A -> result B) (l : list A) : result (list B) :=
  match l with
  | [] => Ok []
  | x :: l' => y ← f x; ys ← for_each f l'; Ok (y :: ys)
  end.

(** A frame dict as [VideoProcessor.extract_frames] builds it.  Its
    ['timestamp'] is a float, or the [int] 0 when the video has no frame
    rate; the record keeps its value. *)
Record Frame := mkFrame {
  frame_number : Z;
  frame_timestamp : Qc;
  image : string;
  width : Z;
  height : Z
}.

(** A distance [abs(a - b)] as the code compares it: a finite number,
    [inf] or [nan].  [x < y] is exact on finite numbers and false as soon
    as one side is [nan]. *)
Inductive distance :=
| Finite (q : Qc)
| Infinity
| NaN.

Definition distance_lt (x y : distance) : bool :=
  match x, y with
  | Finite p, Finite q => bool_decide (p < q)%Qc
  | Finite _, Infinity => true
  | _, _ => false
  end.

(** What the interpreter decides and the code does not.
    - [float_distance a b] is [abs(a - b)] on two finite floats: the
      subtraction rounds to the nearest double and may overflow to
      [inf].
    - [long_distance a z] is [abs(a - z)] for an [int] beyond [2 ** 53].
      Subtracted from a float it is converted first: the conversion
      rounds, and raises [OverflowError] ([None]) past the range of a
      double.  Subtracted from the [int] 0 it stays an [int].
    - [list_sort keyed] is what [list.sort] makes of keys that are not
      all finite numbers: the order it leaves the events in when a key
      is [nan], or the exception it raises on keys it cannot compare. *)
Record Runtime := mkRuntime {
  float_distance : Qc -> Qc -> distance;
  long_distance : Qc -> Z -> option distance;
  list_sort : list (Py.value * Py.dict) -> result (list Py.dict)
}.

(** The fallback event for one frame. *)
Definition scene_event (frame : Frame) : Py.dict :=
  [ ("timestamp", Py.VFloat (frame_timestamp frame));
    ("frame_number", Py.VInt (frame_number frame));
    ("event_type", Py.VStr "scene");
    ("description", Py.VStr "Scene captured");
    ("objects", Py.VList []);
    ("severity", Py.VStr "low");
    ("guideline_violation", Py.VBool false);
    ("violation_details", Py.VNone) ].

Section Recognizer.

Variable py : Runtime.

(** [abs(frame['timestamp'] - timestamp)] for a frame timestamp [a].
    A [bool] counts as 0 or 1, and an [int] up to [2 ** 53] is a float
    without rounding. *)
Definition timestamp_distance (a : Qc) (timestamp : Py.value) : result distance :=
  match timestamp with
  | Py.VBool b => Ok (float_distance py a (Qc_of_Z (if b then 1 else 0)))
  | Py.VInt z =>
      if decide (Z.abs z ≤ 2 ^ 53) then Ok (float_distance py a (Qc_of_Z z))
      else
        match long_distance py a z with
        | Some diff => Ok diff
        | None => Fail OverflowError
        end
  | Py.VFloat q => Ok (float_distance py a q)
  | Py.VInf _ => Ok Infinity
  | Py.VNaN => Ok NaN
  | _ => Fail TypeError
  end.

(** The loop [for frame in frames[1:]] with its two variables. *)
Fixpoint closest (timestamp : Py.value) (frames : list Frame)
    (closest_frame : Z) (min_diff : distance) : result Z :=
  match frames with
  | [] => Ok closest_frame
  | frame :: frames' =>
      diff ← timestamp_distance (frame_timestamp frame) timestamp;
      if distance_lt diff min_diff
      then closest timestamp frames' (frame_number frame) diff
      else closest timestamp frames' closest_frame min_diff
  end.

Definition _find_closest_frame (timestamp : Py.value) (frames : list Frame)
    : result Z :=
  match frames with
  | [] => Fail IndexError
  | first :: rest =>
      min_diff ← timestamp_distance (frame_timestamp first) timestamp;
      closest timestamp rest (frame_number first) min_diff
  end.

(** [json.loads]; [None] stands for [JSONDecodeError]. *)
Variable json_loads : string -> option Py.value.

(** The loop [for event in detected_events: event['frame_number'] = ...]
    followed by [events.extend(detected_events)], on whatever value
    the decoder returned. *)
Definition annotate (frames : list Frame) (detected_events : Py.value)
    : result (list Py.dict) :=
  match detected_events with
  | Py.VList l =>
      for_each
        (λ event,
           match event with
           | Py.VDict d =>
               n ← _find_closest_frame
                     (default (Py.VInt 0) (Py.dict_get "timestamp" d)) frames;
               Ok (Py.dict_set "frame_number" (Py.VInt n) d)
           | _ => Fail AttributeError
           end) l
  | Py.VDict [] => Ok []
  | Py.VDict (_ :: _) => Fail AttributeError
  | Py.VStr EmptyString => Ok []
  | Py.VStr (String _ _) => Fail AttributeError
  | _ => Fail TypeError
  end.

(** The inner [try] block: extract and decode the JSON array. *)
Definition extract_events (frames : list Frame) (response_text : string)
    : result (list Py.dict) :=
  let start_idx := Py.find "[" response_text in
  let end_idx := Py.rfind "]" response_text + 1 in
  if bool_decide (start_idx ≠ -1 ∧ end_idx > start_idx)
  then
    let json_str := Py.str_slice start_idx end_idx response_text in
    match json_loads json_str with
    | Some detected_events => annotate frames detected_events
    | None => Fail JSONDecodeError
    end
  else Ok [].

(** [response] is the text the vision model returns for this batch,
    [None] when the call raises. *)
Definition _analyze_frame_batch (response : option string)
    (frames : list Frame) : list Py.dict :=
  match response with
  | None => []
  | Some response_text =>
      match extract_events frames response_text with
      | Ok events => events
      | Fail JSONDecodeError => map scene_event frames
      | Fail _ => []
      end
  end.

(** [frames[i:i+batch_size] for i in range(0, len(frames), batch_size)] *)
Definition batches (batch_size : nat) (frames : list Frame) : list (list Frame) :=
  map (λ k, take batch_size (drop (k * batch_size) frames))
    (seq 0 (Nat.div (length frames + (batch_size - 1)) batch_size)).

(** The sort key [x['timestamp']]. *)
Definition timestamp_key (x : Py.dict) : result Py.value :=
  match Py.dict_get "timestamp" x with
  | None => Fail KeyError
  | Some v => Ok v
  end.

(** The keys as numbers, when all of them are finite numbers. *)
Definition finite_keys (keyed : list (Py.value * Py.dict)) : option (list (Qc * Py.dict)) :=
  mapM (λ p, q ← Py.num_of (fst p); Some (q, snd p)) keyed.

(** [events.sort(key=lambda x: x['timestamp'])]: the keys are computed
    first, then the list is sorted stably on them.  Finite numbers are
    totally ordered, whatever their types; any other keys are the
    runtime's business. *)
Definition sort_events (events : list Py.dict) : result (list Py.dict) :=
  keyed ← for_each (λ x, v ← timestamp_key x; Ok (v, x)) events;
  match finite_keys keyed with
  | Some numbered => Ok (map snd (sort_by fst numbered))
  | None => list_sort py keyed
  end.

(** [vision] gives the vision model's answer for each batch. *)
Variable vision : list Frame -> option string.

Definition gather (frames : list Frame) : list Py.dict :=
  concat (map (λ batch, _analyze_frame_batch (vision batch) batch)
            (batches 5 frames)).

Definition detect_events (frames : list Frame) : list Py.dict :=
  match sort_events (gather frames) with
  | Ok events => events
  | Fail _ => []
  end.

End Recognizer.

(** *** [generate_summary] *)

(** [e.get('guideline_violation', False)] as a condition, and
    [e.get('severity') == level]. *)
Definition is_violation (e : Py.dict) : bool :=
  Py.truthy (Py.dict_get_default "guideline_violation" (Py.VBool false) e).

Definition has_severity (level : string) (e : Py.dict) : bool :=
  match Py.dict_get "severity" e with
  | Some (Py.VStr s) => String.eqb s level
  | _ => false
  end.

(** One entry of the report's ["violations"] list.  The default
    [v['description']] of the [get] is evaluated before the [get]. *)
Definition violation_entry (v : Py.dict) : result Py.dict :=
  match Py.dict_get "timestamp" v with
  | None => Fail KeyError
  | Some ts =>
      match Py.dict_get "description" v with
      | None => Fail KeyError
      | Some desc =>
          let description := Py.dict_get_default "violation_details" desc v in
          match Py.dict_get "severity" v with
          | None => Fail KeyError
          | Some sev =>
              Ok [("timestamp", ts); ("description", description); ("severity", sev)]
          end
      end
  end.

Definition compliance_status (violations : nat) : string :=
  if Nat.eqb violations 0 then "Good"
  else if Nat.leb violations 2 then "Needs Attention"
  else "Poor".

(** [len(violations) / len(events)], for [events] not empty. *)
Definition violation_rate (violations events : nat) : Qc :=
  Q2Qc (Z.of_nat violations # Pos.of_nat events).

(** [reply] is the text the chat model returns for the summary request,
    [None] when the call raises. *)
Definition generate_summary (reply : option string) (events : list Py.dict)
    : string * Py.dict :=
  match events with
  | [] => ("No significant events detected in the video.", [])
  | _ :: _ =>
      let violations := List.filter is_violation events in
      let high_severity := List.filter (has_severity "high") events in
      let medium_severity := List.filter (has_severity "medium") events in
      match reply with
      | None => ("Error generating summary", [])
      | Some summary =>
          match for_each violation_entry violations with
          | Fail _ => ("Error generating summary", [])
          | Ok entries =>
              (summary,
               [ ("total_events", Py.VInt (Z.of_nat (length events)));
                 ("violations_count", Py.VInt (Z.of_nat (length violations)));
                 ("high_severity_count", Py.VInt (Z.of_nat (length high_severity)));
                 ("medium_severity_count", Py.VInt (Z.of_nat (length medium_severity)));
                 ("violation_rate",
                  Py.VFloat (violation_rate (length violations) (length events)));
                 ("violations", Py.VList (map Py.VDict entries));
                 ("compliance_status", Py.VStr (compliance_status (length violations))) ])
          end
      end
  end.

(** *** [analyze_specific_guidelines] *)

(** [self.guidelines] *)
Definition guidelines_table : list (string * list string) :=
  [ ("traffic",
     [ "Traffic light compliance"; "Speed limit adherence";
       "Pedestrian right of way"; "Lane discipline"; "Stop sign compliance" ]);
    ("safety",
     [ "PPE usage"; "Hazard awareness"; "Emergency procedures";
       "Equipment handling"; "Restricted area access" ]);
    ("general",
     [ "Activity detection"; "Object tracking"; "Anomaly detection";
       "Pattern recognition" ]) ].

Fixpoint table_get (k : string) (t : list (string * list string)) : option (list string) :=
  match t with
  | [] => None
  | (k', v) :: t' => if String.eqb k' k then Some v else table_get k t'
  end.

(** [self.guidelines.get(guideline_type, self.guidelines["general"])] *)
Definition guidelines_for (guideline_type : string) : list string :=
  let general := default [] (table_get "general" guidelines_table) in
  default general (table_get guideline_type guidelines_table).

(** [guideline.lower() in e.get(field, '').lower()]; only a [str] has
    [lower]. *)
Definition mentions (guideline field : string) (e : Py.dict) : result bool :=
  match Py.dict_get_default field (Py.VStr "") e with
  | Py.VStr s => Ok (Py.contains (Py.lower guideline) (Py.lower s))
  | _ => Fail AttributeError
  end.

(** The condition of [related_events]; [or] looks at the violation
    details only when the description does not mention the guideline. *)
Definition relates (guideline : string) (e : Py.dict) : result bool :=
  in_description ← mentions guideline "description" e;
  if in_description : bool then Ok true
  else mentions guideline "violation_details" e.

Fixpoint select {A} (p : A -> result bool) (l : list A) : result (list A) :=
  match l with
  | [] => Ok []
  | x :: l' =>
      b ← p x;
      rest ← select p l';
      Ok (if b : bool then x :: rest else rest)
  end.

Record GuidelineResult := mkGuidelineResult {
  related_events : nat;
  violations : nat;
  status : string
}.

Record GuidelineAnalysis := mkGuidelineAnalysis {
  guideline_type : string;
  checked_guidelines : list string;
  results : list (string * GuidelineResult)
}.

Definition check_guideline (events : list Py.dict) (guideline : string)
    : result (string * GuidelineResult) :=
  related ← select (relates guideline) events;
  Ok (guideline,
      mkGuidelineResult (length related)
        (length (List.filter is_violation related))
        (if existsb is_violation related then "Fail" else "Pass")).

(** No handler here: an exception leaves the function. *)
Definition analyze_specific_guidelines (events : list Py.dict)
    (guideline_type : string) : result GuidelineAnalysis :=
  let guidelines := guidelines_for guideline_type in
  checked ← for_each (check_guideline events) guidelines;
  Ok (mkGuidelineAnalysis guideline_type guidelines checked).

End EventRecognizer.

(** ** [class VideoProcessor]: frame sampling *)

Module VideoProcessor.
Import EventRecognizer.

(** A decoded picture as [cap.read()] returns it: an array of
    [shape[0]] rows and [shape[1]] columns. *)
Record Picture := mkPicture {
  pixels : string;
  shape0 : Z;
  shape1 : Z
}.

(** What [cv2.VideoCapture(video_path)] gives the code: whether the
    file opened, the two properties read from it (the frame count
    already through [int]), and the pictures [read] hands out before it
    answers [ret = False]. *)
Record VideoCapture := mkVideoCapture {
  isOpened : bool;
  CAP_PROP_FPS : Qc;
  CAP_PROP_FRAME_COUNT : Z;
  pictures : list Picture
}.

Inductive error :=
| ZeroDivisionError
| EncodeError.

(** [extract_frames] returns its list or re-raises. *)
Inductive extraction :=
| Frames (frames_data : list Frame)
| Raise (e : error).

(** [int(x)] of a float truncates toward zero. *)
Definition int (x : Qc) : Z := Z.quot (Qnum x) (Z.pos (Qden x)).

(** [count / fps if fps > 0 else 0], the expression behind both
    [duration] and [timestamp]. *)
Definition seconds (fps : Qc) (count : Z) : Qc :=
  if decide (0 < fps)%Qc then (Qc_of_Z count / fps)%Qc else 0%Qc.

Section Processor.

Variable max_frames : Z.
Variable max_duration : Z.

(** [_frame_to_base64] is the JPEG and base64 encoder of Pillow; [None]
    stands for an exception raised inside it. *)
Variable _frame_to_base64 : Picture -> option string.

(** [total_frames] once the duration check has run. *)
Definition total_frames (cap : VideoCapture) : Z :=
  let fps := CAP_PROP_FPS cap in
  let total_frames := CAP_PROP_FRAME_COUNT cap in
  let duration := seconds fps total_frames in
  if decide (Qc_of_Z max_duration < duration)%Qc
  then int (fps * Qc_of_Z max_duration)%Qc
  else total_frames.

(** The [while] loop of [extract_frames], one iteration per picture
    read.  The capture stays open until [release], so only
    [extracted_count < self.max_frames] can end the loop at its head. *)
Fixpoint read_frames (fps : Qc) (total_frames frame_interval : Z)
    (stream : list Picture) (frame_count extracted_count : Z) : extraction :=
  if decide (extracted_count < max_frames) then
    match stream with
    | [] => Frames []
    | frame :: stream' =>
        if decide (frame_count mod frame_interval = 0) then
          match _frame_to_base64 frame with
          | None => Raise EncodeError
          | Some frame_base64 =>
              let data :=
                mkFrame frame_count (seconds fps frame_count) frame_base64
                  (shape1 frame) (shape0 frame) in
              if decide (frame_count + 1 >= total_frames) then Frames [data]
              else
                match read_frames fps total_frames frame_interval stream'
                        (frame_count + 1) (extracted_count + 1) with
                | Frames frames_data => Frames (data :: frames_data)
                | Raise e => Raise e
                end
          end
        else
          if decide (frame_count + 1 >= total_frames) then Frames []
          else read_frames fps total_frames frame_interval stream'
                 (frame_count + 1) extracted_count
    end
  else Frames [].

Definition extract_frames (cap : VideoCapture) : extraction :=
  let fps := CAP_PROP_FPS cap in
  let total_frames := total_frames cap in
  if decide (max_frames = 0) then Raise ZeroDivisionError
  else
    let frame_interval := Z.max 1 (total_frames / max_frames) in
    if isOpened cap
    then read_frames fps total_frames frame_interval (pictures cap) 0 0
    else Frames [].

End Processor.

End VideoProcessor.

(** ** [main.py]: the routes *)

Module Main.
Import ConversationManager ChatHandler EventRecognizer.

(** What a route can raise: an exception of the code below it, or the
    [HTTPException] whose status the framework answers with. *)
Inductive raised :=
| Exception (e : exn)
| OtherException (* raised outside the modelled code: file system, video decoding *)
| HTTPException (status_code : Z).

Inductive Attempt (A : Type) :=
| Done (a : A) (w : World)
| Raised (r : raised) (w : World).
Arguments Done {A} a w.
Arguments Raised {A} r w.

Definition Route (A : Type) : Type := World -> Attempt A.

#[export] Instance Route_ret : MRet Route := λ A a w, Done a w.
#[export] Instance Route_bind : MBind Route := λ A B f m w,
  match m w with
  | Done a w' => f a w'
  | Raised r w' => Raised r w'
  end.

(** A call into the manager or the handler. *)
Definition call {A} (m : M A) : Route A := λ w,
  match m w with
  | Returns a w' => Done a w'
  | Raises e w' => Raised (Exception e) w'
  end.

Definition raise_http {A} (status_code : Z) : Route A := λ w,
  Raised (HTTPException status_code) w.

(** A step outside the modelled code that raises. *)
Definition raise_other {A} : Route A := λ w, Raised OtherException w.

(** [try: body except Exception as e: raise HTTPException(status_code=500, ...)];
    an [HTTPException] raised in the body is an [Exception] as well. *)
Definition guarded {A} (body : Route A) : Route A := λ w,
  match body w with
  | Done a w' => Done a w'
  | Raised _ w' => Raised (HTTPException 500) w'
  end.

(** [s.endswith(suffix)] and [s.endswith((suffix, ...))] *)
Definition endswith (s suffix : string) : bool :=
  let n := String.length s in
  let k := String.length suffix in
  (Nat.leb k n && String.eqb (String.substring (n - k) k s) suffix)%bool.

Definition video_suffixes : list string := [".mp4"; ".avi"; ".mov"; ".mkv"; ".webm"].

Record VideoAnalysisResponse := mkVideoAnalysisResponse {
  var_session_id : string;
  var_events : list Py.dict;
  var_summary : string;
  guideline_adherence : Py.dict
}.

Record ChatResponse := mkChatResponse {
  response : string;
  session_id : string;
  context_retained : bool
}.

Section Routes.

(** The handler's prompt wording, the decoder and the two remote models. *)
Variable system_prompt : string.
Variable describe_analysis : VideoAnalysis -> option string.
Variable py : Runtime.
Variable json_loads : string -> option Py.value.
Variable vision : list Frame -> option string.

(** [session_id or conversation_manager.create_session()]: [None] and
    the empty string both ask for a new session. *)
Definition session_or_new (uuid4 : string) (session_id : option string) : Route string :=
  match session_id with
  | Some sid => if String.eqb sid "" then call (create_session uuid4) else mret sid
  | None => call (create_session uuid4)
  end.

(** [extracted] is the outcome of saving the upload and of
    [extract_frames] ([None] when either raises), [summary_reply] the chat
    model's answer to the summary request, [removed] whether [os.remove]
    returns. *)
Definition upload_video (uuid4 : string) (extracted : option (list Frame))
    (summary_reply : option string) (removed : bool)
    (filename : string) (session_id : option string) : Route VideoAnalysisResponse :=
  guarded
    (if existsb (endswith filename) video_suffixes
     then
       frames ← match extracted with
                | Some frames => mret frames
                | None => raise_other
                end;
       let events := detect_events py json_loads vision frames in
       let '(summary, guidelines) := generate_summary summary_reply events in
       sid ← session_or_new uuid4 session_id;
       _ ← call (store_video_analysis sid events summary guidelines);
       _ ← (if removed then mret tt else raise_other);
       mret (mkVideoAnalysisResponse sid events summary guidelines)
     else raise_http 400).

(** [reply] is the chat model's answer for this turn. *)
Definition chat (uuid4 : string) (reply : option string)
    (message : string) (session_id : option string) : Route ChatResponse :=
  guarded
    (sid ← session_or_new uuid4 session_id;
     text ← call (process_message system_prompt describe_analysis reply sid message);
     mret (mkChatResponse text sid true)).

Definition get_session (session_id : string) : Route Session :=
  guarded
    (session_data ← call (ConversationManager.get_session session_id);
     match session_data with
     | Some session => mret session
     | None => raise_http 404
     end).

Definition clear_session (session_id : string) : Route string :=
  guarded
    (_ ← call (ConversationManager.clear_session session_id);
     mret "Session cleared successfully").

End Routes.

End Main.

(** ** Vocabulary of the specification *)

Import ConversationManager ChatHandler EventRecognizer.

(** A session is live when its record is in the store and the next clock
    reading is within the timeout of its last activity; it has expired
    when that reading is past it. *)
Definition live (w : World) (sid : string) (s : Session) : Prop :=
  sessions w !! sid = Some s
  ∧ clock w (ticks w) - last_activity s ≤ session_timeout w.

Definition expired (w : World) (sid : string) (s : Session) : Prop :=
  sessions w !! sid = Some s
  ∧ clock w (ticks w) - last_activity s > session_timeout w.

(** Over its next [n] readings the clock advances by no more than the
    timeout: an operation that reads the clock [n] times does not outlive
    the session it works on. *)
Definition steady (w : World) (n : nat) : Prop :=
  ∀ i j : nat, (ticks w ≤ i)%nat → (i ≤ j)%nat → (j < ticks w + n)%nat →
    clock w j - clock w i ≤ session_timeout w.

(** The session as [get_session] returns it from [w], and the world that
    call leaves behind. *)
Definition touched (w : World) (s : Session) : Session :=
  with_last_activity (clock w (S (ticks w))) s.

Definition touch (sid : string) (s : Session) (w : World) : World :=
  with_sessions (<[sid := touched w s]> (sessions w)) (tick (tick w)).

Definition is_system (m : Message) : Prop := role m = "system".

(** Trimming as the specification words it: every system message and
    the last [2 * max_history] messages survive, each once, in insertion
    order. *)
Definition spec_trim (max_history : Z) (history : list Message) : list Message :=
  let n := (length history - Z.to_nat (2 * max_history))%nat in
  filter is_system (take n history) ++ drop n history.

(** What [get_conversation_history] selects from a history. *)
Definition select_history (limit : option Z) (history : list Message) : list Message :=
  match limit with
  | Some l => if bool_decide (l ≠ 0) then Py.slice_from (- l) history else history
  | None => history
  end.

(** The system message [store_video_analysis] appends when it starts
    from [w], and the session it leaves. *)
Definition notice (w : World) (evs : list Py.dict) (summ : string) : Message :=
  mkMessage "system" (analysis_notice evs summ) (clock w (5 + ticks w)%nat)
    {["type" := "video_analysis"]}.

Definition analysed (w : World) (evs : list Py.dict) (summ : string) (g : Py.dict)
    (s : Session) : Session :=
  mkSession (id s) (created_at s) (clock w (4 + ticks w)%nat)
    (trim (max_history w) (conversation_history s ++ [notice w evs summ]))
    (Some (mkVideoAnalysis evs summ g (clock w (2 + ticks w)%nat)))
    (context s).

(** The user message a chat turn appends when it starts from [w], and the
    session a turn leaves when the model call fails. *)
Definition user_message (w : World) (message : string) : Message :=
  mkMessage "user" message (clock w (2 + ticks w)%nat) ∅.

Definition after_failed_turn (w : World) (message : string) (s : Session) : Session :=
  mkSession (id s) (created_at s) (clock w (8 + ticks w)%nat)
    (trim (max_history w) (conversation_history s ++ [user_message w message]))
    (video_analysis s) (context s).

(** The timestamp of an event when it is a finite number, and the order
    it induces. *)
Definition event_time (e : Py.dict) : option Qc :=
  Py.dict_get "timestamp" e ≫= Py.num_of.

Definition time_le (a b : Py.dict) : Prop :=
  ∃ p q, event_time a = Some p ∧ event_time b = Some q ∧ (p ≤ q)%Qc.

Definition sorted_by_time (l : list Py.dict) : Prop := StronglySorted time_le l.

(** Events with one and the same timestamp come out in the order they
    went in. *)
Definition ties_in_order (input output : list Py.dict) : Prop :=
  ∀ q, filter (λ e, event_time e = Some q) output
       = filter (λ e, event_time e = Some q) input.

Definition keyed_ok (keyed : list (Qc * Py.dict)) : Prop :=
  Forall (λ p, event_time (snd p) = Some (fst p)) keyed.

Definition timestamp_usable (e : Py.dict) : Prop :=
  match Py.dict_get "timestamp" e with
  | Some v => Py.is_number v = true
  | None => True
  end.

(** Every dict object in use lies below the next free location. *)
Definition heap_fresh (w : World) : Prop :=
  ∀ r : ref, (next_ref w ≤ r)%nat → dicts w !! r = None.

(** A session is within the timeout of the clock reading [t]. *)
Definition within_timeout (w : World) (t : datetime) (s : Session) : Prop :=
  t - last_activity s ≤ session_timeout w.

#[global] Instance within_timeout_dec w t s : Decision (within_timeout w t s).
Proof. unfold within_timeout. apply _. Defined.

(** ** Example data *)

Module Example.

(** A clock that starts at [t0] and advances one millisecond per reading. *)
Definition clock_from (t0 : datetime) : nat → datetime :=
  λ n, t0 + Z.of_nat n * 1000.

Definition u1 : Message := mkMessage "user" "first question" 10 ∅.
Definition u2 : Message := mkMessage "user" "second question" 20 ∅.

(** One session ["s1"], last active at instant 0, in a manager with a
    thirty-minute timeout. *)
Definition session (history : list Message) : Session :=
  mkSession "s1" 0 0 history None 0%nat.

Definition world (max_history : Z) (t0 : datetime) (history : list Message) : World :=
  mkWorld {["s1" := session history]} max_history (timedelta_minutes 30)
    {[0%nat := ∅]} 1%nat (clock_from t0) 0%nat.

Definition e1 : Py.dict := [("timestamp", Py.VFloat (Qc_of_Z 1)); ("event_type", Py.VStr "other")].
Definition e5 : Py.dict := [("timestamp", Py.VFloat (Qc_of_Z 5)); ("event_type", Py.VStr "violation")].

Definition frame_a : Frame := mkFrame 0 (Qc_of_Z 0) "" 640 480.
Definition frame_b : Frame := mkFrame 30 (Qc_of_Z 1) "" 640 480.

Definition topics : Py.value := Py.VList [Py.VStr "traffic"].

(** A violation event as the vision model is asked to report it, and one
    that names the violated rule but has no description. *)
Definition red_light : Py.dict :=
  [ ("timestamp", Py.VFloat (Q2Qc (26 # 5)));
    ("event_type", Py.VStr "violation");
    ("description", Py.VStr "Car runs the red light");
    ("severity", Py.VStr "high");
    ("guideline_violation", Py.VBool true);
    ("violation_details", Py.VStr "Traffic light compliance") ].

Definition undescribed : Py.dict :=
  [ ("timestamp", Py.VFloat (Qc_of_Z 7));
    ("severity", Py.VStr "medium");
    ("guideline_violation", Py.VBool true);
    ("violation_details", Py.VStr "Lane discipline") ].

(** A capture of [n] pictures of 640 by 480 at 30 frames per second
    whose header reports [count] frames, and an encoder that accepts
    every picture. *)
Definition picture : VideoProcessor.Picture := VideoProcessor.mkPicture "" 480 640.

Definition capture (count : Z) (n : nat) : VideoProcessor.VideoCapture :=
  VideoProcessor.mkVideoCapture true (Qc_of_Z 30) count (replicate n picture).

Definition encoder (frame : VideoProcessor.Picture) : option string := Some "".

(** A runtime for the examples: their timestamps are small dyadic
    numbers, on which float subtraction is exact, and no [int] beyond
    [2 ** 53] occurs in them.  Its [list.sort] leaves keys it cannot
    order in place, as CPython does with the keys [2.0, nan, 1.0]. *)
Definition runtime : Runtime :=
  mkRuntime (λ a b, Finite (Qcabs (a - b))) (λ _ _, None) (λ keyed, Ok (map snd keyed)).

(** Events at 2 s and at no time at all. *)
Definition e2 : Py.dict := [("timestamp", Py.VFloat (Qc_of_Z 2))].
Definition e_nan : Py.dict := [("timestamp", Py.VNaN)].


End Example.

(** ** The session store *)

(** Unfold the monad and project through world updates, and nothing
    else: maps, histories and strings stay folded. *)
Ltac run_step :=
  unfold mbind, M_bind, mret, M_ret;
  cbn [gets now set_sessions set_dicts raise store_session
       del_session dict_setitem
       sessions max_history session_timeout dicts next_ref clock ticks
       tick with_sessions with_dicts
       id created_at last_activity conversation_history video_analysis context
       with_last_activity with_history with_analysis
       default from_option Nat.add Nat.iter nat_rect].

Ltac world_eq :=
  unfold touch, touched; run_step; rewrite ?insert_insert_eq; reflexivity.

Ltac bind_with L :=
  unfold mbind at 1, M_bind at 1; rewrite L by eauto; cbv beta iota.

Ltac solve_live H :=
  split; [ unfold touch; run_step; apply lookup_insert_eq
         | unfold touch, touched; run_step; apply H; lia ].

(** Run the next operation of a sequence on a session that is still live. *)
Ltac step_live L H :=
  unfold mbind at 1, M_bind at 1;
  erewrite L by (first [ eassumption | solve_live H ]);
  cbv beta iota.

Lemma steady_le w n m : (m ≤ n)%nat → steady w n → steady w m.
Proof. intros Hle Hs i j ? ? ?. apply Hs; lia. Qed.

Lemma live_not_expired w sid s s' : live w sid s → ¬ expired w sid s'.
Proof. intros [H1 H2] [H3 H4]. rewrite H1 in H3. injection H3 as <-. lia. Qed.

Lemma clear_session_present w sid s :
  sessions w !! sid = Some s →
  clear_session sid w = Returns tt (with_sessions (delete sid (sessions w)) w).
Proof.
  intros H. unfold clear_session, del_session. run_step.
  rewrite bool_decide_true by (rewrite H; eauto). run_step. by rewrite H.
Qed.

Lemma clear_session_absent w sid :
  sessions w !! sid = None → clear_session sid w = Returns tt w.
Proof.
  intros H. unfold clear_session. run_step.
  rewrite bool_decide_false; [done|]. rewrite H. by intros [? ?].
Qed.

Lemma get_session_absent w sid :
  sessions w !! sid = None → get_session sid w = Returns None w.
Proof. intros H. unfold get_session. run_step. by rewrite H. Qed.

Lemma get_session_expired w sid s :
  expired w sid s →
  get_session sid w = Returns None (with_sessions (delete sid (sessions w)) (tick w)).
Proof.
  intros [H Hexp]. unfold get_session. run_step. rewrite H. run_step.
  rewrite bool_decide_true by done.
  by rewrite (clear_session_present (tick w) sid s).
Qed.

Lemma get_session_touch w sid s :
  live w sid s → get_session sid w = Returns (Some (touched w s)) (touch sid s w).
Proof.
  intros [H Hlive]. unfold get_session. run_step. rewrite H. run_step.
  by rewrite bool_decide_false by lia.
Qed.

(** A created session is in the store with an empty history, no
    analysis and an empty context dict of its own. *)
Lemma create_session_fresh uuid4 w :
  ∃ w1 s,
    create_session uuid4 w = Returns uuid4 w1
    ∧ sessions w1 !! uuid4 = Some s
    ∧ id s = uuid4
    ∧ created_at s = clock w (ticks w)
    ∧ last_activity s = clock w (1 + ticks w)%nat
    ∧ conversation_history s = []
    ∧ video_analysis s = None
    ∧ dicts w1 !! context s = Some ∅.
Proof.
  eexists _, _. split; [reflexivity|].
  split; [unfold new_dict; run_step; apply lookup_insert_eq|].
  repeat (split; [reflexivity|]).
  unfold new_dict. run_step. apply lookup_insert_eq.
Qed.

(** *** Trimming *)

Lemma filter_agree {A} (P Q : A → Prop) `{∀ x, Decision (P x)} `{∀ x, Decision (Q x)}
    (l : list A) :
  (∀ x, x ∈ l → (P x ↔ Q x)) → filter P l = filter Q l.
Proof.
  induction l as [|a l IH]; intros Hl; [done|].
  rewrite !filter_cons.
  rewrite IH by (intros x Hx; apply Hl; by right).
  destruct (decide (P a)) as [Hp|Hp], (decide (Q a)) as [Hq|Hq]; try done.
  - exfalso. apply Hq, Hl; [by left|done].
  - exfalso. apply Hp, Hl; [by left|done].
Qed.

Lemma slice_from_recent {A} (k : Z) (l : list A) :
  0 < k → Py.slice_from (- k) l = drop (length l - Z.to_nat k) l.
Proof.
  intros Hk. unfold Py.slice_from.
  rewrite bool_decide_true by lia. f_equal. lia.
Qed.

Lemma slice_from_zero {A} (l : list A) : Py.slice_from (- 0) l = l.
Proof. unfold Py.slice_from. simpl. by rewrite drop_0. Qed.

Lemma trim_below mh h :
  Z.of_nat (length h) ≤ mh * 2 → trim mh h = h.
Proof. intros Hle. unfold trim. by rewrite bool_decide_false by lia. Qed.

(** A message of the recent slice equals a kept system message exactly
    when it is a system message itself. *)
Lemma recent_not_system mh (h : list Message) :
  filter (λ m, m ∉ filter (λ m, role m = "system") h) (Py.slice_from (- (mh * 2)) h)
  = filter (λ m, ¬ is_system m) (Py.slice_from (- (mh * 2)) h).
Proof.
  apply filter_agree. intros x Hx. unfold is_system.
  rewrite list_elem_of_filter. split; [|tauto].
  intros Hn Hs. apply Hn. split; [done|].
  unfold Py.slice_from in Hx. eapply subseteq_drop, Hx.
Qed.

Lemma trim_above mh h :
  1 ≤ mh → Z.of_nat (length h) > mh * 2 →
  trim mh h =
    filter is_system h
      ++ filter (λ m, ¬ is_system m) (drop (length h - Z.to_nat (2 * mh)) h).
Proof.
  intros Hmh Hgt. unfold trim. rewrite bool_decide_true by lia.
  rewrite recent_not_system. rewrite slice_from_recent by lia.
  by replace (mh * 2) with (2 * mh) by lia.
Qed.

Lemma trim_above_perm mh h :
  1 ≤ mh → Z.of_nat (length h) > mh * 2 → trim mh h ≡ₚ spec_trim mh h.
Proof.
  intros Hmh Hgt. rewrite trim_above by done. unfold spec_trim.
  set (n := (length h - Z.to_nat (2 * mh))%nat).
  rewrite <- (take_drop n h) at 1. rewrite filter_app, <- app_assoc.
  apply Permutation_app_head. apply filter_app_complement.
Qed.

(** With [max_history = 0] the slice [history[-0:]] is the whole list:
    nothing is ever dropped. *)
Lemma trim_zero h : trim 0 h ≡ₚ h.
Proof.
  unfold trim. case_bool_decide; [|done].
  rewrite recent_not_system. change (0 * 2) with 0. rewrite slice_from_zero.
  apply filter_app_complement.
Qed.

Lemma trim_keeps_system mh h m : is_system m → m ∈ h → m ∈ trim mh h.
Proof.
  intros Hs Hm. unfold trim. case_bool_decide; [|done].
  apply elem_of_app. left. by apply list_elem_of_filter.
Qed.

(** *** The operations on a live session *)

Lemma add_message_live w sid s r c md :
  live w sid s →
  add_message sid r c md w =
    Returns tt
      (with_sessions
         (<[sid := with_history
                     (trim (max_history w)
                        (conversation_history s
                           ++ [mkMessage r c (clock w (2 + ticks w)%nat) (default ∅ md)]))
                     (touched w s)]> (sessions w))
         (Nat.iter 3 tick w)).
Proof.
  intros Hl. unfold add_message. bind_with (get_session_touch w sid s).
  unfold store_session. run_step. f_equal. world_eq.
Qed.

Lemma add_message_absent w sid r c md :
  sessions w !! sid = None → add_message sid r c md w = Returns tt w.
Proof. intros H. unfold add_message. by bind_with get_session_absent. Qed.

Lemma get_conversation_history_live w sid s limit :
  live w sid s →
  get_conversation_history sid limit w =
    Returns (select_history limit (conversation_history s)) (touch sid s w).
Proof.
  intros Hl. unfold get_conversation_history. bind_with (get_session_touch w sid s).
  unfold select_history, touched. run_step.
  destruct limit as [l|]; [|done]. by case_bool_decide.
Qed.

Lemma get_conversation_history_absent w sid limit :
  sessions w !! sid = None → get_conversation_history sid limit w = Returns [] w.
Proof. intros H. unfold get_conversation_history. by bind_with get_session_absent. Qed.

Lemma get_conversation_history_expired w sid s limit :
  expired w sid s →
  get_conversation_history sid limit w =
    Returns [] (with_sessions (delete sid (sessions w)) (tick w)).
Proof.
  intros H. unfold get_conversation_history. by bind_with (get_session_expired w sid s).
Qed.

Lemma get_video_analysis_live w sid s :
  live w sid s →
  get_video_analysis sid w = Returns (video_analysis s) (touch sid s w).
Proof. intros Hl. unfold get_video_analysis. by bind_with (get_session_touch w sid s). Qed.

Lemma get_context_live w sid s :
  live w sid s → get_context sid w = Returns (context s) (touch sid s w).
Proof. intros Hl. unfold get_context. by bind_with (get_session_touch w sid s). Qed.

Lemma update_context_live w sid s k v :
  live w sid s →
  update_context sid k v w =
    Returns tt (with_dicts (alter (insert k v) (context s) (dicts w)) (touch sid s w)).
Proof. intros Hl. unfold update_context. by bind_with (get_session_touch w sid s). Qed.

Lemma store_video_analysis_live w sid s evs summ g :
  live w sid s → steady w 4 →
  store_video_analysis sid evs summ g w =
    Returns tt
      (with_sessions (<[sid := analysed w evs summ g s]> (sessions w))
         (Nat.iter 6 tick w)).
Proof.
  intros Hl Hs. unfold store_video_analysis.
  bind_with (get_session_touch w sid s).
  unfold store_session. run_step.
  erewrite add_message_live by solve_live Hs.
  f_equal. unfold analysed, notice. world_eq.
Qed.

Lemma store_video_analysis_absent w sid evs summ g :
  sessions w !! sid = None → store_video_analysis sid evs summ g w = Returns tt w.
Proof. intros H. unfold store_video_analysis. by bind_with get_session_absent. Qed.

Lemma store_video_analysis_expired w sid s evs summ g :
  expired w sid s →
  store_video_analysis sid evs summ g w =
    Returns tt (with_sessions (delete sid (sessions w)) (tick w)).
Proof.
  intros H. unfold store_video_analysis. by bind_with (get_session_expired w sid s).
Qed.

(** *** Expiry, refresh and deletion *)

(** C3.  A [get] on a session whose last activity is more than the timeout
    behind the clock evicts the record and returns absent without raising;
    any later [get] on that id, in whatever world still lacks it, returns
    absent again and changes nothing. *)
Theorem get_session_expired_evicts w sid s :
  expired w sid s →
  ∃ w1,
    get_session sid w = Returns None w1
    ∧ sessions w1 = delete sid (sessions w)
    ∧ get_session sid w1 = Returns None w1
    ∧ ∀ w2, sessions w2 !! sid = None → get_session sid w2 = Returns None w2.
Proof.
  intros Hexp. eexists. split; [by apply (get_session_expired w sid s)|].
  split; [done|]. split.
  - apply get_session_absent. run_step. apply lookup_delete_eq.
  - intros w2. apply get_session_absent.
Qed.

(** C5.  A [get] on a live session returns the record with [last_activity]
    set to the reading taken at the access and every other field as it
    was, and stores that record; a second [get] made before another
    timeout has passed since that reading finds the session again,
    however old the activity it replaced. *)
Theorem get_session_refreshes w sid s :
  live w sid s →
  ∃ w1 s1,
    get_session sid w = Returns (Some s1) w1
    ∧ sessions w1 !! sid = Some s1
    ∧ last_activity s1 = clock w (1 + ticks w)%nat
    ∧ id s1 = id s
    ∧ created_at s1 = created_at s
    ∧ conversation_history s1 = conversation_history s
    ∧ video_analysis s1 = video_analysis s
    ∧ context s1 = context s
    ∧ dicts w1 = dicts w
    ∧ (clock w (2 + ticks w)%nat - clock w (1 + ticks w)%nat ≤ session_timeout w →
       ∃ s2 w2, get_session sid w1 = Returns (Some s2) w2
                ∧ last_activity s2 = clock w (3 + ticks w)%nat).
Proof.
  intros Hl. exists (touch sid s w), (touched w s).
  split; [by apply get_session_touch|].
  split; [unfold touch; run_step; apply lookup_insert_eq|].
  repeat (split; [reflexivity|]).
  intros Hnear. eexists _, _. split.
  - apply get_session_touch. split.
    + unfold touch. run_step. apply lookup_insert_eq.
    + unfold touch, touched. run_step. exact Hnear.
  - reflexivity.
Qed.

(** C8.  [delete] never raises: it removes the record when there is one
    and leaves the world as it is when there is none; every other session
    keeps its record, and a second [delete] of the same id changes
    nothing more. *)
Theorem clear_session_idempotent w sid :
  ∃ w1,
    clear_session sid w = Returns tt w1
    ∧ sessions w1 = delete sid (sessions w)
    ∧ (sessions w !! sid = None → w1 = w)
    ∧ (∀ sid', sid' ≠ sid → sessions w1 !! sid' = sessions w !! sid')
    ∧ dicts w1 = dicts w
    ∧ clear_session sid w1 = Returns tt w1.
Proof.
  destruct (sessions w !! sid) as [s|] eqn:Hs.
  - exists (with_sessions (delete sid (sessions w)) w).
    split; [by apply (clear_session_present w sid s)|].
    split; [done|]. split; [done|]. split.
    { intros sid' Hne. run_step. by apply lookup_delete_ne. }
    split; [done|].
    apply clear_session_absent. run_step. apply lookup_delete_eq.
  - exists w. split; [by apply clear_session_absent|].
    split; [by rewrite delete_id|]. split; [done|].
    split; [done|]. split; [done|]. by apply clear_session_absent.
Qed.

(** Witness of C3: a session idle for two seconds more than the timeout. *)
Lemma get_session_expired_evicts_witness :
  expired (Example.world 10 2000000000 []) "s1" (Example.session [])
  ∧ ∃ w1, get_session "s1" (Example.world 10 2000000000 []) = Returns None w1
          ∧ sessions w1 !! "s1" = None
          ∧ get_session "s1" w1 = Returns None w1.
Proof.
  assert (He : expired (Example.world 10 2000000000 []) "s1" (Example.session [])).
  { split; vm_compute; reflexivity. }
  split; [exact He|].
  destruct (get_session_expired_evicts _ _ _ He) as (w1 & H1 & H2 & H3 & _).
  exists w1. split; [exact H1|]. split; [|exact H3].
  rewrite H2. apply lookup_delete_eq.
Defined.

(** Witness of C5: the first access falls exactly on the timeout
    boundary, the second one two milliseconds past it. *)
Lemma get_session_refreshes_witness :
  live (Example.world 10 1800000000 [Example.u1]) "s1" (Example.session [Example.u1])
  ∧ ∃ w1 s1 s2 w2,
      get_session "s1" (Example.world 10 1800000000 [Example.u1]) = Returns (Some s1) w1
      ∧ last_activity s1 = 1800001000
      ∧ conversation_history s1 = [Example.u1]
      ∧ clock w1 (ticks w1) - 0 > session_timeout w1
      ∧ get_session "s1" w1 = Returns (Some s2) w2.
Proof.
  assert (Hl : live (Example.world 10 1800000000 [Example.u1]) "s1"
                 (Example.session [Example.u1])).
  { split; [vm_compute; reflexivity|]. vm_compute. discriminate. }
  split; [exact Hl|].
  destruct (get_session_refreshes _ _ _ Hl)
    as (w1 & s1 & H1 & _ & H3 & _ & _ & H6 & _ & _ & _ & H10).
  destruct H10 as (s2 & w2 & H11 & _); [vm_compute; discriminate|].
  exists w1, s1, s2, w2. split; [exact H1|]. split; [exact H3|].
  split; [exact H6|]. split; [|exact H11].
  rewrite (get_session_touch _ _ _ Hl) in H1. injection H1 as _ <-.
  vm_compute. reflexivity.
Defined.

(** Witness of C8: deleting the one session of a store, and deleting a
    session that is not there. *)
Lemma clear_session_idempotent_witness :
  (∃ w1, clear_session "s1" (Example.world 10 0 []) = Returns tt w1
         ∧ sessions w1 !! "s1" = None
         ∧ clear_session "s1" w1 = Returns tt w1)
  ∧ clear_session "s2" (Example.world 10 0 []) = Returns tt (Example.world 10 0 []).
Proof.
  split.
  - destruct (clear_session_idempotent (Example.world 10 0 []) "s1")
      as (w1 & H1 & H2 & _ & _ & _ & H6).
    exists w1. split; [exact H1|]. split; [|exact H6].
    rewrite H2. apply lookup_delete_eq.
  - destruct (clear_session_idempotent (Example.world 10 0 []) "s2")
      as (w1 & H1 & _ & H3 & _).
    rewrite H1. f_equal. apply H3. vm_compute. reflexivity.
Defined.

(** *** History retention *)

(** C1 as stated fails.  With [max_history = 1] and two user messages in
    the history, appending a system message trims the history to the
    system message followed by the second user message, while insertion
    order has the user message first. *)
Lemma add_message_moves_system_first :
  ∃ w1 s1 m,
    add_message "s1" "system" "note" None
      (Example.world 1 0 [Example.u1; Example.u2]) = Returns tt w1
    ∧ sessions w1 !! "s1" = Some s1
    ∧ m = mkMessage "system" "note" 2000 ∅
    ∧ conversation_history s1 = [m; Example.u2]
    ∧ spec_trim 1 [Example.u1; Example.u2; m] = [Example.u2; m]
    ∧ conversation_history s1 ≠ spec_trim 1 [Example.u1; Example.u2; m].
Proof.
  eexists _, _, _. split; [vm_compute; reflexivity|].
  split; [vm_compute; reflexivity|]. split; [reflexivity|].
  split; [vm_compute; reflexivity|]. split; [vm_compute; reflexivity|].
  vm_compute. discriminate.
Qed.

(** C1, amended.  On a live session of a manager with [max_history >= 1],
    an append that leaves at most [2 * max_history] messages keeps the
    history untrimmed.  One that exceeds the threshold leaves all system
    messages, in insertion order, followed by the non-system messages
    among the last [2 * max_history] of the full list, in insertion
    order: the survivors are exactly the system messages and the last
    [2 * max_history] messages, each once, with the system messages moved
    to the front. *)
Theorem add_message_history w sid s r c md :
  live w sid s → 1 ≤ max_history w →
  let full :=
    conversation_history s ++ [mkMessage r c (clock w (2 + ticks w)%nat) (default ∅ md)] in
  ∃ w1 s1,
    add_message sid r c md w = Returns tt w1
    ∧ sessions w1 !! sid = Some s1
    ∧ (Z.of_nat (length full) ≤ 2 * max_history w →
       conversation_history s1 = full)
    ∧ (Z.of_nat (length full) > 2 * max_history w →
       conversation_history s1 =
         filter is_system full
           ++ filter (λ m, ¬ is_system m)
                (drop (length full - Z.to_nat (2 * max_history w)) full)
       ∧ conversation_history s1 ≡ₚ spec_trim (max_history w) full).
Proof.
  intros Hl Hmh full. eexists _, _.
  split; [by apply add_message_live|].
  split; [run_step; apply lookup_insert_eq|].
  run_step. fold full. split.
  - intros Hle. apply trim_below. lia.
  - intros Hgt. split; [apply trim_above|apply trim_above_perm]; lia.
Qed.

(** Witness of C1: the append of the counterexample, read through the
    amended statement. *)
Lemma add_message_history_witness :
  live (Example.world 1 0 [Example.u1; Example.u2]) "s1"
    (Example.session [Example.u1; Example.u2])
  ∧ 1 ≤ max_history (Example.world 1 0 [Example.u1; Example.u2])
  ∧ ∃ w1 s1,
      add_message "s1" "system" "note" None
        (Example.world 1 0 [Example.u1; Example.u2]) = Returns tt w1
      ∧ sessions w1 !! "s1" = Some s1
      ∧ conversation_history s1 = [mkMessage "system" "note" 2000 ∅; Example.u2].
Proof.
  assert (Hl : live (Example.world 1 0 [Example.u1; Example.u2]) "s1"
                 (Example.session [Example.u1; Example.u2])).
  { split; [vm_compute; reflexivity|]. vm_compute. discriminate. }
  assert (Hmh : 1 ≤ max_history (Example.world 1 0 [Example.u1; Example.u2])).
  { vm_compute. discriminate. }
  split; [exact Hl|]. split; [exact Hmh|].
  destruct (add_message_history _ "s1" _ "system" "note" None Hl Hmh)
    as (w1 & s1 & H1 & H2 & _ & H4).
  exists w1, s1. split; [exact H1|]. split; [exact H2|].
  destruct H4 as [-> _]; [vm_compute; reflexivity|].
  vm_compute. reflexivity.
Defined.

Lemma select_history_positive (l : Z) (h : list Message) :
  0 < l →
  select_history (Some l) h = drop (length h - Z.to_nat l) h
  ∧ length (select_history (Some l) h) = Nat.min (Z.to_nat l) (length h).
Proof.
  intros Hl. unfold select_history. rewrite bool_decide_true by lia.
  rewrite slice_from_recent by done. split; [done|]. rewrite length_drop. lia.
Qed.

(** C10.  [get_conversation_history] never raises.  It returns the empty
    list for an absent or expired session.  On a live session a strictly
    positive limit returns the trailing [limit] messages in order (the
    whole history when it is shorter than that), and limit 0 returns the
    entire history, exactly as no limit does. *)
Theorem get_conversation_history_result w sid limit :
  ∃ h w1,
    get_conversation_history sid limit w = Returns h w1
    ∧ (sessions w !! sid = None → h = [])
    ∧ (∀ s, expired w sid s → h = [])
    ∧ (∀ s, live w sid s →
         (∀ l, limit = Some l → 0 < l →
            h = drop (length (conversation_history s) - Z.to_nat l)
                  (conversation_history s)
            ∧ length h = Nat.min (Z.to_nat l) (length (conversation_history s)))
         ∧ (limit = Some 0 → h = conversation_history s)
         ∧ (limit = None → h = conversation_history s)).
Proof.
  destruct (sessions w !! sid) as [s|] eqn:Hs.
  - destruct (decide (clock w (ticks w) - last_activity s > session_timeout w)) as [He|Hl].
    + assert (Hexp : expired w sid s) by done.
      eexists _, _. split; [by apply (get_conversation_history_expired w sid s)|].
      split; [done|]. split; [done|].
      intros s' Hl. by destruct (live_not_expired _ _ _ _ Hl Hexp).
    + assert (Hlive : live w sid s) by (split; [done|lia]).
      eexists _, _. split; [by apply get_conversation_history_live|].
      split; [done|]. split.
      { intros s' Hexp. by destruct (live_not_expired _ _ _ _ Hlive Hexp). }
      intros s' [Hs' _]. assert (s' = s) as -> by congruence.
      split; [|split].
      * intros l -> Hpos. by apply select_history_positive.
      * by intros ->.
      * by intros ->.
  - eexists _, _. split; [by apply get_conversation_history_absent|].
    split; [done|]. split; [done|]. intros s [? _]. congruence.
Qed.

(** Witness of C10: three messages, read with limit 2 and with limit 0. *)
Lemma get_conversation_history_result_witness :
  let m := mkMessage "system" "note" 30 ∅ in
  let w := Example.world 10 0 [Example.u1; Example.u2; m] in
  (∃ w1, get_conversation_history "s1" (Some 2) w = Returns [Example.u2; m] w1)
  ∧ (∃ w1, get_conversation_history "s1" (Some 0) w = Returns [Example.u1; Example.u2; m] w1)
  ∧ (∃ w1, get_conversation_history "s2" (Some 2) w = Returns [] w1).
Proof.
  intros m w.
  assert (Hl : live w "s1" (Example.session [Example.u1; Example.u2; m])).
  { split; [vm_compute; reflexivity|]. vm_compute. discriminate. }
  split; [|split].
  - destruct (get_conversation_history_result w "s1" (Some 2))
      as (h & w1 & H1 & _ & _ & H4).
    destruct (H4 _ Hl) as (H5 & _). destruct (H5 2 eq_refl) as [-> _]; [lia|].
    by exists w1.
  - destruct (get_conversation_history_result w "s1" (Some 0))
      as (h & w1 & H1 & _ & _ & H4).
    destruct (H4 _ Hl) as (_ & H5 & _). rewrite (H5 eq_refl) in H1.
    by exists w1.
  - destruct (get_conversation_history_result w "s2" (Some 2))
      as (h & w1 & H1 & H2 & _).
    rewrite H2 in H1 by (vm_compute; reflexivity). by exists w1.
Defined.

(** *** Attaching an analysis *)

(** C9 as stated fails.  With [max_history = 1] and two messages in the
    history, attaching an analysis appends the system message and the
    append trims: the history still has two messages afterwards. *)
Lemma store_video_analysis_may_trim :
  ∃ w1 s1 m,
    store_video_analysis "s1" [Example.e1; Example.e5] "A car runs a red light." []
      (Example.world 1 0 [Example.u1; Example.u2]) = Returns tt w1
    ∧ sessions w1 !! "s1" = Some s1
    ∧ conversation_history s1 = [m; Example.u2]
    ∧ role m = "system"
    ∧ length (conversation_history s1)
      ≠ S (length (conversation_history (Example.session [Example.u1; Example.u2]))).
Proof.
  eexists _, _, _. split; [vm_compute; reflexivity|].
  split; [vm_compute; reflexivity|]. split; [vm_compute; reflexivity|].
  split; [reflexivity|]. vm_compute. discriminate.
Qed.

(** C9, amended.  On an absent session [store_video_analysis] changes
    nothing; on an expired one it only evicts the record.  On a live
    session it overwrites the analysis and appends one system message
    (event count, the first 200 characters of the summary, metadata type
    [video_analysis]) through [add_message]: the message is in the
    history afterwards, the history is the old one with the message
    appended and then trimmed, and it is one longer than before whenever
    the append stays within [2 * max_history]. *)
Theorem store_video_analysis_effect w sid evs summ g :
  (sessions w !! sid = None → store_video_analysis sid evs summ g w = Returns tt w)
  ∧ (∀ s, expired w sid s →
       ∃ w1, store_video_analysis sid evs summ g w = Returns tt w1
             ∧ sessions w1 = delete sid (sessions w)
             ∧ dicts w1 = dicts w)
  ∧ (∀ s, live w sid s → steady w 4 →
       let m := mkMessage "system" (analysis_notice evs summ)
                  (clock w (5 + ticks w)%nat) {["type" := "video_analysis"]} in
       ∃ w1 s1,
         store_video_analysis sid evs summ g w = Returns tt w1
         ∧ sessions w1 !! sid = Some s1
         ∧ video_analysis s1
           = Some (mkVideoAnalysis evs summ g (clock w (2 + ticks w)%nat))
         ∧ conversation_history s1
           = trim (max_history w) (conversation_history s ++ [m])
         ∧ m ∈ conversation_history s1
         ∧ (Z.of_nat (length (conversation_history s)) < 2 * max_history w →
            conversation_history s1 = conversation_history s ++ [m]
            ∧ length (conversation_history s1) = S (length (conversation_history s)))
         ∧ dicts w1 = dicts w
         ∧ ∀ sid', sid' ≠ sid → sessions w1 !! sid' = sessions w !! sid').
Proof.
  split; [apply store_video_analysis_absent|]. split.
  - intros s Hexp. eexists. split; [by apply (store_video_analysis_expired w sid s)|done].
  - intros s Hl Hs m. eexists _, _.
    split; [by apply store_video_analysis_live|].
    split; [run_step; apply lookup_insert_eq|].
    split; [reflexivity|]. split; [reflexivity|]. split; [|split; [|split]].
    + apply trim_keeps_system; [done|]. apply elem_of_app. right. by left.
    + intros Hlt. unfold analysed, notice. run_step. fold m.
      rewrite trim_below by (rewrite length_app; simpl; lia).
      split; [done|]. rewrite length_app. simpl. lia.
    + reflexivity.
    + intros sid' Hne. run_step. by apply lookup_insert_ne.
Qed.

(** Witness of C9: an analysis attached to a session with room in its
    history. *)
Lemma store_video_analysis_effect_witness :
  let w := Example.world 10 0 [Example.u1] in
  live w "s1" (Example.session [Example.u1])
  ∧ steady w 4
  ∧ ∃ w1 s1,
      store_video_analysis "s1" [Example.e1; Example.e5] "A car runs a red light." [] w
        = Returns tt w1
      ∧ sessions w1 !! "s1" = Some s1
      ∧ conversation_history s1
        = [Example.u1;
           mkMessage "system"
             "Video analyzed. Found 2 events. Summary: A car runs a red light...."
             5000 {["type" := "video_analysis"]}].
Proof.
  intros w.
  assert (Hl : live w "s1" (Example.session [Example.u1])).
  { split; [vm_compute; reflexivity|]. vm_compute. discriminate. }
  assert (Hs : steady w 4).
  { intros i j Hi Hij Hj. unfold w, Example.world, Example.clock_from, timedelta_minutes.
    cbn [clock ticks session_timeout] in *. lia. }
  split; [exact Hl|]. split; [exact Hs|].
  destruct (store_video_analysis_effect w "s1" [Example.e1; Example.e5]
              "A car runs a red light." []) as (_ & _ & H).
  destruct (H _ Hl Hs) as (w1 & s1 & H1 & H2 & _ & _ & _ & H6 & _).
  exists w1, s1. split; [exact H1|]. split; [exact H2|].
  destruct H6 as [-> _]; [vm_compute; reflexivity|].
  vm_compute. reflexivity.
Defined.

(** *** The context dict *)

Lemma get_context_absent w sid :
  sessions w !! sid = None →
  ∃ w1, get_context sid w = Returns (next_ref w) w1
        ∧ dicts w1 = <[next_ref w := ∅]> (dicts w)
        ∧ sessions w1 = sessions w.
Proof.
  intros H. unfold get_context. bind_with get_session_absent.
  unfold new_dict. by eexists.
Qed.

(** The example worlds: the session is live while the clock starts within
    the timeout, and the clock is steady over any short run of readings. *)
Lemma example_world_steady mh t0 h n :
  Z.of_nat n ≤ 1800000 → steady (Example.world mh t0 h) n.
Proof.
  intros Hn i j Hi Hij Hj.
  unfold Example.world, Example.clock_from, timedelta_minutes.
  cbn [clock ticks session_timeout] in *. lia.
Qed.

Lemma example_world_live mh t0 h :
  t0 ≤ 1800000000 → live (Example.world mh t0 h) "s1" (Example.session h).
Proof.
  intros Ht. split.
  - unfold Example.world. cbn [sessions]. apply lookup_singleton_eq.
  - unfold Example.world, Example.clock_from, timedelta_minutes.
    cbn [clock ticks session_timeout last_activity Example.session]. lia.
Qed.

(** C7 as stated fails.  The mapping [get_context] returned is updated by
    a later [update_context]: read through the returned reference, the
    dict has no ['current_topics'] entry at first and has one after. *)
Lemma get_context_result_sees_later_update :
  ∃ r w1 w2 d1 d2,
    get_context "s1" (Example.world 10 0 []) = Returns r w1
    ∧ update_context "s1" "current_topics" Example.topics w1 = Returns tt w2
    ∧ dicts w1 !! r = Some d1
    ∧ dicts w2 !! r = Some d2
    ∧ d1 !! "current_topics" = None
    ∧ d2 !! "current_topics" = Some Example.topics.
Proof.
  pose proof (example_world_live 10 0 [] ltac:(lia)) as Hl.
  pose proof (example_world_steady 10 0 [] 3 ltac:(lia)) as Hs.
  eexists _, _, _, ∅, {["current_topics" := Example.topics]}.
  split; [by apply get_context_live|].
  split; [apply update_context_live; solve_live Hs|].
  split; [reflexivity|]. split.
  - unfold touch, touched. run_step. rewrite lookup_alter_eq.
    unfold Example.world. cbn [dicts context Example.session].
    rewrite lookup_singleton_eq. cbn [fmap option_fmap option_map].
    by rewrite insert_empty.
  - split; [apply lookup_empty|apply lookup_singleton_eq].
Qed.

(** C7, amended.  On a live session [get_context] returns the session's
    own context dict, the stored object and no copy (no dict is created
    by the call).  A later [update_context] on the session is visible
    through the returned reference, and an assignment made through the
    returned reference is visible in the session's stored context. *)
Theorem get_context_returns_stored_dict w sid s d :
  live w sid s → steady w 3 → dicts w !! context s = Some d →
  ∃ r w1 s1,
    get_context sid w = Returns r w1
    ∧ sessions w1 !! sid = Some s1
    ∧ r = context s1
    ∧ dicts w1 = dicts w
    ∧ next_ref w1 = next_ref w
    ∧ (∀ k v, ∃ w2,
         update_context sid k v w1 = Returns tt w2
         ∧ dicts w2 !! r = Some (<[k := v]> d))
    ∧ (∀ k v, ∃ w2 s2,
         dict_setitem r k v w1 = Returns tt w2
         ∧ sessions w2 !! sid = Some s2
         ∧ dicts w2 !! context s2 = Some (<[k := v]> d)).
Proof.
  intros Hl Hs Hd. exists (context s), (touch sid s w), (touched w s).
  split; [by apply get_context_live|].
  split; [unfold touch; run_step; apply lookup_insert_eq|].
  split; [reflexivity|]. split; [reflexivity|]. split; [reflexivity|]. split.
  - intros k v. eexists. split.
    + apply update_context_live. solve_live Hs.
    + unfold touch, touched. run_step. by rewrite lookup_alter_eq, Hd.
  - intros k v. eexists _, _. split; [reflexivity|]. split.
    + unfold touch. run_step. apply lookup_insert_eq.
    + unfold touch, touched. run_step. by rewrite lookup_alter_eq, Hd.
Qed.

(** Witness of C7: the session of the counterexample. *)
Lemma get_context_returns_stored_dict_witness :
  let w := Example.world 10 0 [] in
  live w "s1" (Example.session [])
  ∧ steady w 3
  ∧ dicts w !! context (Example.session []) = Some ∅
  ∧ ∃ r w1 w2,
      get_context "s1" w = Returns r w1
      ∧ update_context "s1" "current_topics" Example.topics w1 = Returns tt w2
      ∧ dicts w2 !! r = Some {["current_topics" := Example.topics]}.
Proof.
  intros w.
  assert (Hl : live w "s1" (Example.session [])).
  { split; [vm_compute; reflexivity|]. vm_compute. discriminate. }
  assert (Hs : steady w 3).
  { intros i j Hi Hij Hj. unfold w, Example.world, Example.clock_from, timedelta_minutes.
    cbn [clock ticks session_timeout] in *. lia. }
  assert (Hd : dicts w !! context (Example.session []) = Some ∅).
  { vm_compute. reflexivity. }
  split; [exact Hl|]. split; [exact Hs|]. split; [exact Hd|].
  destruct (get_context_returns_stored_dict w "s1" _ _ Hl Hs Hd)
    as (r & w1 & s1 & H1 & _ & _ & _ & _ & H6 & _).
  destruct (H6 "current_topics" Example.topics) as (w2 & H7 & H8).
  exists r, w1, w2. split; [exact H1|]. split; [exact H7|].
  rewrite H8. f_equal.
Defined.

(** *** A chat turn whose model call fails *)

(** Once the prompt is being built, a failing model call leaves the rest
    of the turn undone: the exception reaches the handler from the world
    the reads have left. *)
Lemma build_then_fail sp da history va ctx message (k : string → M string) w :
  (messages ← _build_messages sp da history va ctx message;
   response ← _generate_response None messages;
   k response) w
  = Raises (match va with
            | Some a => match da a with Some _ => UpstreamError | None => TypeError end
            | None => UpstreamError
            end) w.
Proof.
  unfold _build_messages, _generate_response. run_step.
  destruct va as [a|]; [destruct (da a)|]; done.
Qed.

Lemma process_message_failure_live sp da w sid s message :
  live w sid s → steady w 8 →
  process_message sp da None sid message w =
    Returns apology
      (with_sessions (<[sid := after_failed_turn w message s]> (sessions w))
         (Nat.iter 9 tick w)).
Proof.
  intros Hl Hs. unfold process_message, try_except.
  step_live add_message_live Hs.
  step_live get_conversation_history_live Hs.
  step_live get_video_analysis_live Hs.
  step_live get_context_live Hs.
  rewrite build_then_fail. unfold mret, M_ret.
  f_equal. unfold after_failed_turn, user_message. world_eq.
Qed.

Lemma process_message_returns sp da reply sid message w :
  ∃ text w1, process_message sp da reply sid message w = Returns text w1.
Proof.
  unfold process_message, try_except.
  match goal with |- context [match ?m w with _ => _ end] => destruct (m w) end;
    by eexists _, _.
Qed.

Lemma process_message_failure_apology sp da sid message w :
  ∃ w1, process_message sp da None sid message w = Returns apology w1.
Proof.
  unfold process_message, try_except.
  unfold mbind at 1, M_bind at 1.
  destruct (add_message sid "user" message None w) as [[] w1|e w1]; [|by eexists].
  unfold mbind at 1, M_bind at 1.
  destruct (get_conversation_history sid (Some 10) w1) as [h w2|e w2]; [|by eexists].
  unfold mbind at 1, M_bind at 1.
  destruct (get_video_analysis sid w2) as [va w3|e w3]; [|by eexists].
  unfold mbind at 1, M_bind at 1.
  destruct (get_context sid w3) as [c w4|e w4]; [|by eexists].
  rewrite build_then_fail. by eexists.
Qed.

(** C4 as stated fails.  A turn whose model call fails returns the apology,
    and the user message it appended before the call stays in the
    history. *)
Lemma process_message_failure_keeps_user_message :
  ∃ w1 s1,
    process_message "You are an assistant." (λ _, Some "")
      None "s1" "When did the car stop?" (Example.world 10 0 []) = Returns apology w1
    ∧ sessions w1 !! "s1" = Some s1
    ∧ conversation_history s1 = [mkMessage "user" "When did the car stop?" 2000 ∅]
    ∧ conversation_history s1 ≠ conversation_history (Example.session []).
Proof.
  eexists _, _. split; [vm_compute; reflexivity|].
  split; [vm_compute; reflexivity|]. split; [vm_compute; reflexivity|].
  vm_compute. discriminate.
Qed.

(** C4, amended.  A chat turn whose model call fails never raises: the
    caller receives the apology.  On a live session the turn is not rolled
    back: the user message appended before the call stays in the history
    (trimmed as any append is) and [last_activity] is refreshed, to the
    ninth clock reading of the turn; no assistant message is appended,
    and the identifier, the creation time, the analysis, the context
    reference and every dict are as before the turn. *)
Theorem process_message_upstream_failure sp da w sid message :
  (∃ w1, process_message sp da None sid message w = Returns apology w1)
  ∧ (∀ s, live w sid s → steady w 8 →
       ∃ w1 s1,
         process_message sp da None sid message w = Returns apology w1
         ∧ sessions w1 !! sid = Some s1
         ∧ conversation_history s1
           = trim (max_history w)
               (conversation_history s
                  ++ [mkMessage "user" message (clock w (2 + ticks w)%nat) ∅])
         ∧ last_activity s1 = clock w (8 + ticks w)%nat
         ∧ id s1 = id s
         ∧ created_at s1 = created_at s
         ∧ video_analysis s1 = video_analysis s
         ∧ context s1 = context s
         ∧ dicts w1 = dicts w
         ∧ ∀ sid', sid' ≠ sid → sessions w1 !! sid' = sessions w !! sid').
Proof.
  split; [apply process_message_failure_apology|].
  intros s Hl Hs. eexists _, _.
  split; [by apply process_message_failure_live|].
  split; [run_step; apply lookup_insert_eq|].
  repeat (split; [reflexivity|]).
  intros sid' Hne. run_step. by apply lookup_insert_ne.
Qed.

(** Witness of C4: the failed turn of the counterexample. *)
Lemma process_message_upstream_failure_witness :
  let w := Example.world 10 0 [] in
  live w "s1" (Example.session [])
  ∧ steady w 8
  ∧ ∃ w1 s1,
      process_message "You are an assistant." (λ _, Some "")
        None "s1" "When did the car stop?" w = Returns apology w1
      ∧ sessions w1 !! "s1" = Some s1
      ∧ conversation_history s1 = [mkMessage "user" "When did the car stop?" 2000 ∅]
      ∧ last_activity s1 = 8000
      ∧ context s1 = context (Example.session []).
Proof.
  intros w.
  assert (Hl : live w "s1" (Example.session [])).
  { split; [vm_compute; reflexivity|]. vm_compute. discriminate. }
  assert (Hs : steady w 8).
  { intros i j Hi Hij Hj. unfold w, Example.world, Example.clock_from, timedelta_minutes.
    cbn [clock ticks session_timeout] in *. lia. }
  split; [exact Hl|]. split; [exact Hs|].
  destruct (process_message_upstream_failure "You are an assistant." (λ _, Some "")
              w "s1" "When did the car stop?") as (_ & H).
  destruct (H _ Hl Hs) as (w1 & s1 & H1 & H2 & H3 & H4 & _ & _ & _ & H5 & _).
  exists w1, s1. split; [exact H1|]. split; [exact H2|].
  split; [rewrite H3; vm_compute; reflexivity|].
  split; [rewrite H4; vm_compute; reflexivity|exact H5].
Defined.

(** ** Event detection

    *** The stable sort *)

Section StableSortFacts.
Context {A : Type} (key : A → Qc).

Lemma insert_by_perm x l : insert_by key x l ≡ₚ x :: l.
Proof.
  induction l as [|y l IH]; simpl; [done|].
  case_decide; [done|]. rewrite IH. apply Permutation_swap.
Qed.

Lemma sort_by_perm l : sort_by key l ≡ₚ l.
Proof.
  induction l as [|x l IH]; simpl; [done|].
  by rewrite insert_by_perm, IH.
Qed.

Lemma insert_by_sorted x l :
  StronglySorted (λ a b, (key a ≤ key b)%Qc) l →
  StronglySorted (λ a b, (key a ≤ key b)%Qc) (insert_by key x l).
Proof.
  induction 1 as [|y l Hl IH Hy]; simpl.
  - repeat constructor.
  - case_decide as Hxy.
    + constructor; [by constructor|]. constructor; [done|].
      eapply Forall_impl; [exact Hy|]. intros z Hz. simpl in Hz.
      by eapply Qcle_trans.
    + constructor; [done|]. rewrite insert_by_perm. constructor; [|done].
      apply Qclt_le_weak. by apply Qcnot_le_lt.
Qed.

Lemma sort_by_sorted l : StronglySorted (λ a b, (key a ≤ key b)%Qc) (sort_by key l).
Proof.
  induction l as [|x l IH]; simpl; [constructor|]. by apply insert_by_sorted.
Qed.

Lemma insert_by_filter (P : A → Prop) `{∀ a, Decision (P a)} x l :
  (∀ a b, P a → P b → key a = key b) →
  filter P (insert_by key x l) = filter P (x :: l).
Proof.
  intros HP. induction l as [|y l IH]; simpl; [done|].
  case_decide as Hxy; [done|].
  rewrite (filter_cons _ y), IH, !filter_cons.
  destruct (decide (P y)) as [Hy|Hy], (decide (P x)) as [Hx|Hx]; try done.
  exfalso. apply Hxy. rewrite (HP x y Hx Hy). apply Qcle_refl.
Qed.

Lemma sort_by_filter (P : A → Prop) `{∀ a, Decision (P a)} l :
  (∀ a b, P a → P b → key a = key b) →
  filter P (sort_by key l) = filter P l.
Proof.
  intros HP. induction l as [|x l IH]; simpl; [done|].
  rewrite insert_by_filter by done. by rewrite !filter_cons, IH.
Qed.

End StableSortFacts.

(** *** Sorting the detected events *)

Lemma for_each_keys evs keyed :
  for_each (λ x, v ← timestamp_key x; Ok (v, x)) evs = Ok keyed →
  map snd keyed = evs
  ∧ Forall (λ p, Py.dict_get "timestamp" (snd p) = Some (fst p)) keyed.
Proof.
  revert keyed. induction evs as [|x evs IH]; intros keyed; simpl.
  - intros [= <-]. split; [done|constructor].
  - unfold mbind, result_bind, timestamp_key.
    destruct (Py.dict_get "timestamp" x) as [v|] eqn:Hv; [|done].
    destruct (for_each _ evs) as [rest|]; [|done].
    intros [= <-]. destruct (IH rest eq_refl) as [Hm Hk].
    split; simpl; [by rewrite Hm|]. by constructor.
Qed.

Lemma for_each_keys_missing evs x :
  x ∈ evs → Py.dict_get "timestamp" x = None →
  ∃ e, for_each (λ x, v ← timestamp_key x; Ok (v, x)) evs = Fail e.
Proof.
  intros Hx Hn. induction evs as [|y evs IH]; [by apply elem_of_nil in Hx|].
  simpl. unfold mbind, result_bind, timestamp_key.
  apply elem_of_cons in Hx as [<-|Hx].
  - rewrite Hn. by eexists.
  - destruct (Py.dict_get "timestamp" y); [|by eexists].
    destruct (IH Hx) as [e He].
    unfold mbind, result_bind, timestamp_key in He. rewrite He. by eexists.
Qed.

Lemma for_each_keys_total evs :
  Forall (λ e, is_Some (Py.dict_get "timestamp" e)) evs →
  ∃ keyed, for_each (λ x, v ← timestamp_key x; Ok (v, x)) evs = Ok keyed.
Proof.
  induction 1 as [|x evs [v Hv] _ [keyed IH]]; [by eexists|].
  simpl. unfold mbind, result_bind, timestamp_key in *. rewrite Hv, IH. by eexists.
Qed.

(** Keys that are finite numbers are the event times. *)
Lemma finite_keys_ok keyed numbered :
  Forall (λ p, Py.dict_get "timestamp" (snd p) = Some (fst p)) keyed →
  finite_keys keyed = Some numbered →
  map snd numbered = map snd keyed ∧ keyed_ok numbered.
Proof.
  intros Hk Hf. apply mapM_Some in Hf.
  induction Hf as [|[v x] [q y] keyed numbered Hq _ IH]; [split; [done|constructor]|].
  apply Forall_cons in Hk as [Hv Hk]. destruct (IH Hk) as [Hm Hok].
  simpl in *. destruct (Py.num_of v) as [q'|] eqn:Hn; [|done].
  injection Hq as -> ->. split; [by rewrite Hm|].
  constructor; [|done]. unfold event_time. simpl. by rewrite Hv.
Qed.

Lemma finite_keys_total keyed :
  Forall (λ p, Py.dict_get "timestamp" (snd p) = Some (fst p)) keyed →
  Forall (λ e, is_Some (event_time e)) (map snd keyed) →
  is_Some (finite_keys keyed).
Proof.
  intros Hk Ht. apply mapM_is_Some.
  induction Hk as [|[v x] keyed Hv _ IH]; [constructor|].
  apply Forall_cons in Ht as [[q Hq] Ht]. constructor; [|by apply IH].
  unfold event_time in Hq. simpl in *. rewrite Hv in Hq. simpl in Hq.
  rewrite Hq. by eexists.
Qed.

Lemma keyed_filter q keyed :
  keyed_ok keyed →
  filter (λ e, event_time e = Some q) (map snd keyed)
  = map snd (filter (λ p : Qc * Py.dict, fst p = q) keyed).
Proof.
  induction 1 as [|[p x] keyed Hp _ IH]; [done|].
  simpl in *. rewrite !filter_cons, IH. simpl.
  destruct (decide (event_time x = Some q)), (decide (p = q)); try done; congruence.
Qed.

Lemma keyed_sorted keyed :
  keyed_ok keyed →
  StronglySorted (λ a b : Qc * Py.dict, (fst a ≤ fst b)%Qc) keyed →
  sorted_by_time (map snd keyed).
Proof.
  intros Hk Hs. induction Hs as [|p keyed Hs IH Hp]; simpl; [constructor|].
  apply Forall_cons in Hk as [Hp1 Hk]. constructor; [by apply IH|].
  apply Forall_map. apply Forall_forall. intros y Hy.
  exists (fst p), (fst y). repeat split; [done| |].
  - by eapply (proj1 (Forall_forall _ _) Hk).
  - by eapply (proj1 (Forall_forall _ _) Hp).
Qed.

(** On events that all carry a finite number the sort returns, and its
    result is the stable sort. *)
Lemma sort_events_ok py evs :
  Forall (λ e, is_Some (event_time e)) evs →
  ∃ r, sort_events py evs = Ok r
       ∧ sorted_by_time r ∧ r ≡ₚ evs ∧ ties_in_order evs r.
Proof.
  intros Ht. unfold sort_events.
  destruct (for_each_keys_total evs) as [keyed Hk].
  { eapply Forall_impl; [exact Ht|]. intros e [q Hq]. unfold event_time in Hq.
    destruct (Py.dict_get "timestamp" e); [by eexists|done]. }
  rewrite Hk. unfold mbind, result_bind.
  destruct (for_each_keys _ _ Hk) as [Hm Hv].
  destruct (finite_keys_total keyed Hv) as [numbered Hn]; [by rewrite Hm|].
  rewrite Hn. destruct (finite_keys_ok _ _ Hv Hn) as [Hm' Hok].
  rewrite Hm in Hm'.
  assert (Hok' : keyed_ok (sort_by fst numbered)).
  { unfold keyed_ok. by rewrite sort_by_perm. }
  eexists. split; [done|]. split; [|split].
  - apply keyed_sorted; [done|]. apply sort_by_sorted.
  - by rewrite sort_by_perm, Hm'.
  - intros q. rewrite keyed_filter by done.
    rewrite sort_by_filter by (simpl; congruence).
    by rewrite <- keyed_filter, Hm'.
Qed.

Lemma sort_events_missing py evs x :
  x ∈ evs → Py.dict_get "timestamp" x = None →
  ∃ e, sort_events py evs = Fail e.
Proof.
  intros Hx Hn. unfold sort_events.
  destruct (for_each_keys_missing evs x Hx Hn) as [e ->]. by eexists.
Qed.

Lemma detect_events_stable py json_loads vision frames :
  Forall (λ e, is_Some (event_time e)) (gather py json_loads vision frames) →
  sorted_by_time (detect_events py json_loads vision frames)
  ∧ detect_events py json_loads vision frames ≡ₚ gather py json_loads vision frames
  ∧ ties_in_order (gather py json_loads vision frames)
      (detect_events py json_loads vision frames).
Proof.
  intros Hall. unfold detect_events.
  by destruct (sort_events_ok py _ Hall) as (r & -> & ?).
Qed.

Lemma detect_events_missing py json_loads vision frames e :
  e ∈ gather py json_loads vision frames → Py.dict_get "timestamp" e = None →
  detect_events py json_loads vision frames = [].
Proof.
  intros He Hn. unfold detect_events.
  by destruct (sort_events_missing py _ e He Hn) as [e' ->].
Qed.

(** *** One batch of frames *)

Lemma for_each_results {A B} (f : A → result B) l r :
  for_each f l = Ok r → Forall (λ y, ∃ x, x ∈ l ∧ f x = Ok y) r.
Proof.
  revert r. induction l as [|x l IH]; intros r; simpl.
  - intros [= <-]. constructor.
  - unfold mbind, result_bind. destruct (f x) as [y|] eqn:Hy; [|done].
    destruct (for_each f l) as [ys|]; [|done]. intros [= <-].
    constructor.
    + exists x. split; [by left|done].
    + eapply Forall_impl; [by apply IH|].
      intros z (x' & Hx' & Hz). exists x'. split; [by right|done].
Qed.

Lemma dict_get_set_ne k k' v d :
  k ≠ k' → Py.dict_get k' (Py.dict_set k v d) = Py.dict_get k' d.
Proof.
  intros Hne. induction d as [|[k0 v0] d IH]; simpl.
  - destruct (String.eqb_spec k k'); [done|done].
  - destruct (String.eqb_spec k0 k) as [->|Hk]; simpl.
    + destruct (String.eqb_spec k k'); [done|done].
    + by rewrite IH.
Qed.

Lemma timestamp_distance_number py a v d :
  timestamp_distance py a v = Ok d → Py.is_number v = true.
Proof. by destruct v. Qed.

Lemma find_closest_frame_number py v frames n :
  _find_closest_frame py v frames = Ok n → Py.is_number v = true.
Proof.
  unfold _find_closest_frame. destruct frames as [|first rest]; [done|].
  unfold mbind, result_bind.
  destruct (timestamp_distance py (frame_timestamp first) v) eqn:Hd; [|done].
  intros _. by eapply timestamp_distance_number.
Qed.

(** The events that reach the sort carry a number under ['timestamp'],
    or nothing. *)
Lemma annotate_timestamps py frames detected evs :
  annotate py frames detected = Ok evs → Forall timestamp_usable evs.
Proof.
  destruct detected as [| | | | | | s | l | kv]; simpl; try done.
  - destruct s; [|done]. intros [= <-]. constructor.
  - intros Hl. eapply Forall_impl; [exact (for_each_results _ _ _ Hl)|].
    intros e (x & _ & Hx). simpl in Hx.
    destruct x as [| | | | | | | |d]; try done.
    unfold mbind, result_bind in Hx.
    destruct (_find_closest_frame py _ frames) as [n|] eqn:Hn; [|done].
    injection Hx as <-. apply find_closest_frame_number in Hn.
    unfold timestamp_usable.
    rewrite dict_get_set_ne by done.
    by destruct (Py.dict_get "timestamp" d).
  - destruct kv; [|done]. intros [= <-]. constructor.
Qed.

Lemma analyze_frame_batch_timestamps py json_loads response frames :
  Forall timestamp_usable (_analyze_frame_batch py json_loads response frames).
Proof.
  unfold _analyze_frame_batch. destruct response as [text|]; [|constructor].
  destruct (extract_events py json_loads frames text) as [evs|e] eqn:He.
  - unfold extract_events in He. case_bool_decide; [|by injection He as <-; constructor].
    destruct (json_loads _); [|done]. by eapply annotate_timestamps.
  - destruct e; try constructor.
    apply Forall_map, Forall_forall. by intros f _.
Qed.

Lemma gather_timestamps py json_loads vision frames :
  Forall timestamp_usable (gather py json_loads vision frames).
Proof.
  unfold gather. apply Forall_concat, Forall_map, Forall_forall.
  intros batch _. apply analyze_frame_batch_timestamps.
Qed.

(** Without an opening bracket in the answer nothing is decoded, and
    nothing is produced either. *)
Lemma analyze_frame_batch_no_array py json_loads text frames :
  Py.find "[" text = -1 →
  _analyze_frame_batch py json_loads (Some text) frames = [].
Proof.
  intros Hf. unfold _analyze_frame_batch, extract_events.
  rewrite bool_decide_false; [done|]. rewrite Hf. by intros [? _].
Qed.

Lemma analyze_frame_batch_fallback py json_loads text frames :
  Py.find "[" text ≠ -1 →
  Py.rfind "]" text + 1 > Py.find "[" text →
  json_loads (Py.str_slice (Py.find "[" text) (Py.rfind "]" text + 1) text) = None →
  _analyze_frame_batch py json_loads (Some text) frames = map scene_event frames.
Proof.
  intros H1 H2 Hj. unfold _analyze_frame_batch, extract_events.
  rewrite bool_decide_true by done. by rewrite Hj.
Qed.

(** C2 as stated fails.  [store_video_analysis] stores the list it is
    given: submitted with timestamps 5 then 1, the events are read back
    in that order, which is not ascending. *)
Lemma store_video_analysis_keeps_submitted_order :
  ∃ w1 w2 a,
    store_video_analysis "s1" [Example.e5; Example.e1] "" []
      (Example.world 10 0 []) = Returns tt w1
    ∧ get_video_analysis "s1" w1 = Returns (Some a) w2
    ∧ events a = [Example.e5; Example.e1]
    ∧ ¬ sorted_by_time (events a).
Proof.
  pose proof (example_world_live 10 0 [] ltac:(lia)) as Hl.
  pose proof (example_world_steady 10 0 [] 7 ltac:(lia)) as Hs.
  eexists _, _, _.
  split; [apply store_video_analysis_live; [exact Hl|by eapply steady_le; [|exact Hs]; lia]|].
  split; [erewrite get_video_analysis_live by solve_live Hs; reflexivity|].
  split; [reflexivity|].
  cbn [events video_analysis analysed]. intros Hsorted.
  apply StronglySorted_inv in Hsorted as [_ Hall].
  apply Forall_cons in Hall as [(p & q & Hp & Hq & Hle) _].
  vm_compute in Hp, Hq. injection Hp as <-. injection Hq as <-.
  vm_compute in Hle. by apply Hle.
Qed.

(** C2, amended.  After [store_video_analysis] on a live session the
    events readable from the session's analysis are the submitted list,
    in the submitted order: the store does not sort.  They are sorted
    ascending by timestamp when the submitted list is the result of
    [detect_events] and every event the batches produced carries a
    finite number as its timestamp: [detect_events] sorts stably, so
    they are then a rearrangement of the produced events that keeps
    equal timestamps in production order.  Nothing is said of a list in
    which a timestamp is [nan], which [json.loads] accepts and
    [list.sort] cannot order, or an infinity. *)
Theorem store_video_analysis_keeps_events w sid s evs summ g :
  live w sid s → steady w 7 →
  ∃ w1 a w2,
    store_video_analysis sid evs summ g w = Returns tt w1
    ∧ get_video_analysis sid w1 = Returns (Some a) w2
    ∧ events a = evs
    ∧ ∀ py json_loads vision frames,
        evs = detect_events py json_loads vision frames →
        Forall (λ e, is_Some (event_time e)) (gather py json_loads vision frames) →
        sorted_by_time (events a)
        ∧ events a ≡ₚ gather py json_loads vision frames
        ∧ ties_in_order (gather py json_loads vision frames) (events a).
Proof.
  intros Hl Hs. eexists _, _, _.
  split; [apply store_video_analysis_live; [exact Hl|by eapply steady_le; [|exact Hs]; lia]|].
  split; [erewrite get_video_analysis_live by solve_live Hs; reflexivity|].
  split; [reflexivity|].
  intros py json_loads vision frames ->. cbn [events video_analysis analysed].
  apply detect_events_stable.
Qed.

(** Witness of C2: the two events [detect_events] returns for one batch
    whose answer lists them out of order. *)
Lemma store_video_analysis_keeps_events_witness :
  let w := Example.world 10 0 [] in
  let json_loads := λ _ : string, Some (Py.VList [Py.VDict Example.e5; Py.VDict Example.e1]) in
  let vision := λ _ : list Frame, Some "[...]" in
  let frames := [Example.frame_a; Example.frame_b] in
  let evs := detect_events Example.runtime json_loads vision frames in
  live w "s1" (Example.session [])
  ∧ steady w 7
  ∧ Forall (λ e, is_Some (event_time e)) (gather Example.runtime json_loads vision frames)
  ∧ ∃ w1 a w2,
      store_video_analysis "s1" evs "" [] w = Returns tt w1
      ∧ get_video_analysis "s1" w1 = Returns (Some a) w2
      ∧ events a = evs
      ∧ sorted_by_time (events a).
Proof.
  intros w json_loads vision frames evs.
  assert (Hl : live w "s1" (Example.session [])).
  { split; [vm_compute; reflexivity|]. vm_compute. discriminate. }
  assert (Hs : steady w 7).
  { intros i j Hi Hij Hj. unfold w, Example.world, Example.clock_from, timedelta_minutes.
    cbn [clock ticks session_timeout] in *. lia. }
  assert (Hall : Forall (λ e, is_Some (event_time e))
                   (gather Example.runtime json_loads vision frames)).
  { assert (gather Example.runtime json_loads vision frames
            = [Example.e5 ++ [("frame_number", Py.VInt 30)];
               Example.e1 ++ [("frame_number", Py.VInt 30)]]) as ->
      by (vm_compute; reflexivity).
    repeat constructor; by eexists. }
  split; [exact Hl|]. split; [exact Hs|]. split; [exact Hall|].
  destruct (store_video_analysis_keeps_events w "s1" _ evs "" [] Hl Hs)
    as (w1 & a & w2 & H1 & H2 & H3 & H4).
  exists w1, a, w2. split; [exact H1|]. split; [exact H2|]. split; [exact H3|].
  exact (proj1 (H4 Example.runtime json_loads vision frames eq_refl Hall)).
Defined.

(** The condition on the timestamps is needed: an answer that lists
    events at 2 s, at [nan] and at 1 s is decoded, every event finds its
    frame ([nan] the first one), and the sort has keys it cannot order.
    With a [list.sort] that leaves them in place the event at 2 s comes
    out before the event at 1 s. *)
Lemma detect_events_nan_timestamp :
  let json_loads := λ _ : string,
    Some (Py.VList [Py.VDict Example.e2; Py.VDict Example.e_nan; Py.VDict Example.e1]) in
  let vision := λ _ : list Frame, Some "[...]" in
  detect_events Example.runtime json_loads vision [Example.frame_a; Example.frame_b]
  = [ Example.e2 ++ [("frame_number", Py.VInt 30)];
      Example.e_nan ++ [("frame_number", Py.VInt 0)];
      Example.e1 ++ [("frame_number", Py.VInt 30)] ].
Proof. vm_compute. reflexivity. Qed.

(** C6 fails on the code.  An answer of the vision model that holds no
    bracket at all cannot be decoded as an event array, yet the batch of
    two frames yields no event: the fallback is tied to [JSONDecodeError]
    alone, and here the decoder is never called. *)
Theorem analyze_frame_batch_drops_plain_answer py json_loads :
  _analyze_frame_batch py json_loads (Some "The frames show a quiet street.")
    [Example.frame_a; Example.frame_b] = [].
Proof. apply analyze_frame_batch_no_array. vm_compute. reflexivity. Qed.

(** The fallback as far as the code has it: an answer with a bracketed
    part that the decoder rejects gives one scene event per frame. *)
Lemma analyze_frame_batch_fallback_events py json_loads text frames :
  Py.find "[" text ≠ -1 →
  Py.rfind "]" text + 1 > Py.find "[" text →
  json_loads (Py.str_slice (Py.find "[" text) (Py.rfind "]" text + 1) text) = None →
  let evs := _analyze_frame_batch py json_loads (Some text) frames in
  length evs = length frames
  ∧ Forall2 (λ e f,
       Py.dict_get "timestamp" e = Some (Py.VFloat (frame_timestamp f))
       ∧ Py.dict_get "frame_number" e = Some (Py.VInt (frame_number f))
       ∧ Py.dict_get "event_type" e = Some (Py.VStr "scene")
       ∧ Py.dict_get "severity" e = Some (Py.VStr "low")
       ∧ Py.dict_get "guideline_violation" e = Some (Py.VBool false)) evs frames.
Proof.
  intros H1 H2 Hj evs. unfold evs.
  rewrite analyze_frame_batch_fallback by done.
  split; [apply length_map|].
  apply Forall2_fmap_l, Forall_Forall2_diag, Forall_forall. by intros f _.
Qed.


(** ** Further properties of the session store *)

Lemma clear_session_run w k :
  ∃ w1,
    clear_session k w = Returns tt w1
    ∧ sessions w1 = delete k (sessions w)
    ∧ dicts w1 = dicts w ∧ ticks w1 = ticks w ∧ clock w1 = clock w
    ∧ session_timeout w1 = session_timeout w ∧ max_history w1 = max_history w
    ∧ next_ref w1 = next_ref w.
Proof.
  destruct (sessions w !! k) as [s|] eqn:Hs.
  - eexists. split; [by apply (clear_session_present w k s)|]. by repeat split.
  - exists w. split; [by apply clear_session_absent|].
    split; [by rewrite delete_id|]. by repeat split.
Qed.

Lemma clear_sessions_run ids w :
  ∃ w1,
    clear_sessions ids w = Returns tt w1
    ∧ (∀ k, sessions w1 !! k = if decide (k ∈ ids) then None else sessions w !! k)
    ∧ dicts w1 = dicts w ∧ ticks w1 = ticks w ∧ clock w1 = clock w
    ∧ session_timeout w1 = session_timeout w ∧ max_history w1 = max_history w
    ∧ next_ref w1 = next_ref w.
Proof.
  revert w. induction ids as [|k0 ids IH]; intros w.
  - exists w. split; [done|]. split; [|by repeat split].
    intros k. case_decide as Hk; [by apply elem_of_nil in Hk|done].
  - destruct (clear_session_run w k0) as (w0 & H0 & Hs0 & Hd0 & Ht0 & Hc0 & Hto0 & Hm0 & Hn0).
    destruct (IH w0) as (w1 & H1 & Hs1 & Hd1 & Ht1 & Hc1 & Hto1 & Hm1 & Hn1).
    exists w1. split.
    { cbn [clear_sessions]. unfold mbind at 1, M_bind at 1. by rewrite H0. }
    split; [|repeat split; congruence].
    intros k. rewrite Hs1, Hs0.
    destruct (decide (k = k0)) as [->|Hne].
    + rewrite lookup_delete_eq.
      destruct (decide (k0 ∈ k0 :: ids)) as [_|Hn]; [by case_decide|].
      exfalso. apply Hn. by left.
    + rewrite lookup_delete_ne by done.
      destruct (decide (k ∈ ids)) as [Hin|Hnin];
        destruct (decide (k ∈ k0 :: ids)) as [Hin'|Hnin']; try done.
      * exfalso. apply Hnin'. by right.
      * exfalso. apply elem_of_cons in Hin' as [?|?]; done.
Qed.

(** What one sweep does to the store: it keeps the sessions within the
    timeout of its one clock reading. *)
Lemma clear_expired_sessions_run w :
  ∃ w1,
    clear_expired_sessions w = Returns tt w1
    ∧ ticks w1 = S (ticks w)
    ∧ dicts w1 = dicts w
    ∧ sessions w1
      = filter (λ kv, within_timeout w (clock w (ticks w)) (snd kv)) (sessions w).
Proof.
  unfold clear_expired_sessions. run_step.
  match goal with |- context [clear_sessions ?ids ?w0] =>
    destruct (clear_sessions_run ids w0) as (w1 & H1 & Hs & Hd & Ht & _)
  end.
  exists w1. split; [exact H1|]. split; [exact Ht|]. split; [exact Hd|].
  apply map_eq. intros k. rewrite Hs, map_lookup_filter. run_step.
  destruct (sessions w !! k) as [s|] eqn:Hk; simpl.
  - case_decide as Hin.
    + apply list_elem_of_fmap in Hin as ([k' s'] & -> & Hin).
      apply list_elem_of_filter in Hin as [Hexp Hin]. simpl in *.
      apply elem_of_map_to_list in Hin. rewrite Hk in Hin. injection Hin as <-.
      rewrite option_guard_False; [done|]. unfold within_timeout. simpl. lia.
    + destruct (decide (within_timeout w (clock w (ticks w)) s)) as [Hw|Hw].
      * by rewrite option_guard_True.
      * exfalso. apply Hin.
        apply list_elem_of_fmap. exists (k, s). split; [done|].
        apply list_elem_of_filter. split; [|by apply elem_of_map_to_list].
        unfold within_timeout in Hw. simpl. lia.
  - by case_decide.
Qed.

(** X1.  The sweep never raises, reads the clock once, and removes
    exactly the sessions whose last activity lies more than the timeout
    before that reading; every other session keeps its record unchanged
    (its [last_activity] is not refreshed), and no dict is touched. *)
Theorem clear_expired_sessions_sweeps w :
  ∃ w1,
    clear_expired_sessions w = Returns tt w1
    ∧ ticks w1 = S (ticks w)
    ∧ dicts w1 = dicts w
    ∧ ∀ k, sessions w1 !! k =
           match sessions w !! k with
           | Some s =>
               if decide (clock w (ticks w) - last_activity s > session_timeout w)
               then None else Some s
           | None => None
           end.
Proof.
  destruct (clear_expired_sessions_run w) as (w1 & H1 & Ht & Hd & Hs).
  exists w1. split; [exact H1|]. split; [exact Ht|]. split; [exact Hd|].
  intros k. rewrite Hs, map_lookup_filter.
  destruct (sessions w !! k) as [s|]; simpl; [|done].
  unfold within_timeout. case_decide.
  - rewrite option_guard_False; [done|]. simpl. lia.
  - rewrite option_guard_True; [done|]. simpl. lia.
Qed.

(** X2.  The count of active sessions is the number of sessions that are
    within the timeout of the one clock reading the call takes; the
    sessions it leaves in the store are exactly those, unchanged. *)
Theorem get_active_sessions_count_counts w :
  ∃ w1,
    get_active_sessions_count w
      = Returns (Z.of_nat (size (sessions w1))) w1
    ∧ sessions w1
      = filter (λ kv, within_timeout w (clock w (ticks w)) (snd kv)) (sessions w).
Proof.
  destruct (clear_expired_sessions_run w) as (w1 & H1 & _ & _ & Hs).
  exists w1. split; [|exact Hs].
  unfold get_active_sessions_count. unfold mbind at 1, M_bind at 1. by rewrite H1.
Qed.


(** X3.  A created session can be read back at once: the next
    [get_session] returns it with the identifier drawn, an empty history,
    no analysis and an empty context dict.  That dict is a new object
    (none was stored at its location before), and every other session is
    as it was. *)
Theorem create_session_readable uuid4 w :
  steady w 3 →
  ∃ w1 s w2,
    create_session uuid4 w = Returns uuid4 w1
    ∧ get_session uuid4 w1 = Returns (Some s) w2
    ∧ id s = uuid4
    ∧ created_at s = clock w (ticks w)
    ∧ conversation_history s = []
    ∧ video_analysis s = None
    ∧ dicts w2 !! context s = Some ∅
    ∧ (heap_fresh w → dicts w !! context s = None ∧ heap_fresh w2)
    ∧ ∀ k, k ≠ uuid4 → sessions w2 !! k = sessions w !! k.
Proof.
  intros Hs. eexists _, _, _. split; [reflexivity|]. split.
  - apply get_session_touch. split.
    + unfold new_dict. run_step. apply lookup_insert_eq.
    + unfold new_dict. run_step. apply Hs; lia.
  - repeat (split; [reflexivity|]). split; [|split].
    + unfold touch, touched, new_dict. run_step. apply lookup_insert_eq.
    + intros Hf. split.
      * unfold touched. run_step. apply Hf. lia.
      * intros r Hr. unfold touch, touched, new_dict in *. run_step.
        cbn [next_ref with_sessions tick] in Hr.
        rewrite lookup_insert_ne by lia. apply Hf. lia.
    + intros k Hne. unfold touch, touched, new_dict. run_step.
      by rewrite !lookup_insert_ne.
Qed.

(** Witness of X3: a second session created in the example world. *)
Lemma create_session_readable_witness :
  let w := Example.world 10 0 [] in
  steady w 3
  ∧ ∃ w1 s w2,
      create_session "s2" w = Returns "s2" w1
      ∧ get_session "s2" w1 = Returns (Some s) w2
      ∧ conversation_history s = []
      ∧ dicts w2 !! context s = Some ∅
      ∧ sessions w2 !! "s1" = Some (Example.session []).
Proof.
  intros w.
  assert (Hs : steady w 3).
  { intros i j Hi Hij Hj. unfold w, Example.world, Example.clock_from, timedelta_minutes.
    cbn [clock ticks session_timeout] in *. lia. }
  split; [exact Hs|].
  destruct (create_session_readable "s2" w Hs)
    as (w1 & s & w2 & H1 & H2 & _ & _ & H5 & _ & H7 & _ & H9).
  exists w1, s, w2. split; [exact H1|]. split; [exact H2|]. split; [exact H5|].
  split; [exact H7|].
  rewrite H9 by discriminate. vm_compute. reflexivity.
Defined.


Lemma steady_later w w1 n k :
  clock w1 = clock w → session_timeout w1 = session_timeout w →
  ticks w1 = (k + ticks w)%nat → steady w (k + n) → steady w1 n.
Proof.
  intros Hc Ht Hk Hs i j Hi Hij Hj. rewrite Hc, Ht. apply Hs; lia.
Qed.

(** X4.  The context is last-write-wins: after two [update_context]
    calls on the same key of a live session, the dict [get_context]
    returns holds the second value under that key and every other entry
    as before. *)
Theorem update_context_last_write_wins w sid s d k v1 v2 :
  live w sid s → steady w 5 → dicts w !! context s = Some d →
  ∃ w1 w2 r w3 d3,
    update_context sid k v1 w = Returns tt w1
    ∧ update_context sid k v2 w1 = Returns tt w2
    ∧ get_context sid w2 = Returns r w3
    ∧ dicts w3 !! r = Some d3
    ∧ d3 !! k = Some v2
    ∧ ∀ k', k' ≠ k → d3 !! k' = d !! k'.
Proof.
  intros Hl Hs Hd. eexists _, _, _, _, (<[k := v2]> d).
  split; [by apply update_context_live|].
  split; [apply update_context_live; solve_live Hs|].
  split; [apply get_context_live; solve_live Hs|].
  split; [|split].
  - unfold touch, touched. run_step.
    rewrite !lookup_alter_eq, Hd. cbn [fmap option_fmap option_map].
    by rewrite insert_insert_eq.
  - apply lookup_insert_eq.
  - intros k' Hne. by apply lookup_insert_ne.
Qed.

(** Witness of X4: the topics of the example session written twice. *)
Lemma update_context_last_write_wins_witness :
  let w := Example.world 10 0 [] in
  live w "s1" (Example.session [])
  ∧ steady w 5
  ∧ dicts w !! context (Example.session []) = Some ∅
  ∧ ∃ w1 w2 r w3 d3,
      update_context "s1" "current_topics" (Py.VList []) w = Returns tt w1
      ∧ update_context "s1" "current_topics" Example.topics w1 = Returns tt w2
      ∧ get_context "s1" w2 = Returns r w3
      ∧ dicts w3 !! r = Some d3
      ∧ d3 !! "current_topics" = Some Example.topics.
Proof.
  intros w.
  assert (Hl : live w "s1" (Example.session [])).
  { split; [vm_compute; reflexivity|]. vm_compute. discriminate. }
  assert (Hs : steady w 5).
  { intros i j Hi Hij Hj. unfold w, Example.world, Example.clock_from, timedelta_minutes.
    cbn [clock ticks session_timeout] in *. lia. }
  assert (Hd : dicts w !! context (Example.session []) = Some ∅).
  { vm_compute. reflexivity. }
  split; [exact Hl|]. split; [exact Hs|]. split; [exact Hd|].
  destruct (update_context_last_write_wins w "s1" _ _ "current_topics"
              (Py.VList []) Example.topics Hl Hs Hd)
    as (w1 & w2 & r & w3 & d3 & H1 & H2 & H3 & H4 & H5 & _).
  by exists w1, w2, r, w3, d3.
Defined.

Lemma filter_not_filter {A} (P : A → Prop) `{∀ x, Decision (P x)} (l : list A) :
  filter (λ x, ¬ P x) (filter P l) = [].
Proof.
  induction l as [|x l IH]; [done|].
  rewrite (filter_cons P). destruct (decide (P x)) as [Hp|Hp]; [|done].
  rewrite filter_cons. by rewrite decide_False by tauto.
Qed.

Lemma trim_non_system_bound mh h :
  1 ≤ mh →
  Z.of_nat (length (filter (λ m, ¬ is_system m) (trim mh h))) ≤ 2 * mh.
Proof.
  intros Hmh. destruct (decide (Z.of_nat (length h) > mh * 2)) as [Hgt|Hle].
  - rewrite trim_above by done. rewrite filter_app, filter_not_filter. simpl.
    etrans; [apply inj_le, length_filter|].
    etrans; [apply inj_le, length_filter|].
    rewrite length_drop. lia.
  - rewrite trim_below by lia.
    etrans; [apply inj_le, length_filter|]. lia.
Qed.

Lemma trim_length_bound mh h :
  1 ≤ mh →
  Z.of_nat (length (trim mh h))
  ≤ Z.of_nat (length (filter is_system h)) + 2 * mh.
Proof.
  intros Hmh. destruct (decide (Z.of_nat (length h) > mh * 2)) as [Hgt|Hle].
  - rewrite trim_above by done. rewrite length_app.
    pose proof (length_filter (λ m, ¬ is_system m)
                  (drop (length h - Z.to_nat (2 * mh)) h)) as Hf.
    rewrite length_drop in Hf. lia.
  - rewrite trim_below by lia. lia.
Qed.

(** X5.  With [max_history >= 1], after every append to a live session
    the history holds at most [2 * max_history] messages that are not
    system messages, and at most that many more messages than the system
    messages of the history it was built from. *)
Theorem add_message_bounds_history w sid s r c md :
  live w sid s → 1 ≤ max_history w →
  let full :=
    conversation_history s ++ [mkMessage r c (clock w (2 + ticks w)%nat) (default ∅ md)] in
  ∃ w1 s1,
    add_message sid r c md w = Returns tt w1
    ∧ sessions w1 !! sid = Some s1
    ∧ Z.of_nat (length (filter (λ m, ¬ is_system m) (conversation_history s1)))
      ≤ 2 * max_history w
    ∧ Z.of_nat (length (conversation_history s1))
      ≤ Z.of_nat (length (filter is_system full)) + 2 * max_history w.
Proof.
  intros Hl Hmh full. eexists _, _.
  split; [by apply add_message_live|].
  split; [run_step; apply lookup_insert_eq|].
  run_step. split; [by apply trim_non_system_bound|by apply trim_length_bound].
Qed.


(** Witness of X5: a user message appended to a full history of a
    manager with [max_history = 1]. *)
Lemma add_message_bounds_history_witness :
  let w := Example.world 1 0 [Example.u1; Example.u2] in
  live w "s1" (Example.session [Example.u1; Example.u2])
  ∧ 1 ≤ max_history w
  ∧ ∃ w1 s1,
      add_message "s1" "user" "third question" None w = Returns tt w1
      ∧ sessions w1 !! "s1" = Some s1
      ∧ Z.of_nat (length (conversation_history s1)) ≤ 2.
Proof.
  intros w.
  assert (Hl : live w "s1" (Example.session [Example.u1; Example.u2])).
  { split; [vm_compute; reflexivity|]. vm_compute. discriminate. }
  assert (Hmh : 1 ≤ max_history w) by (vm_compute; discriminate).
  split; [exact Hl|]. split; [exact Hmh|].
  destruct (add_message_bounds_history w "s1" _ "user" "third question" None Hl Hmh)
    as (w1 & s1 & H1 & H2 & _ & H4).
  exists w1, s1. split; [exact H1|]. split; [exact H2|].
  etrans; [exact H4|]. vm_compute. discriminate.
Defined.

Lemma last_in_slice_from {A} (k : Z) (h : list A) (x : A) :
  0 ≤ k → x ∈ Py.slice_from (- k) (h ++ [x]).
Proof.
  intros Hk. unfold Py.slice_from. rewrite length_app. simpl.
  set (i := Z.to_nat _).
  assert (Hi : (i ≤ length h)%nat).
  { unfold i. case_bool_decide; lia. }
  rewrite drop_app_le by done. apply elem_of_app. right. by left.
Qed.

Lemma trim_keeps_last mh h m : 0 ≤ mh → m ∈ trim mh (h ++ [m]).
Proof.
  intros Hmh. unfold trim. case_bool_decide; [|apply elem_of_app; right; by left].
  rewrite recent_not_system. apply elem_of_app.
  destruct (decide (is_system m)) as [Hs|Hs].
  - left. apply list_elem_of_filter. split; [done|].
    apply elem_of_app. right. by left.
  - right. apply list_elem_of_filter. split; [done|].
    apply last_in_slice_from. lia.
Qed.

(** X6.  With [max_history >= 0], an append to a live session never
    loses the message it appends, and never loses a system message: the
    new message and every system message of the previous history are in
    the history afterwards. *)
Theorem add_message_retains w sid s r c md :
  live w sid s → 0 ≤ max_history w →
  ∃ w1 s1,
    add_message sid r c md w = Returns tt w1
    ∧ sessions w1 !! sid = Some s1
    ∧ mkMessage r c (clock w (2 + ticks w)%nat) (default ∅ md)
      ∈ conversation_history s1
    ∧ ∀ m, m ∈ conversation_history s → is_system m → m ∈ conversation_history s1.
Proof.
  intros Hl Hmh. eexists _, _.
  split; [by apply add_message_live|].
  split; [run_step; apply lookup_insert_eq|].
  run_step. split; [by apply trim_keeps_last|].
  intros m Hm Hsys. apply trim_keeps_system; [done|].
  apply elem_of_app. by left.
Qed.

(** Witness of X6: a user message appended where the append trims. *)
Lemma add_message_retains_witness :
  let w := Example.world 1 0 [Example.u1; Example.u2] in
  live w "s1" (Example.session [Example.u1; Example.u2])
  ∧ 0 ≤ max_history w
  ∧ ∃ w1 s1,
      add_message "s1" "user" "third question" None w = Returns tt w1
      ∧ sessions w1 !! "s1" = Some s1
      ∧ mkMessage "user" "third question" 2000 ∅ ∈ conversation_history s1.
Proof.
  intros w.
  assert (Hl : live w "s1" (Example.session [Example.u1; Example.u2])).
  { split; [vm_compute; reflexivity|]. vm_compute. discriminate. }
  assert (Hmh : 0 ≤ max_history w) by (vm_compute; discriminate).
  split; [exact Hl|]. split; [exact Hmh|].
  destruct (add_message_retains w "s1" _ "user" "third question" None Hl Hmh)
    as (w1 & s1 & H1 & H2 & H3 & _).
  by exists w1, s1.
Defined.

(** X7.  A session holds one analysis: a second [store_video_analysis]
    replaces the first, and [get_video_analysis] then returns the events,
    summary and guideline report of the second. *)
Theorem store_video_analysis_overwrites w sid s evs1 summ1 g1 evs2 summ2 g2 :
  live w sid s → steady w 13 →
  ∃ w1 w2 a w3,
    store_video_analysis sid evs1 summ1 g1 w = Returns tt w1
    ∧ store_video_analysis sid evs2 summ2 g2 w1 = Returns tt w2
    ∧ get_video_analysis sid w2 = Returns (Some a) w3
    ∧ events a = evs2 ∧ summary a = summ2 ∧ guidelines a = g2.
Proof.
  intros Hl Hs. eexists _, _, _, _.
  split; [apply store_video_analysis_live; [exact Hl|by eapply steady_le; [|exact Hs]; lia]|].
  split.
  { apply store_video_analysis_live; [solve_live Hs|].
    apply (steady_later w _ 4 6); try reflexivity.
    by eapply steady_le; [|exact Hs]; lia. }
  split.
  { erewrite get_video_analysis_live; cycle 1.
    - split; [run_step; apply lookup_insert_eq|].
      unfold analysed. run_step. apply Hs; lia.
    - reflexivity. }
  done.
Qed.

(** Witness of X7: two analyses attached to the example session. *)
Lemma store_video_analysis_overwrites_witness :
  let w := Example.world 10 0 [] in
  live w "s1" (Example.session [])
  ∧ steady w 13
  ∧ ∃ w1 w2 a w3,
      store_video_analysis "s1" [Example.e1] "first" [] w = Returns tt w1
      ∧ store_video_analysis "s1" [Example.e5] "second" [] w1 = Returns tt w2
      ∧ get_video_analysis "s1" w2 = Returns (Some a) w3
      ∧ events a = [Example.e5] ∧ summary a = "second".
Proof.
  intros w.
  assert (Hl : live w "s1" (Example.session [])).
  { split; [vm_compute; reflexivity|]. vm_compute. discriminate. }
  assert (Hs : steady w 13).
  { intros i j Hi Hij Hj. unfold w, Example.world, Example.clock_from, timedelta_minutes.
    cbn [clock ticks session_timeout] in *. lia. }
  split; [exact Hl|]. split; [exact Hs|].
  destruct (store_video_analysis_overwrites w "s1" _ [Example.e1] "first" []
              [Example.e5] "second" [] Hl Hs)
    as (w1 & w2 & a & w3 & H1 & H2 & H3 & H4 & H5 & _).
  by exists w1, w2, a, w3.
Defined.

Lemma add_message_expired w sid s r c md :
  expired w sid s →
  add_message sid r c md w =
    Returns tt (with_sessions (delete sid (sessions w)) (tick w)).
Proof. intros H. unfold add_message. by bind_with (get_session_expired w sid s). Qed.

Lemma update_context_expired w sid s k v :
  expired w sid s →
  update_context sid k v w =
    Returns tt (with_sessions (delete sid (sessions w)) (tick w)).
Proof. intros H. unfold update_context. by bind_with (get_session_expired w sid s). Qed.

(** X8.  Writes to an expired session are dropped without an error: both
    [add_message] and [update_context] return normally, the session is
    gone from the store afterwards, every other session is as before and
    no dict has changed. *)
Theorem writes_to_expired_session_are_dropped w sid s r c md k v :
  expired w sid s →
  (∃ w1, add_message sid r c md w = Returns tt w1
         ∧ sessions w1 !! sid = None
         ∧ (∀ sid', sid' ≠ sid → sessions w1 !! sid' = sessions w !! sid')
         ∧ dicts w1 = dicts w)
  ∧ (∃ w1, update_context sid k v w = Returns tt w1
           ∧ sessions w1 !! sid = None
           ∧ (∀ sid', sid' ≠ sid → sessions w1 !! sid' = sessions w !! sid')
           ∧ dicts w1 = dicts w).
Proof.
  intros Hexp. split; eexists.
  - split; [by apply (add_message_expired w sid s)|].
    split; [run_step; apply lookup_delete_eq|]. split; [|done].
    intros sid' Hne. run_step. by apply lookup_delete_ne.
  - split; [by apply (update_context_expired w sid s)|].
    split; [run_step; apply lookup_delete_eq|]. split; [|done].
    intros sid' Hne. run_step. by apply lookup_delete_ne.
Qed.

(** Witness of X8: a message for a session idle for longer than the
    timeout. *)
Lemma writes_to_expired_session_are_dropped_witness :
  let w := Example.world 10 2000000000 [Example.u1] in
  expired w "s1" (Example.session [Example.u1])
  ∧ ∃ w1, add_message "s1" "user" "late question" None w = Returns tt w1
          ∧ sessions w1 !! "s1" = None.
Proof.
  intros w.
  assert (He : expired w "s1" (Example.session [Example.u1])).
  { split; vm_compute; reflexivity. }
  split; [exact He|].
  destruct (writes_to_expired_session_are_dropped w "s1" _ "user" "late question" None
              "k" Py.VNone He) as ((w1 & H1 & H2 & _) & _).
  by exists w1.
Defined.


(** ** Further properties of the chat turn *)

Lemma get_video_analysis_absent w sid :
  sessions w !! sid = None → get_video_analysis sid w = Returns None w.
Proof. intros H. unfold get_video_analysis. by bind_with get_session_absent. Qed.

Lemma update_context_absent w sid k v :
  sessions w !! sid = None → update_context sid k v w = Returns tt w.
Proof. intros H. unfold update_context. by bind_with get_session_absent. Qed.

Lemma build_messages_ok sp da history va ctx message w :
  (∀ a, va = Some a → is_Some (da a)) →
  _build_messages sp da history va ctx message w =
    Returns
      (("system", match va with
                  | Some a => sp +:+ default "" (da a)
                  | None => sp
                  end)
         :: map (λ msg, (role msg, content msg))
              (filter (λ msg, role msg = "user" ∨ role msg = "assistant")
                 (Py.slice_to (-1) history))
         ++ [("user", message)]) w.
Proof.
  intros Hda. unfold _build_messages. run_step.
  destruct va as [a|]; [|done].
  destruct (Hda a eq_refl) as [text Ht]. by rewrite Ht.
Qed.

Lemma build_then_reply sp da history va ctx message text (k : string → M string) w :
  (∀ a, va = Some a → is_Some (da a)) →
  (messages ← _build_messages sp da history va ctx message;
   response ← _generate_response (Some text) messages;
   k response) w = k text w.
Proof.
  intros Hda. unfold mbind at 1, M_bind at 1.
  by rewrite build_messages_ok by done.
Qed.

(** The topic update reads the session and writes to its context dict
    only: history, analysis and context reference stay. *)
Lemma update_topics_keeps_session w sid s message response :
  live w sid s →
  ∃ w1 s1,
    _update_context_from_conversation sid message response w = Returns tt w1
    ∧ sessions w1 !! sid = Some s1
    ∧ conversation_history s1 = conversation_history s
    ∧ video_analysis s1 = video_analysis s
    ∧ context s1 = context s
    ∧ ∀ sid', sid' ≠ sid → sessions w1 !! sid' = sessions w !! sid'.
Proof.
  intros Hl. unfold _update_context_from_conversation.
  destruct (map fst _) as [|topic topics].
  - exists w, s. destruct Hl as [Hl _]. by repeat split.
  - eexists _, _. split; [by apply update_context_live|].
    split; [unfold touch; run_step; apply lookup_insert_eq|].
    repeat (split; [reflexivity|]).
    intros sid' Hne. unfold touch. run_step. by apply lookup_insert_ne.
Qed.

Lemma process_message_reply_live sp da w sid s message text :
  live w sid s → steady w 13 →
  (∀ a, video_analysis s = Some a → is_Some (da a)) →
  ∃ w1 s1,
    process_message sp da (Some text) sid message w = Returns text w1
    ∧ sessions w1 !! sid = Some s1
    ∧ conversation_history s1
      = trim (max_history w)
          (trim (max_history w)
             (conversation_history s
                ++ [mkMessage "user" message (clock w (2 + ticks w)%nat) ∅])
             ++ [mkMessage "assistant" text (clock w (11 + ticks w)%nat) ∅])
    ∧ video_analysis s1 = video_analysis s
    ∧ context s1 = context s
    ∧ ∀ sid', sid' ≠ sid → sessions w1 !! sid' = sessions w !! sid'.
Proof.
  intros Hl Hs Hda. unfold process_message, try_except.
  step_live add_message_live Hs.
  step_live get_conversation_history_live Hs.
  step_live get_video_analysis_live Hs.
  step_live get_context_live Hs.
  rewrite build_then_reply by exact Hda.
  step_live add_message_live Hs.
  unfold mbind at 1, M_bind at 1.
  match goal with |- context [_update_context_from_conversation _ _ _ ?w0] =>
    edestruct (update_topics_keeps_session w0 sid) as (w1 & s1 & H1 & H2 & H3 & H4 & H5 & H6);
      [solve_live Hs|]
  end.
  rewrite H1. cbv beta iota.
  exists w1, s1. split; [reflexivity|]. split; [exact H2|].
  split; [rewrite H3; unfold touched; run_step; reflexivity|].
  split; [by rewrite H4|]. split; [by rewrite H5|].
  intros sid' Hne. rewrite H6 by done. unfold touch. run_step.
  by rewrite !lookup_insert_ne.
Qed.

(** X9.  A chat turn on a live session whose model call succeeds returns
    the model's text and appends two messages in order, the user message
    and then the assistant message, each through [add_message]; when the
    history has room for both they are its last two entries.  The
    analysis and the context reference are untouched, and so is every
    other session. *)
Theorem process_message_appends_turn sp da w sid s message text :
  live w sid s → steady w 13 →
  (∀ a, video_analysis s = Some a → is_Some (da a)) →
  let u := mkMessage "user" message (clock w (2 + ticks w)%nat) ∅ in
  let a := mkMessage "assistant" text (clock w (11 + ticks w)%nat) ∅ in
  ∃ w1 s1,
    process_message sp da (Some text) sid message w = Returns text w1
    ∧ sessions w1 !! sid = Some s1
    ∧ conversation_history s1
      = trim (max_history w) (trim (max_history w) (conversation_history s ++ [u]) ++ [a])
    ∧ (Z.of_nat (length (conversation_history s)) + 2 ≤ 2 * max_history w →
       conversation_history s1 = conversation_history s ++ [u; a])
    ∧ video_analysis s1 = video_analysis s
    ∧ context s1 = context s
    ∧ ∀ sid', sid' ≠ sid → sessions w1 !! sid' = sessions w !! sid'.
Proof.
  intros Hl Hs Hda u a.
  destruct (process_message_reply_live sp da w sid s message text Hl Hs Hda)
    as (w1 & s1 & H1 & H2 & H3 & H4 & H5 & H6).
  exists w1, s1. repeat (split; [done|]). split; [|done].
  intros Hroom. rewrite H3. fold u. fold a.
  rewrite (trim_below _ (_ ++ [u])) by (rewrite length_app; simpl; lia).
  rewrite trim_below by (rewrite !length_app; simpl; lia).
  by rewrite <- app_assoc.
Qed.


(** Witness of X9: the first turn of the example session. *)
Lemma process_message_appends_turn_witness :
  let w := Example.world 10 0 [] in
  live w "s1" (Example.session [])
  ∧ steady w 13
  ∧ (∀ a, video_analysis (Example.session []) = Some a
          → is_Some ((λ _ : VideoAnalysis, Some "") a))
  ∧ ∃ w1 s1,
      process_message "You are an assistant." (λ _, Some "")
        (Some "At 5.2 seconds.") "s1" "When did the car stop?" w
        = Returns "At 5.2 seconds." w1
      ∧ sessions w1 !! "s1" = Some s1
      ∧ conversation_history s1
        = [mkMessage "user" "When did the car stop?" 2000 ∅;
           mkMessage "assistant" "At 5.2 seconds." 11000 ∅].
Proof.
  intros w.
  assert (Hl : live w "s1" (Example.session [])).
  { split; [vm_compute; reflexivity|]. vm_compute. discriminate. }
  assert (Hs : steady w 13).
  { intros i j Hi Hij Hj. unfold w, Example.world, Example.clock_from, timedelta_minutes.
    cbn [clock ticks session_timeout] in *. lia. }
  assert (Hda : ∀ a, video_analysis (Example.session []) = Some a
                     → is_Some ((λ _ : VideoAnalysis, Some "") a)).
  { intros a _. by eexists. }
  split; [exact Hl|]. split; [exact Hs|]. split; [exact Hda|].
  destruct (process_message_appends_turn "You are an assistant." (λ _, Some "")
              w "s1" _ "When did the car stop?" "At 5.2 seconds." Hl Hs Hda)
    as (w1 & s1 & H1 & H2 & _ & H4 & _).
  exists w1, s1. split; [exact H1|]. split; [exact H2|].
  rewrite H4 by (vm_compute; discriminate). vm_compute. reflexivity.
Defined.

Lemma slice_to_all_but_last {A} (l : list A) :
  Py.slice_to (-1) l = take (length l - 1) l.
Proof.
  unfold Py.slice_to. rewrite bool_decide_true by lia. f_equal. lia.
Qed.

(** X10.  The prompt [_build_messages] builds starts with one system
    entry and ends with the current user message; between them it
    forwards only history entries with role [user] or [assistant] (the
    system notices of the history are never sent), never the last
    history entry, and so at most one entry fewer than the history has. *)
Theorem build_messages_shape sp da history va ctx message w :
  (∀ a, va = Some a → is_Some (da a)) →
  ∃ system_content past,
    _build_messages sp da history va ctx message w
      = Returns (("system", system_content) :: past ++ [("user", message)]) w
    ∧ Forall (λ m, fst m = "user" ∨ fst m = "assistant") past
    ∧ past = map (λ msg, (role msg, content msg))
               (filter (λ msg, role msg = "user" ∨ role msg = "assistant")
                  (take (length history - 1) history))
    ∧ (length past ≤ length history - 1)%nat
    ∧ (va = None → system_content = sp).
Proof.
  intros Hda. eexists _, _. split; [by apply build_messages_ok|].
  rewrite slice_to_all_but_last. split; [|split; [|split]].
  - apply Forall_map, Forall_forall. intros m Hm.
    by apply list_elem_of_filter in Hm as [Hm _].
  - reflexivity.
  - rewrite length_map. etrans; [apply length_filter|].
    rewrite length_take. lia.
  - by intros ->.
Qed.

(** Witness of X10: a history with a system notice between two user
    messages. *)
Lemma build_messages_shape_witness :
  let n := mkMessage "system" "Video analyzed." 15 ∅ in
  ∃ w1,
    _build_messages "You are an assistant." (λ _, Some "")
      [Example.u1; n; Example.u2] None 0%nat "second question"
      (Example.world 10 0 [])
    = Returns [("system", "You are an assistant."); ("user", "first question");
               ("user", "second question")] w1.
Proof.
  intros n.
  destruct (build_messages_shape "You are an assistant." (λ _, Some "")
              [Example.u1; n; Example.u2] None 0%nat "second question"
              (Example.world 10 0 [])) as (sc & past & H1 & _ & H3 & _ & H5).
  { intros a Ha. discriminate. }
  rewrite H1, H3, (H5 eq_refl). eexists. vm_compute. reflexivity.
Defined.

Lemma process_message_absent sp da reply sid message w :
  sessions w !! sid = None →
  ∃ w1,
    process_message sp da reply sid message w
      = Returns (match reply with Some text => text | None => apology end) w1
    ∧ sessions w1 = sessions w.
Proof.
  intros Hn. unfold process_message, try_except.
  bind_with add_message_absent.
  bind_with get_conversation_history_absent.
  bind_with get_video_analysis_absent.
  unfold mbind at 1, M_bind at 1.
  destruct (get_context_absent w sid Hn) as (w0 & H0 & _ & Hs0).
  rewrite H0. cbv beta iota.
  assert (Hn0 : sessions w0 !! sid = None) by (by rewrite Hs0).
  destruct reply as [text|].
  - rewrite build_then_reply by discriminate.
    bind_with add_message_absent.
    unfold _update_context_from_conversation.
    destruct (map fst _); run_step; [by eexists|].
    rewrite update_context_absent by done. by eexists.
  - rewrite build_then_fail. by eexists.
Qed.



(** ** Further properties of event detection *)

Lemma distance_lt_irrefl d : distance_lt d d = false.
Proof.
  destruct d as [q| |]; simpl; [|done|done].
  apply bool_decide_eq_false. apply Qcle_not_lt. apply Qcle_refl.
Qed.

Lemma distance_lt_trans a b c :
  distance_lt a b = true → distance_lt b c = true → distance_lt a c = true.
Proof.
  destruct a as [p| |], b as [q| |], c as [r| |]; simpl; try done.
  rewrite !bool_decide_eq_true. apply Qclt_trans.
Qed.

(** The loop ends on a frame that no frame it has seen beats. *)
Lemma closest_result py timestamp rest c m n :
  closest py timestamp rest c m = Ok n →
  (n = c
   ∧ Forall (λ g, ∃ d, timestamp_distance py (frame_timestamp g) timestamp = Ok d
                       ∧ distance_lt d m = false) rest)
  ∨ (∃ f d, f ∈ rest ∧ n = frame_number f
       ∧ timestamp_distance py (frame_timestamp f) timestamp = Ok d
       ∧ distance_lt d m = true
       ∧ Forall (λ g, ∃ d', timestamp_distance py (frame_timestamp g) timestamp = Ok d'
                            ∧ distance_lt d' d = false) rest).
Proof.
  revert c m. induction rest as [|g rest IH]; intros c m; cbn [closest].
  - intros [= <-]. left. split; [done|constructor].
  - unfold mbind, result_bind.
    destruct (timestamp_distance py (frame_timestamp g) timestamp) as [dg|] eqn:Hg;
      [|done].
    destruct (distance_lt dg m) eqn:Hlt; intros Hn.
    + right. destruct (IH _ _ Hn) as [[-> Hall]|(f & d & Hf & -> & Hd & Hdg & Hall)].
      * exists g, dg. split; [by left|]. do 3 (split; [done|]).
        constructor; [|done]. exists dg. split; [done|apply distance_lt_irrefl].
      * exists f, d. split; [by right|]. do 2 (split; [done|]).
        split; [by eapply distance_lt_trans|].
        constructor; [|done]. exists dg. split; [done|].
        destruct (distance_lt dg d) eqn:Hgd; [|done].
        pose proof (distance_lt_trans _ _ _ Hdg Hgd) as Hdd.
        by rewrite distance_lt_irrefl in Hdd.
    + destruct (IH _ _ Hn) as [[-> Hall]|(f & d & Hf & -> & Hd & Hdm & Hall)].
      * left. split; [done|]. constructor; [|done]. by exists dg.
      * right. exists f, d. split; [by right|]. do 3 (split; [done|]).
        constructor; [|done]. exists dg. split; [done|].
        destruct (distance_lt dg d) eqn:Hgd; [|done].
        pose proof (distance_lt_trans _ _ _ Hgd Hdm) as Hgm. congruence.
Qed.

Lemma find_closest_frame_result py timestamp frames n :
  _find_closest_frame py timestamp frames = Ok n →
  ∃ f d, f ∈ frames ∧ n = frame_number f
    ∧ timestamp_distance py (frame_timestamp f) timestamp = Ok d
    ∧ Forall (λ g, ∃ d', timestamp_distance py (frame_timestamp g) timestamp = Ok d'
                         ∧ distance_lt d' d = false) frames.
Proof.
  unfold _find_closest_frame. destruct frames as [|first rest]; [done|].
  unfold mbind, result_bind.
  destruct (timestamp_distance py (frame_timestamp first) timestamp) as [m|] eqn:Hm;
    [|done].
  intros Hn. destruct (closest_result _ _ _ _ _ _ Hn)
    as [[-> Hall]|(f & d & Hf & -> & Hd & Hdm & Hall)].
  - exists first, m. split; [by left|]. do 2 (split; [done|]).
    constructor; [|done]. exists m. split; [done|apply distance_lt_irrefl].
  - exists f, d. split; [by right|]. do 2 (split; [done|]).
    constructor; [|done]. exists m. split; [done|].
    destruct (distance_lt m d) eqn:Hmd; [|done].
    pose proof (distance_lt_trans _ _ _ Hdm Hmd) as Hdd.
    by rewrite distance_lt_irrefl in Hdd.
Qed.

Lemma find_closest_frame_in_batch py v frames n :
  _find_closest_frame py v frames = Ok n → n ∈ map frame_number frames.
Proof.
  intros Hn. destruct (find_closest_frame_result _ _ _ _ Hn) as (f & _ & Hf & -> & _).
  apply list_elem_of_fmap. by exists f.
Qed.

(** The loop raises only where a subtraction does. *)
Lemma closest_total py timestamp rest c m :
  Forall (λ g, ∃ d, timestamp_distance py (frame_timestamp g) timestamp = Ok d) rest →
  ∃ n, closest py timestamp rest c m = Ok n.
Proof.
  intros Hall. revert c m. induction Hall as [|g rest [d Hd] _ IH]; intros c m.
  - by eexists.
  - cbn [closest]. unfold mbind, result_bind. rewrite Hd.
    destruct (distance_lt d m); apply IH.
Qed.

Lemma closest_fails py timestamp rest c m :
  Exists (λ g, ∃ e, timestamp_distance py (frame_timestamp g) timestamp = Fail e) rest →
  ∃ e, closest py timestamp rest c m = Fail e.
Proof.
  intros Hex. revert c m. induction Hex as [g rest [e He]|g rest _ IH]; intros c m.
  - cbn [closest]. unfold mbind, result_bind. rewrite He. by eexists.
  - cbn [closest]. unfold mbind, result_bind.
    destruct (timestamp_distance py (frame_timestamp g) timestamp) as [d|e];
      [|by eexists].
    destruct (distance_lt d m); apply IH.
Qed.

Lemma find_closest_frame_total py timestamp frames :
  frames ≠ [] →
  Forall (λ g, ∃ d, timestamp_distance py (frame_timestamp g) timestamp = Ok d) frames →
  ∃ n, _find_closest_frame py timestamp frames = Ok n.
Proof.
  intros Hne Hall. destruct frames as [|first rest]; [done|].
  apply Forall_cons in Hall as [[m Hm] Hall].
  unfold _find_closest_frame, mbind, result_bind. rewrite Hm.
  by apply closest_total.
Qed.

Lemma find_closest_frame_fails py timestamp frames :
  Exists (λ g, ∃ e, timestamp_distance py (frame_timestamp g) timestamp = Fail e) frames →
  ∃ e, _find_closest_frame py timestamp frames = Fail e.
Proof.
  intros Hex. destruct frames as [|first rest]; [by apply Exists_nil in Hex|].
  unfold _find_closest_frame, mbind, result_bind.
  destruct (timestamp_distance py (frame_timestamp first) timestamp) as [m|e] eqn:Hm;
    [|by eexists].
  apply Exists_cons in Hex as [[e He]|Hex]; [congruence|].
  by apply closest_fails.
Qed.

(** A distance that is [nan] or [inf] for every frame leaves the first
    frame in place. *)
Lemma closest_level py timestamp rest c m :
  (m = Infinity ∨ m = NaN) →
  Forall (λ g, timestamp_distance py (frame_timestamp g) timestamp = Ok m) rest →
  closest py timestamp rest c m = Ok c.
Proof.
  intros Hm Hall. induction Hall as [|g rest Hg _ IH]; [done|].
  cbn [closest]. unfold mbind, result_bind. rewrite Hg.
  by destruct Hm as [->| ->].
Qed.

(** A number short of the long integers always has a distance. *)
Lemma timestamp_distance_total py a timestamp :
  Py.is_number timestamp = true →
  (∀ z, timestamp = Py.VInt z → Z.abs z ≤ 2 ^ 53) →
  ∃ d, timestamp_distance py a timestamp = Ok d.
Proof.
  intros Hn Hz. destruct timestamp as [|b|z|q|neg| | | |]; try done;
    try (by eexists).
  simpl. rewrite decide_True by (by apply Hz). by eexists.
Qed.

(** X12.  [_find_closest_frame] raises [IndexError] on an empty batch and
    [TypeError] on a timestamp that is not a number.  For [nan] and for
    an infinity every frame is equally far and the first frame is
    returned.  Whenever [abs(frame['timestamp'] - timestamp)] can be
    computed for every frame, as it can for a [bool], a [float] and an
    [int] up to [2 ** 53], the function returns the number of a frame of
    the batch that no frame beats: none has a strictly smaller distance.
    The distances are the floats the interpreter computes, so frames
    whose distances round to the same float are equally far. *)
Theorem find_closest_frame_is_closest py timestamp frames :
  (frames = [] → _find_closest_frame py timestamp frames = Fail IndexError)
  ∧ (frames ≠ [] → Py.is_number timestamp = false →
     _find_closest_frame py timestamp frames = Fail TypeError)
  ∧ (∀ first rest, frames = first :: rest →
     timestamp = Py.VNaN ∨ (∃ negative, timestamp = Py.VInf negative) →
     _find_closest_frame py timestamp frames = Ok (frame_number first))
  ∧ (Py.is_number timestamp = true →
     (∀ z, timestamp = Py.VInt z → Z.abs z ≤ 2 ^ 53) →
     Forall (λ g, ∃ d, timestamp_distance py (frame_timestamp g) timestamp = Ok d) frames)
  ∧ (frames ≠ [] →
     Forall (λ g, ∃ d, timestamp_distance py (frame_timestamp g) timestamp = Ok d) frames →
     ∃ f d,
       f ∈ frames
       ∧ _find_closest_frame py timestamp frames = Ok (frame_number f)
       ∧ timestamp_distance py (frame_timestamp f) timestamp = Ok d
       ∧ ∀ g d', g ∈ frames →
           timestamp_distance py (frame_timestamp g) timestamp = Ok d' →
           distance_lt d' d = false).
Proof.
  split; [by intros ->|]. split; [|split; [|split]].
  - intros Hne Hn. destruct frames as [|first rest]; [done|].
    unfold _find_closest_frame, mbind, result_bind.
    by destruct timestamp.
  - intros first rest -> Ht.
    unfold _find_closest_frame, mbind, result_bind.
    destruct Ht as [->|[negative ->]]; cbn [timestamp_distance].
    + apply closest_level; [by right|]. by apply Forall_forall.
    + apply closest_level; [by left|]. by apply Forall_forall.
  - intros Hn Hz. apply Forall_forall. intros g _.
    by apply timestamp_distance_total.
  - intros Hne Hall. destruct (find_closest_frame_total _ _ _ Hne Hall) as [n Hn].
    destruct (find_closest_frame_result _ _ _ _ Hn) as (f & d & Hf & -> & Hd & Hmin).
    exists f, d. do 3 (split; [done|]).
    intros g d' Hg Hd'. rewrite Forall_forall in Hmin.
    destruct (Hmin g Hg) as (d'' & Hd'' & Hlt). congruence.
Qed.

(** Witness of X12: an event at 0.75 s between frames at 0 s and 1 s. *)
Lemma find_closest_frame_is_closest_witness :
  _find_closest_frame Example.runtime (Py.VFloat (Q2Qc (3 # 4)))
    [Example.frame_a; Example.frame_b]
  = Ok 30.
Proof.
  destruct (find_closest_frame_is_closest Example.runtime (Py.VFloat (Q2Qc (3 # 4)))
              [Example.frame_a; Example.frame_b]) as (_ & _ & _ & Hall & H).
  destruct (H ltac:(done) (Hall eq_refl ltac:(done))) as (f & d & Hf & -> & Hd & Hmin).
  apply elem_of_cons in Hf as [->|Hf].
  - exfalso. injection Hd as <-.
    specialize (Hmin Example.frame_b _ ltac:(right; left) eq_refl).
    revert Hmin. vm_compute. discriminate.
  - apply elem_of_cons in Hf as [->|Hf]; [reflexivity|by apply elem_of_nil in Hf].
Defined.


Lemma batch_count_step (len n : nat) :
  (0 < n)%nat → (0 < len)%nat →
  ((len + (n - 1)) / n = S ((len - n + (n - 1)) / n))%nat.
Proof.
  intros Hn Hlen. destruct (decide (n ≤ len)%nat) as [Hge|Hlt].
  - replace (len + (n - 1))%nat with ((len - n + (n - 1)) + 1 * n)%nat by lia.
    rewrite Nat.div_add by lia. lia.
  - replace (len - n)%nat with 0%nat by lia.
    rewrite (Nat.div_small (0 + (n - 1))) by lia.
    replace (len + (n - 1))%nat with ((len - 1) + 1 * n)%nat by lia.
    rewrite Nat.div_add by lia. rewrite Nat.div_small by lia. lia.
Qed.

Lemma batches_cons n (l : list Frame) :
  (0 < n)%nat → l ≠ [] → batches n l = take n l :: batches n (drop n l).
Proof.
  intros Hn Hl. unfold batches.
  assert (0 < length l)%nat by (destruct l; [done|simpl; lia]).
  rewrite batch_count_step by done. rewrite length_drop.
  cbn [seq map]. rewrite Nat.mul_0_l, drop_0. f_equal.
  rewrite <- seq_shift, map_map. apply map_ext. intros k.
  rewrite drop_drop. do 2 f_equal; lia.
Qed.

Lemma batches_nil n : batches n [] = [].
Proof.
  unfold batches. cbn [length]. rewrite Nat.add_0_l.
  destruct n as [|n]; [done|]. by rewrite Nat.div_small by lia.
Qed.

Lemma batches_cover n (l : list Frame) :
  (0 < n)%nat →
  concat (batches n l) = l
  ∧ Forall (λ b : list Frame, (1 ≤ length b ≤ n)%nat) (batches n l).
Proof.
  intros Hn. remember (length l) as m eqn:Hm. revert l Hm.
  induction m as [m IH] using lt_wf_ind. intros l Hm.
  destruct l as [|x l].
  - rewrite batches_nil. by split.
  - rewrite batches_cons by done.
    destruct (IH (length (drop n (x :: l)))) with (l := drop n (x :: l)) as [Hc Hf].
    { rewrite length_drop. subst m. simpl. lia. }
    { done. }
    split.
    + cbn [concat]. rewrite Hc. apply take_drop.
    + constructor; [|done]. rewrite length_take. simpl. lia.
Qed.

(** X13.  [detect_events] hands every frame to the vision model exactly
    once: the batches, taken in order, make up the frame list again, and
    each batch has between one and five frames; for no frames there is
    no batch and no call. *)
Theorem batches_partition_frames (frames : list Frame) :
  concat (batches 5 frames) = frames
  ∧ Forall (λ b : list Frame, (1 ≤ length b ≤ 5)%nat) (batches 5 frames)
  ∧ (frames = [] → ∀ py json_loads vision, gather py json_loads vision frames = []).
Proof.
  destruct (batches_cover 5 frames) as [Hc Hf]; [lia|].
  split; [done|]. split; [done|].
  intros -> py json_loads vision. unfold gather. by rewrite batches_nil.
Qed.

(** X14.  When every event the batches produced carries a finite number
    as its timestamp (a [bool], an [int], or a [float] other than [nan]
    and the infinities), [detect_events] returns these events sorted
    ascending by timestamp: a rearrangement in which events of equal
    timestamp keep the order in which they were produced.  When one of
    them has no timestamp key, the result is empty.  Whatever reaches
    the sort under ['timestamp'] is a number: a batch decoded with any
    other timestamp yields nothing. *)
Theorem detect_events_sorted_stable py json_loads vision frames :
  (Forall (λ e, is_Some (event_time e)) (gather py json_loads vision frames) →
   sorted_by_time (detect_events py json_loads vision frames)
   ∧ detect_events py json_loads vision frames ≡ₚ gather py json_loads vision frames
   ∧ ties_in_order (gather py json_loads vision frames)
       (detect_events py json_loads vision frames))
  ∧ ((∃ e, e ∈ gather py json_loads vision frames ∧ Py.dict_get "timestamp" e = None) →
     detect_events py json_loads vision frames = [])
  ∧ Forall (λ e, ∀ v, Py.dict_get "timestamp" e = Some v → Py.is_number v = true)
      (gather py json_loads vision frames).
Proof.
  split; [apply detect_events_stable|]. split.
  - intros (e & He & Hn). by eapply detect_events_missing.
  - eapply Forall_impl; [apply gather_timestamps|].
    intros e He v Hv. unfold timestamp_usable in He. by rewrite Hv in He.
Qed.

(** Witness of X14: two events decoded out of order from one batch. *)
Lemma detect_events_sorted_stable_witness :
  let json_loads := λ _ : string, Some (Py.VList [Py.VDict Example.e5; Py.VDict Example.e1]) in
  let vision := λ _ : list Frame, Some "[...]" in
  let frames := [Example.frame_a; Example.frame_b] in
  Forall (λ e, is_Some (event_time e)) (gather Example.runtime json_loads vision frames)
  ∧ sorted_by_time (detect_events Example.runtime json_loads vision frames)
  ∧ detect_events Example.runtime json_loads vision frames
    = [Example.e1 ++ [("frame_number", Py.VInt 30)];
       Example.e5 ++ [("frame_number", Py.VInt 30)]].
Proof.
  intros json_loads vision frames.
  assert (Hall : Forall (λ e, is_Some (event_time e))
                   (gather Example.runtime json_loads vision frames)).
  { assert (gather Example.runtime json_loads vision frames
            = [Example.e5 ++ [("frame_number", Py.VInt 30)];
               Example.e1 ++ [("frame_number", Py.VInt 30)]]) as ->
      by (vm_compute; reflexivity).
    repeat constructor; by eexists. }
  split; [exact Hall|]. split.
  - exact (proj1 (proj1 (detect_events_sorted_stable Example.runtime json_loads vision
                           frames) Hall)).
  - vm_compute. reflexivity.
Defined.



Lemma for_each_fail_inv {A B} (f : A → result B) l e :
  for_each f l = Fail e → ∃ x, x ∈ l ∧ f x = Fail e.
Proof.
  induction l as [|x l IH]; simpl; [done|].
  unfold mbind, result_bind. destruct (f x) as [y|e'] eqn:Hx.
  - destruct (for_each f l) as [ys|e'']; [done|]. intros [= ->].
    destruct (IH eq_refl) as (z & Hz & Hf). exists z. split; [by right|done].
  - intros [= ->]. exists x. split; [by left|done].
Qed.

Lemma for_each_fails {A B} (f : A → result B) l x e :
  x ∈ l → f x = Fail e → ∃ e', for_each f l = Fail e'.
Proof.
  induction l as [|y l IH]; [by intros ?%elem_of_nil|].
  intros [->|Hx]%elem_of_cons Hf; simpl; unfold mbind, result_bind.
  - rewrite Hf. by eexists.
  - destruct (f y); [|by eexists].
    destruct (IH Hx Hf) as [e' ->]. by eexists.
Qed.

Lemma for_each_Forall2 {A B} (f : A → result B) l r :
  for_each f l = Ok r → Forall2 (λ x y, f x = Ok y) l r.
Proof.
  revert r. induction l as [|x l IH]; intros r; simpl.
  - intros [= <-]. constructor.
  - unfold mbind, result_bind. destruct (f x) as [y|] eqn:Hy; [|done].
    destruct (for_each f l) as [ys|]; [|done]. intros [= <-].
    constructor; [done|by apply IH].
Qed.

Lemma for_each_total {A B} (f : A → result B) l :
  Forall (λ x, ∃ y, f x = Ok y) l → ∃ r, for_each f l = Ok r.
Proof.
  induction 1 as [|x l [y Hy] _ [r Hr]]; simpl; [by eexists|].
  unfold mbind, result_bind. rewrite Hy, Hr. by eexists.
Qed.

Lemma dict_get_set_eq k v d : Py.dict_get k (Py.dict_set k v d) = Some v.
Proof.
  induction d as [|[k0 v0] d IH]; simpl.
  - by rewrite String.eqb_refl.
  - destruct (String.eqb_spec k0 k) as [->|Hk]; simpl.
    + by rewrite String.eqb_refl.
    + destruct (String.eqb_spec k0 k); [done|exact IH].
Qed.

Lemma default_timestamp d :
  default (Py.VInt 0) (Py.dict_get "timestamp" d)
  = Py.dict_get_default "timestamp" (Py.VInt 0) d.
Proof. unfold Py.dict_get_default. by destruct (Py.dict_get "timestamp" d). Qed.

Lemma timestamp_distance_error py a v e :
  timestamp_distance py a v = Fail e → e = TypeError ∨ e = OverflowError.
Proof.
  destruct v as [|b|z|q|neg| | | |]; simpl; try (by intros [= <-]; left); try done.
  case_decide; [done|]. destruct (long_distance py a z); [done|].
  intros [= <-]. by right.
Qed.

Lemma closest_error py timestamp rest c m e :
  closest py timestamp rest c m = Fail e → e = TypeError ∨ e = OverflowError.
Proof.
  revert c m. induction rest as [|g rest IH]; intros c m; cbn [closest]; [done|].
  unfold mbind, result_bind.
  destruct (timestamp_distance py (frame_timestamp g) timestamp) as [d|e'] eqn:Hd.
  - destruct (distance_lt d m); apply IH.
  - intros [= <-]. by eapply timestamp_distance_error.
Qed.

Lemma find_closest_frame_error py timestamp frames e :
  _find_closest_frame py timestamp frames = Fail e →
  e = IndexError ∨ e = TypeError ∨ e = OverflowError.
Proof.
  unfold _find_closest_frame. destruct frames as [|first rest].
  - intros [= <-]. by left.
  - unfold mbind, result_bind.
    destruct (timestamp_distance py (frame_timestamp first) timestamp) as [d|e'] eqn:Hd.
    + intros He. right. by eapply closest_error.
    + intros [= <-]. right. by eapply timestamp_distance_error.
Qed.

(** X16.  Decoding a batch is all or nothing.  When the bracketed part of
    the answer decodes to a list whose elements are all dicts with a
    timestamp (0 when missing) that can be subtracted from the timestamp
    of every frame, the batch yields one event per element, in order:
    the decoded dict with [frame_number] set to the number of a frame of
    the batch and every other key as decoded.  When one element is not
    such a dict (or the batch has no frame), the batch yields no event
    at all, and no fallback event either.  A [bool], a [float] and an
    [int] up to [2 ** 53] can always be subtracted; a timestamp that is
    not a number never can. *)
Theorem analyze_frame_batch_decoded py json_loads text frames l :
  Py.find "[" text ≠ -1 →
  Py.rfind "]" text + 1 > Py.find "[" text →
  json_loads (Py.str_slice (Py.find "[" text) (Py.rfind "]" text + 1) text)
    = Some (Py.VList l) →
  let timestamp_of := λ d, Py.dict_get_default "timestamp" (Py.VInt 0) d in
  let usable := λ v, ∃ d, v = Py.VDict d
      ∧ Forall (λ f, ∃ x, timestamp_distance py (frame_timestamp f) (timestamp_of d) = Ok x)
          frames in
  let evs := _analyze_frame_batch py json_loads (Some text) frames in
  (frames ≠ [] → Forall usable l →
     Forall2 (λ v e, ∃ d n,
        v = Py.VDict d
        ∧ Py.dict_get "frame_number" e = Some (Py.VInt n)
        ∧ n ∈ map frame_number frames
        ∧ ∀ k, k ≠ "frame_number" → Py.dict_get k e = Py.dict_get k d) l evs)
  ∧ ((frames = [] ∧ l ≠ []) ∨ Exists (λ v, ¬ usable v) l → evs = [])
  ∧ (∀ d, Py.is_number (timestamp_of d) = true →
          (∀ z, timestamp_of d = Py.VInt z → Z.abs z ≤ 2 ^ 53) →
          usable (Py.VDict d))
  ∧ (∀ d, frames ≠ [] → Py.is_number (timestamp_of d) = false → ¬ usable (Py.VDict d)).
Proof.
  intros H1 H2 Hj timestamp_of usable evs.
  unfold evs, _analyze_frame_batch, extract_events.
  rewrite bool_decide_true by done. rewrite Hj. cbn [annotate].
  set (f := λ event, match event with
                     | Py.VDict d =>
                         n ← _find_closest_frame py
                               (default (Py.VInt 0) (Py.dict_get "timestamp" d)) frames;
                         Ok (Py.dict_set "frame_number" (Py.VInt n) d)
                     | _ => Fail AttributeError
                     end).
  assert (Hfail : ∀ x e, f x = Fail e → e ≠ JSONDecodeError).
  { intros x e. unfold f. destruct x as [| | | | | | | |d]; try (by intros [= <-]).
    unfold mbind, result_bind.
    destruct (_find_closest_frame py _ frames) as [n|e'] eqn:Hn; [done|].
    intros [= <-]. by destruct (find_closest_frame_error _ _ _ _ Hn) as [->|[->| ->]]. }
  split; [|split; [|split]].
  - intros Hne Hall.
    destruct (for_each_total f l) as [r Hr].
    { eapply Forall_impl; [exact Hall|]. intros v (d & -> & Hd). unfold f.
      rewrite default_timestamp.
      destruct (find_closest_frame_total py (timestamp_of d) frames Hne Hd) as [n Hn].
      unfold mbind, result_bind. fold (timestamp_of d). rewrite Hn. by eexists. }
    rewrite Hr. apply for_each_Forall2 in Hr.
    eapply Forall2_impl; [exact Hr|]. intros v e Hv. unfold f in Hv.
    destruct v as [| | | | | | | |d]; try done.
    unfold mbind, result_bind in Hv.
    destruct (_find_closest_frame py _ frames) as [n|] eqn:Hn; [|done].
    injection Hv as <-. exists d, n. split; [done|].
    split; [apply dict_get_set_eq|]. split; [by eapply find_closest_frame_in_batch|].
    intros k Hk. by apply dict_get_set_ne.
  - intros Hbad.
    assert (∃ x e, x ∈ l ∧ f x = Fail e) as (x & e & Hx & Hfx).
    { destruct Hbad as [[-> Hl]|Hex].
      - destruct l as [|x l]; [done|]. exists x. unfold f.
        destruct x; by eexists; split; [by left|].
      - apply Exists_exists in Hex as (x & Hx & Hnu). exists x. unfold f.
        destruct x as [| | | | | | | |d]; try (by eexists; split; [done|]).
        unfold mbind, result_bind.
        destruct (_find_closest_frame py _ frames) as [n|e] eqn:Hn; [|by eexists].
        exfalso. apply Hnu. exists d. split; [done|].
        rewrite default_timestamp in Hn.
        destruct (find_closest_frame_result _ _ _ _ Hn) as (f0 & d0 & _ & _ & _ & Hall).
        eapply Forall_impl; [exact Hall|]. intros g (d' & Hd' & _). by exists d'. }
    destruct (for_each_fails f l x e Hx Hfx) as [e' He']. rewrite He'.
    destruct (for_each_fail_inv f l e' He') as (y & _ & Hy).
    specialize (Hfail y e' Hy). by destruct e'.
  - intros d Hn Hz. exists d. split; [done|].
    apply Forall_forall. intros g _. by apply timestamp_distance_total.
  - intros d Hne Hn (d' & Hd & Hall). injection Hd as <-.
    destruct frames as [|first rest]; [done|].
    apply Forall_cons in Hall as [[x Hx] _].
    apply timestamp_distance_number in Hx. congruence.
Qed.

(** Witness of X16: two event objects decoded for a batch of two frames. *)
Lemma analyze_frame_batch_decoded_witness :
  let json_loads := λ _ : string, Some (Py.VList [Py.VDict Example.e5; Py.VDict Example.e1]) in
  let text := "[...]" in
  Py.find "[" text ≠ -1
  ∧ Py.rfind "]" text + 1 > Py.find "[" text
  ∧ json_loads (Py.str_slice (Py.find "[" text) (Py.rfind "]" text + 1) text)
    = Some (Py.VList [Py.VDict Example.e5; Py.VDict Example.e1])
  ∧ length (_analyze_frame_batch Example.runtime json_loads (Some text) [Example.frame_a; Example.frame_b])
    = 2%nat.
Proof.
  intros json_loads text.
  assert (H1 : Py.find "[" text ≠ -1) by (vm_compute; discriminate).
  assert (H2 : Py.rfind "]" text + 1 > Py.find "[" text) by (vm_compute; reflexivity).
  assert (H3 : json_loads (Py.str_slice (Py.find "[" text) (Py.rfind "]" text + 1) text)
               = Some (Py.VList [Py.VDict Example.e5; Py.VDict Example.e1])) by reflexivity.
  split; [exact H1|]. split; [exact H2|]. split; [exact H3|].
  destruct (analyze_frame_batch_decoded Example.runtime json_loads text
              [Example.frame_a; Example.frame_b] _ H1 H2 H3) as (Hok & _ & Hnum & _).
  assert (Hne : [Example.frame_a; Example.frame_b] ≠ []) by done.
  refine (eq_sym (Forall2_length _ _ _ (Hok Hne _))).
  repeat constructor; apply Hnum; try reflexivity; by intros z [= <-].
Defined.

(** *** The summary report *)

Lemma violation_entry_ok v :
  is_Some (Py.dict_get "timestamp" v) → is_Some (Py.dict_get "description" v) →
  is_Some (Py.dict_get "severity" v) → ∃ entry, violation_entry v = Ok entry.
Proof.
  intros [ts Hts] [desc Hdesc] [sev Hsev]. unfold violation_entry.
  rewrite Hts, Hdesc, Hsev. by eexists.
Qed.

Lemma violation_entry_fails v :
  Py.dict_get "timestamp" v = None ∨ Py.dict_get "description" v = None
  ∨ Py.dict_get "severity" v = None →
  violation_entry v = Fail KeyError.
Proof.
  unfold violation_entry. intros [H|[H|H]].
  - by rewrite H.
  - destruct (Py.dict_get "timestamp" v); [|done]. by rewrite H.
  - destruct (Py.dict_get "timestamp" v); [|done].
    destruct (Py.dict_get "description" v); [|done]. by rewrite H.
Qed.

Lemma for_each_ok_length {A B} (f : A → result B) l r :
  for_each f l = Ok r → length r = length l.
Proof. intros H. symmetry. by eapply Forall2_length, for_each_Forall2. Qed.

(** X17.  For events that are not empty, a summary reply of the chat
    model and violation events that all carry a timestamp, a description
    and a severity, [generate_summary] returns the model's text and a
    report that counts the events, counts the violations (events with a
    true [guideline_violation]), lists one entry per violation and rates
    compliance as Good for no violation, Needs Attention for one or two,
    and Poor for three or more. *)
Theorem generate_summary_report text events :
  events ≠ [] →
  Forall (λ v, is_Some (Py.dict_get "timestamp" v)
               ∧ is_Some (Py.dict_get "description" v)
               ∧ is_Some (Py.dict_get "severity" v))
    (List.filter is_violation events) →
  let n := length (List.filter is_violation events) in
  ∃ report entries,
    generate_summary (Some text) events = (text, report)
    ∧ Py.dict_get "total_events" report = Some (Py.VInt (Z.of_nat (length events)))
    ∧ Py.dict_get "violations_count" report = Some (Py.VInt (Z.of_nat n))
    ∧ (n ≤ length events)%nat
    ∧ Py.dict_get "violations" report = Some (Py.VList (map Py.VDict entries))
    ∧ length entries = n
    ∧ ∃ status,
        Py.dict_get "compliance_status" report = Some (Py.VStr status)
        ∧ (n = 0%nat → status = "Good")
        ∧ ((1 ≤ n ≤ 2)%nat → status = "Needs Attention")
        ∧ ((3 ≤ n)%nat → status = "Poor").
Proof.
  intros Hne Hall n. destruct events as [|e0 events0]; [done|].
  set (events := e0 :: events0) in *.
  unfold generate_summary. fold events. cbv iota.
  destruct (for_each_total violation_entry (List.filter is_violation events)) as [entries Hen].
  { eapply Forall_impl; [exact Hall|]. intros v (H1 & H2 & H3).
    by apply violation_entry_ok. }
  rewrite Hen. eexists _, entries. split; [reflexivity|].
  split; [reflexivity|]. split; [reflexivity|].
  split; [apply List.filter_length_le|]. split; [reflexivity|].
  split; [by apply for_each_ok_length in Hen|].
  exists (compliance_status n). split; [reflexivity|]. unfold compliance_status.
  split; [by intros ->|]. split.
  - intros Hn. destruct (Nat.eqb_spec n 0); [lia|].
    destruct (Nat.leb_spec n 2); [done|lia].
  - intros Hn. destruct (Nat.eqb_spec n 0); [lia|].
    destruct (Nat.leb_spec n 2); [lia|done].
Qed.

(** X18.  [generate_summary] never raises; two things make it return the
    error text with an empty report: a failing model call, and a
    violation event that lacks a timestamp, a description or a severity.
    The description is required even when the event carries
    [violation_details]. *)
Theorem generate_summary_error reply events :
  events ≠ [] →
  reply = None
  ∨ (∃ v, In v events ∧ is_violation v = true
          ∧ (Py.dict_get "timestamp" v = None
             ∨ Py.dict_get "description" v = None
             ∨ Py.dict_get "severity" v = None)) →
  generate_summary reply events = ("Error generating summary", []).
Proof.
  intros Hne Hbad. destruct events as [|e0 events0]; [done|].
  set (events := e0 :: events0) in *.
  unfold generate_summary. fold events. cbv iota.
  destruct reply as [text|]; [|done].
  destruct Hbad as [?|(v & Hin & Hv & Hmiss)]; [done|].
  destruct (for_each_fails violation_entry (List.filter is_violation events) v KeyError)
    as [e' ->]; [| by apply violation_entry_fails |done].
  apply list_elem_of_In, List.filter_In. by split.
Qed.


(** Witness of X17: one violation among two events. *)
Lemma generate_summary_report_witness :
  let events := [Example.red_light; Example.e1] in
  events ≠ []
  ∧ Forall (λ v, is_Some (Py.dict_get "timestamp" v)
                 ∧ is_Some (Py.dict_get "description" v)
                 ∧ is_Some (Py.dict_get "severity" v))
      (List.filter is_violation events)
  ∧ ∃ report,
      generate_summary (Some "A car runs a red light.") events
        = ("A car runs a red light.", report)
      ∧ Py.dict_get "compliance_status" report = Some (Py.VStr "Needs Attention").
Proof.
  intros events.
  assert (Hne : events ≠ []) by done.
  assert (Hall : Forall (λ v, is_Some (Py.dict_get "timestamp" v)
                              ∧ is_Some (Py.dict_get "description" v)
                              ∧ is_Some (Py.dict_get "severity" v))
                   (List.filter is_violation events)).
  { vm_compute. repeat constructor; by eexists. }
  split; [exact Hne|]. split; [exact Hall|].
  destruct (generate_summary_report "A car runs a red light." events Hne Hall)
    as (report & entries & H1 & _ & _ & _ & _ & _ & status & H7 & _ & H9 & _).
  exists report. split; [exact H1|]. rewrite H7, H9; [done|].
  vm_compute. split; by repeat constructor.
Defined.

(** Witness of X18: a violation with details but without a description. *)
Lemma generate_summary_error_witness :
  let events := [Example.e1; Example.undescribed] in
  events ≠ []
  ∧ (∃ v, In v events ∧ is_violation v = true
          ∧ (Py.dict_get "timestamp" v = None
             ∨ Py.dict_get "description" v = None
             ∨ Py.dict_get "severity" v = None))
  ∧ is_Some (Py.dict_get "violation_details" Example.undescribed)
  ∧ generate_summary (Some "A summary.") events = ("Error generating summary", []).
Proof.
  intros events.
  assert (Hne : events ≠ []) by done.
  assert (Hbad : ∃ v, In v events ∧ is_violation v = true
                      ∧ (Py.dict_get "timestamp" v = None
                         ∨ Py.dict_get "description" v = None
                         ∨ Py.dict_get "severity" v = None)).
  { exists Example.undescribed. split; [right; by left|]. split; [reflexivity|].
    right. left. reflexivity. }
  split; [exact Hne|]. split; [exact Hbad|]. split; [by eexists|].
  apply generate_summary_error; [exact Hne|]. right. exact Hbad.
Defined.

(** *** Checking guidelines *)

Lemma guidelines_for_cases guideline_type :
  guidelines_for guideline_type
    = [ "Traffic light compliance"; "Speed limit adherence";
        "Pedestrian right of way"; "Lane discipline"; "Stop sign compliance" ]
  ∨ guidelines_for guideline_type
    = [ "PPE usage"; "Hazard awareness"; "Emergency procedures";
        "Equipment handling"; "Restricted area access" ]
  ∨ guidelines_for guideline_type
    = [ "Activity detection"; "Object tracking"; "Anomaly detection";
        "Pattern recognition" ].
Proof.
  unfold guidelines_for, guidelines_table. cbn [table_get].
  destruct (String.eqb "traffic" guideline_type); [by left|].
  destruct (String.eqb "safety" guideline_type); [right; by left|].
  destruct (String.eqb "general" guideline_type); right; by right.
Qed.

Lemma relates_scene_event guideline frame :
  Py.contains (Py.lower guideline) "scene captured" = false →
  relates guideline (scene_event frame) = Fail AttributeError.
Proof.
  intros Hc. unfold relates, mentions, scene_event, Py.dict_get_default.
  cbn [Py.dict_get String.eqb Ascii.eqb Bool.eqb]. cbn [mbind result_bind].
  change (Py.lower "Scene captured") with "scene captured". by rewrite Hc.
Qed.

(** X19.  The fallback events of [_analyze_frame_batch] cannot be checked
    against guidelines: their [violation_details] is [None], which has no
    [lower], so [analyze_specific_guidelines] raises [AttributeError] on
    any non-empty list of them, for every guideline type. *)
Theorem analyze_specific_guidelines_rejects_fallback_events frames guideline_type :
  frames ≠ [] →
  analyze_specific_guidelines (map scene_event frames) guideline_type
  = Fail AttributeError.
Proof.
  intros Hne. destruct frames as [|frame frames]; [done|].
  unfold analyze_specific_guidelines.
  pose proof (guidelines_for_cases guideline_type) as Hg.
  assert (∃ g gs, guidelines_for guideline_type = g :: gs
                  ∧ Py.contains (Py.lower g) "scene captured" = false)
    as (g & gs & -> & Hc).
  { destruct Hg as [->|[->| ->]]; eexists _, _; (split; [reflexivity|]);
      vm_compute; reflexivity. }
  cbn [for_each map]. unfold mbind at 1, result_bind at 1.
  unfold check_guideline. unfold mbind at 1, result_bind at 1.
  cbn [select]. unfold mbind at 1, result_bind at 1.
  by rewrite relates_scene_event.
Qed.


(** Witness of X19: the fallback event of one frame, checked against the
    traffic guidelines. *)
Lemma analyze_specific_guidelines_rejects_fallback_events_witness :
  [Example.frame_a] ≠ []
  ∧ analyze_specific_guidelines (map scene_event [Example.frame_a]) "traffic"
    = Fail AttributeError.
Proof.
  assert (Hne : [Example.frame_a] ≠ []) by done.
  split; [exact Hne|].
  exact (analyze_specific_guidelines_rejects_fallback_events [Example.frame_a] "traffic" Hne).
Defined.

Lemma select_length {A} (p : A → result bool) l r :
  select p l = Ok r → (length r ≤ length l)%nat.
Proof.
  revert r. induction l as [|x l IH]; intros r; simpl.
  - by intros [= <-].
  - unfold mbind, result_bind. destruct (p x) as [b|]; [|done].
    destruct (select p l) as [rest|]; [|done]. intros [= <-].
    specialize (IH rest eq_refl). destruct b; simpl; lia.
Qed.

Lemma existsb_filter_length {A} (p : A → bool) l :
  existsb p l = false ↔ length (List.filter p l) = 0%nat.
Proof.
  induction l as [|x l IH]; simpl; [done|].
  destruct (p x); simpl; [split; [done|lia]|exact IH].
Qed.

Lemma check_guideline_result events guideline g r :
  check_guideline events guideline = Ok (g, r) →
  g = guideline
  ∧ (violations r ≤ related_events r ≤ length events)%nat
  ∧ (status r = "Pass" ↔ violations r = 0%nat)
  ∧ (status r = "Pass" ∨ status r = "Fail").
Proof.
  unfold check_guideline, mbind, result_bind.
  destruct (select _ events) as [related|] eqn:Hsel; [|done]. intros [= <- <-].
  split; [done|]. cbn [violations related_events status]. split; [|split].
  - split; [apply List.filter_length_le|by eapply select_length].
  - rewrite <- existsb_filter_length.
    destruct (existsb is_violation related); split; done.
  - destruct (existsb is_violation related); [by right|by left].
Qed.

(** X20.  When [analyze_specific_guidelines] returns, it reports on
    exactly the guidelines of the requested type, in the table's order
    (those of type [general] for a type the table does not have); for
    each guideline the violations are among the related events, which
    are among the events given, and the status is [Pass] exactly when no
    related event is a violation and [Fail] otherwise. *)
Theorem analyze_specific_guidelines_results events guideline_type a :
  analyze_specific_guidelines events guideline_type = Ok a →
  checked_guidelines a = guidelines_for guideline_type
  ∧ map fst (results a) = guidelines_for guideline_type
  ∧ Forall (λ gr : string * GuidelineResult,
       (violations (snd gr) ≤ related_events (snd gr) ≤ length events)%nat
       ∧ (status (snd gr) = "Pass" ↔ violations (snd gr) = 0%nat)
       ∧ (status (snd gr) = "Pass" ∨ status (snd gr) = "Fail")) (results a)
  ∧ (guideline_type ≠ "traffic" → guideline_type ≠ "safety" →
     guidelines_for guideline_type = guidelines_for "general").
Proof.
  unfold analyze_specific_guidelines, mbind, result_bind.
  destruct (for_each _ _) as [checked|] eqn:Hc; [|done]. intros [= <-].
  cbn [checked_guidelines results]. apply for_each_Forall2 in Hc.
  split; [done|]. split; [|split].
  - induction Hc as [|g [g' r] gs rs Hg _ IH]; [done|].
    apply check_guideline_result in Hg as [-> _]. simpl. by rewrite IH.
  - induction Hc as [|g [g' r] gs rs Hg _ IH]; constructor; [|done].
    by apply check_guideline_result in Hg as (_ & ? & ? & ?).
  - intros Ht Hs. unfold guidelines_for, guidelines_table. cbn [table_get].
    destruct (String.eqb_spec "traffic" guideline_type); [congruence|].
    destruct (String.eqb_spec "safety" guideline_type); [congruence|].
    by destruct (String.eqb "general" guideline_type).
Qed.

(** Witness of X20: a red-light violation checked against the traffic
    guidelines. *)
Lemma analyze_specific_guidelines_results_witness :
  ∃ a,
    analyze_specific_guidelines [Example.red_light; Example.e1] "traffic" = Ok a
    ∧ map fst (results a)
      = [ "Traffic light compliance"; "Speed limit adherence";
          "Pedestrian right of way"; "Lane discipline"; "Stop sign compliance" ]
    ∧ (results a) !! 0%nat
      = Some ("Traffic light compliance", mkGuidelineResult 1 1 "Fail").
Proof.
  destruct (analyze_specific_guidelines [Example.red_light; Example.e1] "traffic")
    as [a|e] eqn:Ha; [|vm_compute in Ha; discriminate].
  exists a. split; [reflexivity|].
  destruct (analyze_specific_guidelines_results _ _ _ Ha) as (_ & H2 & _).
  split; [rewrite H2; reflexivity|].
  vm_compute in Ha. injection Ha as <-. reflexivity.
Defined.


(** ** The routes *)

Ltac route_step :=
  unfold mbind, Main.Route_bind, mret, Main.Route_ret, Main.call, Main.raise_http,
    Main.raise_other;
  cbv beta iota.

Lemma guarded_raises_500 {A} (body : Main.Route A) w r w1 :
  Main.guarded body w = Main.Raised r w1 → r = Main.HTTPException 500.
Proof. unfold Main.guarded. destruct (body w); [done|]. by intros [= <- _]. Qed.

(** X21.  The session route never answers 404.  For a live session it
    returns the refreshed record; for an absent or expired one the 404 it
    raises is caught by its own handler and turned into a 500, and every
    failure of the route is a 500. *)
Theorem get_session_route_never_404 session_id w :
  (∀ r w1, Main.get_session session_id w = Main.Raised r w1 → r = Main.HTTPException 500)
  ∧ (sessions w !! session_id = None ∨ (∃ s, expired w session_id s) →
     ∃ w1, Main.get_session session_id w = Main.Raised (Main.HTTPException 500) w1)
  ∧ (∀ s, live w session_id s →
     ∃ w1, Main.get_session session_id w = Main.Done (touched w s) w1).
Proof.
  split; [intros r w1; apply guarded_raises_500|]. split.
  - intros [Hn|[s He]]; unfold Main.get_session, Main.guarded; route_step.
    + rewrite get_session_absent by done. by eexists.
    + rewrite (get_session_expired w session_id s) by done. by eexists.
  - intros s Hl. unfold Main.get_session, Main.guarded. route_step.
    rewrite (get_session_touch w session_id s) by done. by eexists.
Qed.

(** Witness of X21: the route asked for an id that is not in the store. *)
Lemma get_session_route_never_404_witness :
  ∃ w1, Main.get_session "s2" (Example.world 10 0 [])
        = Main.Raised (Main.HTTPException 500) w1.
Proof.
  apply (get_session_route_never_404 "s2" (Example.world 10 0 [])).
  left. vm_compute. reflexivity.
Defined.

(** X11.  A chat request naming a session id that is not in the store is
    answered like any other: the route returns the model's text (or the
    apology), the given id and [context_retained = True].  No session is
    created for it and the store is exactly as before, so nothing of the
    turn is retained. *)
Theorem chat_unknown_session_retains_nothing sp da uuid4 reply message sid w :
  sid ≠ "" → sessions w !! sid = None →
  ∃ w1,
    Main.chat sp da uuid4 reply message (Some sid) w
      = Main.Done
          (Main.mkChatResponse
             (match reply with Some text => text | None => apology end) sid true) w1
    ∧ sessions w1 = sessions w.
Proof.
  intros Hne Hn. unfold Main.chat, Main.guarded, Main.session_or_new.
  destruct (String.eqb_spec sid ""); [done|]. route_step.
  destruct (process_message_absent sp da reply sid message w Hn) as (w1 & H1 & H2).
  rewrite H1. by eexists.
Qed.

(** Witness of X11: a chat request for the unknown id ["s2"]. *)
Lemma chat_unknown_session_retains_nothing_witness :
  let w := Example.world 10 0 [] in
  "s2" ≠ "" ∧ sessions w !! "s2" = None
  ∧ ∃ w1,
      Main.chat "You are an assistant." (λ _, Some "") "fresh-id"
        (Some "At 5.2 seconds.") "When did the car stop?" (Some "s2") w
        = Main.Done (Main.mkChatResponse "At 5.2 seconds." "s2" true) w1
      ∧ sessions w1 !! "s2" = None
      ∧ sessions w1 !! "fresh-id" = None.
Proof.
  intros w.
  assert (Hne : "s2" ≠ "") by discriminate.
  assert (Hn : sessions w !! "s2" = None) by (vm_compute; reflexivity).
  split; [exact Hne|]. split; [exact Hn|].
  destruct (chat_unknown_session_retains_nothing "You are an assistant." (λ _, Some "")
              "fresh-id" (Some "At 5.2 seconds.") "When did the car stop?" "s2" w Hne Hn)
    as (w1 & H1 & H2).
  exists w1. split; [exact H1|]. rewrite H2. split; vm_compute; reflexivity.
Defined.

Lemma create_session_run uuid4 w :
  create_session uuid4 w =
    Returns uuid4
      (mkWorld
         (<[uuid4 := mkSession uuid4 (clock w (ticks w)) (clock w (S (ticks w))) []
                       None (next_ref w)]> (sessions w))
         (max_history w) (session_timeout w)
         (<[next_ref w := ∅]> (dicts w)) (S (next_ref w)) (clock w) (S (S (ticks w)))).
Proof. reflexivity. Qed.

Lemma created_session_live uuid4 w :
  steady w 3 →
  live
    (mkWorld
       (<[uuid4 := mkSession uuid4 (clock w (ticks w)) (clock w (S (ticks w))) []
                     None (next_ref w)]> (sessions w))
       (max_history w) (session_timeout w)
       (<[next_ref w := ∅]> (dicts w)) (S (next_ref w)) (clock w) (S (S (ticks w))))
    uuid4
    (mkSession uuid4 (clock w (ticks w)) (clock w (S (ticks w))) [] None (next_ref w)).
Proof.
  intros Hs. split; [run_step; apply lookup_insert_eq|].
  run_step. apply Hs; lia.
Qed.

(** X22.  The chat route never fails.  Asked without a session id ([None]
    or the empty string) it creates a session under the identifier drawn
    and runs the turn in it: with a successful model call and
    [max_history >= 1] the response carries the model's text and the new
    id, and the new session's history is the user message followed by the
    assistant message. *)
Theorem chat_creates_session sp da uuid4 message session_id w :
  (∀ reply, ∃ resp w1,
     Main.chat sp da uuid4 reply message session_id w = Main.Done resp w1
     ∧ Main.context_retained resp = true)
  ∧ (∀ text, session_id = None ∨ session_id = Some "" → steady w 15 → 1 ≤ max_history w →
     ∃ w1 s1,
       Main.chat sp da uuid4 (Some text) message session_id w
         = Main.Done (Main.mkChatResponse text uuid4 true) w1
       ∧ sessions w1 !! uuid4 = Some s1
       ∧ conversation_history s1
         = [mkMessage "user" message (clock w (4 + ticks w)%nat) ∅;
            mkMessage "assistant" text (clock w (13 + ticks w)%nat) ∅]).
Proof.
  split.
  - intros reply. unfold Main.chat, Main.guarded.
    assert (∃ sid w0, Main.session_or_new uuid4 session_id w = Main.Done sid w0)
      as (sid & w0 & H0).
    { unfold Main.session_or_new. destruct session_id as [sid|].
      - destruct (String.eqb sid ""); by eexists _, _.
      - by eexists _, _. }
    route_step. rewrite H0.
    destruct (process_message_returns sp da reply sid message w0) as (text & w1 & H1).
    rewrite H1. by eexists _, _.
  - intros text Hnone Hs Hmh. unfold Main.chat, Main.guarded.
    assert (Main.session_or_new uuid4 session_id w
            = Main.call (create_session uuid4) w) as Hnew.
    { by destruct Hnone as [->| ->]. }
    route_step. rewrite Hnew. unfold Main.call. rewrite create_session_run.
    match goal with |- context [process_message _ _ _ _ _ ?w0] =>
      destruct (process_message_reply_live sp da w0 uuid4 _ message text
                  (created_session_live uuid4 w ltac:(by eapply steady_le; [|exact Hs]; lia)))
        as (w1 & s1 & H1 & H2 & H3 & _)
    end.
    { apply (steady_later w _ 13 2); try reflexivity. exact Hs. }
    { intros a Ha. discriminate. }
    rewrite H1. exists w1, s1. split; [reflexivity|]. split; [exact H2|].
    rewrite H3. cbn [conversation_history max_history app clock ticks Nat.add].
    rewrite (trim_below _ [_]) by (simpl; lia).
    rewrite trim_below by (simpl; lia). reflexivity.
Qed.


(** Witness of X22: a first chat request without a session id. *)
Lemma chat_creates_session_witness :
  let w := Example.world 10 0 [] in
  steady w 15 ∧ 1 ≤ max_history w
  ∧ ∃ w1 s1,
      Main.chat "You are an assistant." (λ _, Some "") "fresh-id"
        (Some "Hello.") "Hi" None w
        = Main.Done (Main.mkChatResponse "Hello." "fresh-id" true) w1
      ∧ sessions w1 !! "fresh-id" = Some s1
      ∧ conversation_history s1
        = [mkMessage "user" "Hi" 4000 ∅; mkMessage "assistant" "Hello." 13000 ∅].
Proof.
  intros w.
  assert (Hs : steady w 15).
  { intros i j Hi Hij Hj. unfold w, Example.world, Example.clock_from, timedelta_minutes.
    cbn [clock ticks session_timeout] in *. lia. }
  assert (Hmh : 1 ≤ max_history w) by (vm_compute; discriminate).
  split; [exact Hs|]. split; [exact Hmh|].
  destruct (chat_creates_session "You are an assistant." (λ _, Some "") "fresh-id"
              "Hi" None w) as [_ H].
  destruct (H "Hello." (or_introl eq_refl) Hs Hmh) as (w1 & s1 & H1 & H2 & H3).
  exists w1, s1. split; [exact H1|]. split; [exact H2|]. rewrite H3. reflexivity.
Defined.

(** X23.  The upload route answers 500, never 400, for a file name that
    ends in none of the five video suffixes (the comparison is
    case-sensitive): the 400 it raises is caught by its own handler.
    Nothing is analysed or stored in that case, and every failure of the
    route is a 500. *)
Theorem upload_video_rejects_with_500 py json_loads vision uuid4 extracted summary_reply
    removed filename session_id w :
  (∀ r w1,
     Main.upload_video py json_loads vision uuid4 extracted summary_reply removed
       filename session_id w = Main.Raised r w1 → r = Main.HTTPException 500)
  ∧ (existsb (Main.endswith filename) Main.video_suffixes = false →
     Main.upload_video py json_loads vision uuid4 extracted summary_reply removed
       filename session_id w = Main.Raised (Main.HTTPException 500) w).
Proof.
  split; [intros r w1; apply guarded_raises_500|].
  intros Hext. unfold Main.upload_video, Main.guarded. by rewrite Hext.
Qed.

(** Witness of X23: an upper-case suffix. *)
Lemma upload_video_rejects_with_500_witness :
  existsb (Main.endswith "clip.MP4") Main.video_suffixes = false
  ∧ Main.upload_video Example.runtime (λ _, None) (λ _, None) "fresh-id" (Some []) None true
      "clip.MP4" None (Example.world 10 0 [])
    = Main.Raised (Main.HTTPException 500) (Example.world 10 0 []).
Proof.
  assert (Hext : existsb (Main.endswith "clip.MP4") Main.video_suffixes = false)
    by (vm_compute; reflexivity).
  split; [exact Hext|].
  exact (proj2 (upload_video_rejects_with_500 Example.runtime (λ _, None) (λ _, None) "fresh-id"
                  (Some []) None true "clip.MP4" None (Example.world 10 0 [])) Hext).
Defined.

(** X24.  An upload without a session id, with an accepted file name and
    frames extracted, creates a session under the identifier drawn and
    attaches the analysis to it: the response and the stored analysis
    hold the same events, those of [detect_events], and the same summary
    and report, those of [generate_summary] on these events; with
    [max_history >= 1] the new session's history is the one system
    notice.  The stored events are sorted ascending by timestamp when
    every event the batches produced carries a finite number as its
    timestamp. *)
Theorem upload_video_stores_analysis py json_loads vision uuid4 frames summary_reply
    filename session_id w :
  existsb (Main.endswith filename) Main.video_suffixes = true →
  session_id = None ∨ session_id = Some "" →
  steady w 6 → 1 ≤ max_history w →
  let evs := detect_events py json_loads vision frames in
  let summ := fst (generate_summary summary_reply evs) in
  let report := snd (generate_summary summary_reply evs) in
  ∃ w1 s1 a,
    Main.upload_video py json_loads vision uuid4 (Some frames) summary_reply true
      filename session_id w
      = Main.Done (Main.mkVideoAnalysisResponse uuid4 evs summ report) w1
    ∧ sessions w1 !! uuid4 = Some s1
    ∧ video_analysis s1 = Some a
    ∧ events a = evs
    ∧ summary a = summ
    ∧ guidelines a = report
    ∧ (Forall (λ e, is_Some (event_time e)) (gather py json_loads vision frames) →
       sorted_by_time (events a))
    ∧ ∃ m, conversation_history s1 = [m]
           ∧ role m = "system"
           ∧ content m = analysis_notice evs summ.
Proof.
  intros Hext Hnone Hs Hmh evs summ report.
  unfold Main.upload_video, Main.guarded. rewrite Hext. route_step.
  fold evs. subst summ report.
  destruct (generate_summary summary_reply evs) as [summ report]. cbn [fst snd].
  assert (Main.session_or_new uuid4 session_id w
          = Main.call (create_session uuid4) w) as Hnew.
  { by destruct Hnone as [->| ->]. }
  rewrite Hnew. unfold Main.call. rewrite create_session_run.
  erewrite store_video_analysis_live; cycle 1.
  - apply created_session_live. by eapply steady_le; [|exact Hs]; lia.
  - apply (steady_later w _ 4 2); try reflexivity. exact Hs.
  - eexists _, _, _. split; [reflexivity|].
    split; [run_step; apply lookup_insert_eq|].
    split; [reflexivity|]. split; [reflexivity|]. split; [reflexivity|].
    split; [reflexivity|].
    split; [intros Hall; by apply detect_events_stable|].
    eexists. split.
    { unfold analysed. run_step. cbn [app]. apply trim_below. simpl. lia. }
    split; reflexivity.
Qed.


(** Witness of X24: a clip whose one batch of frames gives two events. *)
Lemma upload_video_stores_analysis_witness :
  let json_loads := λ _ : string, Some (Py.VList [Py.VDict Example.e5; Py.VDict Example.e1]) in
  let vision := λ _ : list Frame, Some "[...]" in
  let w := Example.world 10 0 [] in
  existsb (Main.endswith "clip.mp4") Main.video_suffixes = true
  ∧ steady w 6 ∧ 1 ≤ max_history w
  ∧ ∃ w1 s1 a,
      Main.upload_video Example.runtime json_loads vision "fresh-id"
        (Some [Example.frame_a; Example.frame_b]) (Some "Two events.") true
        "clip.mp4" None w
      = Main.Done
          (Main.mkVideoAnalysisResponse "fresh-id"
             [Example.e1 ++ [("frame_number", Py.VInt 30)];
              Example.e5 ++ [("frame_number", Py.VInt 30)]]
             "Two events."
             (snd (generate_summary (Some "Two events.")
                     [Example.e1 ++ [("frame_number", Py.VInt 30)];
                      Example.e5 ++ [("frame_number", Py.VInt 30)]]))) w1
      ∧ sessions w1 !! "fresh-id" = Some s1
      ∧ video_analysis s1 = Some a
      ∧ summary a = "Two events.".
Proof.
  intros json_loads vision w.
  assert (Hext : existsb (Main.endswith "clip.mp4") Main.video_suffixes = true)
    by (vm_compute; reflexivity).
  assert (Hs : steady w 6).
  { intros i j Hi Hij Hj. unfold w, Example.world, Example.clock_from, timedelta_minutes.
    cbn [clock ticks session_timeout] in *. lia. }
  assert (Hmh : 1 ≤ max_history w) by (vm_compute; discriminate).
  split; [exact Hext|]. split; [exact Hs|]. split; [exact Hmh|].
  destruct (upload_video_stores_analysis Example.runtime json_loads vision "fresh-id"
              [Example.frame_a; Example.frame_b] (Some "Two events.") "clip.mp4" None w
              Hext (or_introl eq_refl) Hs Hmh)
    as (w1 & s1 & a & H1 & H2 & H3 & _ & H5 & _).
  exists w1, s1, a. split; [exact H1|]. split; [exact H2|]. split; [exact H3|].
  rewrite H5. reflexivity.
Defined.

(** X25.  An upload that names a session id which is not in the store
    still runs the whole analysis and answers with it under the given
    id, but stores nothing: no session is created and the world is
    exactly as before the request. *)
Theorem upload_video_unknown_session_stores_nothing py json_loads vision uuid4 frames
    summary_reply filename sid w :
  existsb (Main.endswith filename) Main.video_suffixes = true →
  sid ≠ "" → sessions w !! sid = None →
  let evs := detect_events py json_loads vision frames in
  Main.upload_video py json_loads vision uuid4 (Some frames) summary_reply true
    filename (Some sid) w
  = Main.Done
      (Main.mkVideoAnalysisResponse sid evs
         (fst (generate_summary summary_reply evs))
         (snd (generate_summary summary_reply evs))) w.
Proof.
  intros Hext Hne Hn evs.
  unfold Main.upload_video, Main.guarded, Main.session_or_new. rewrite Hext.
  route_step. fold evs.
  destruct (generate_summary summary_reply evs) as [summ report]. cbn [fst snd].
  destruct (String.eqb_spec sid ""); [done|]. route_step.
  by rewrite store_video_analysis_absent.
Qed.

(** Witness of X25: an upload for the unknown id ["s2"]. *)
Lemma upload_video_unknown_session_stores_nothing_witness :
  let w := Example.world 10 0 [] in
  existsb (Main.endswith "clip.webm") Main.video_suffixes = true
  ∧ "s2" ≠ "" ∧ sessions w !! "s2" = None
  ∧ Main.upload_video Example.runtime (λ _, None) (λ _, None) "fresh-id" (Some []) None true
      "clip.webm" (Some "s2") w
    = Main.Done
        (Main.mkVideoAnalysisResponse "s2" []
           "No significant events detected in the video." []) w.
Proof.
  intros w.
  assert (Hext : existsb (Main.endswith "clip.webm") Main.video_suffixes = true)
    by (vm_compute; reflexivity).
  assert (Hne : "s2" ≠ "") by discriminate.
  assert (Hn : sessions w !! "s2" = None) by (vm_compute; reflexivity).
  split; [exact Hext|]. split; [exact Hne|]. split; [exact Hn|].
  exact (upload_video_unknown_session_stores_nothing Example.runtime (λ _, None) (λ _, None) "fresh-id"
           [] None "clip.webm" "s2" w Hext Hne Hn).
Defined.

(** ** Frame sampling *)

Import VideoProcessor.

Lemma seconds_zero fps : seconds fps 0 = 0%Qc.
Proof.
  unfold seconds. case_decide; [|done].
  unfold Qcdiv. apply Qcmult_0_l.
Qed.


(** The loop numbers the frames it keeps by the multiples of the
    interval: [d] is the distance from the current count to the next
    multiple. *)
Lemma read_frames_numbers mf enc fps total i s :
  1 ≤ i → ∀ n ec d fs, 0 ≤ d < i → (n + d) mod i = 0 →
  read_frames mf enc fps total i s n ec = Frames fs →
  ∀ k f, fs !! k = Some f → frame_number f = n + d + Z.of_nat k * i.
Proof.
  intros Hi. induction s as [|p s IH]; intros n ec d fs Hd Hm Hr k f Hk.
  - simpl in Hr. case_decide; injection Hr as <-; done.
  - simpl in Hr. case_decide as Hec; [|injection Hr as <-; done].
    case_decide as Hn.
    + assert (d = 0) as ->.
      { assert (d mod i = 0) as Hdm.
        { rewrite <- Hm. rewrite Z.add_mod, Hn, Z.add_0_l, Z.mod_mod by lia. done. }
        rewrite Z.mod_small in Hdm by lia. done. }
      destruct (enc p) as [img|]; [|done].
      case_decide as Ht.
      * injection Hr as <-. destruct k; [|done]. injection Hk as <-. simpl. lia.
      * destruct (read_frames mf enc fps total i s (n + 1) (ec + 1)) as [more|] eqn:Hm';
          [|done].
        injection Hr as <-. destruct k as [|k].
        { injection Hk as <-. simpl. lia. }
        simpl in Hk. rewrite (IH (n + 1) (ec + 1) (i - 1) more) with (k := k) (f := f);
          [lia|lia| |done|done].
        replace (n + 1 + (i - 1)) with (n + 0 + 1 * i) by lia.
        by rewrite Z.mod_add by lia.
    + assert (d ≠ 0) by (intros ->; apply Hn; by rewrite Z.add_0_r in Hm).
      case_decide as Ht; [injection Hr as <-; done|].
      rewrite (IH (n + 1) ec (d - 1) fs) with (k := k) (f := f);
        [lia|lia| |done|done].
      by replace (n + 1 + (d - 1)) with (n + d) by lia.
Qed.

(** Each frame kept is built from the picture read at its number. *)
Lemma read_frames_content mf enc fps total i s :
  ∀ n ec fs, 0 ≤ n →
  read_frames mf enc fps total i s n ec = Frames fs →
  Forall (λ f, n ≤ frame_number f
     ∧ ∃ p, s !! Z.to_nat (frame_number f - n) = Some p
            ∧ enc p = Some (image f)
            ∧ width f = shape1 p ∧ height f = shape0 p
            ∧ frame_timestamp f = seconds fps (frame_number f)) fs.
Proof.
  induction s as [|p s IH]; intros n ec fs Hn Hr.
  - simpl in Hr. case_decide; injection Hr as <-; constructor.
  - assert (Hshift : ∀ more,
      Forall (λ f, n + 1 ≤ frame_number f
         ∧ ∃ q, s !! Z.to_nat (frame_number f - (n + 1)) = Some q
                ∧ enc q = Some (image f)
                ∧ width f = shape1 q ∧ height f = shape0 q
                ∧ frame_timestamp f = seconds fps (frame_number f)) more →
      Forall (λ f, n ≤ frame_number f
         ∧ ∃ q, (p :: s) !! Z.to_nat (frame_number f - n) = Some q
                ∧ enc q = Some (image f)
                ∧ width f = shape1 q ∧ height f = shape0 q
                ∧ frame_timestamp f = seconds fps (frame_number f)) more).
    { intros more Hall. eapply Forall_impl; [exact Hall|].
      intros f (Hle & q & Hq & Hrest).
      split; [lia|]. exists q. split; [|done].
      replace (Z.to_nat (frame_number f - n))
        with (S (Z.to_nat (frame_number f - (n + 1)))) by lia. done. }
    simpl in Hr. case_decide as Hec; [|injection Hr as <-; constructor].
    assert (Hhere : ∀ img, enc p = Some img →
      let f := mkFrame n (seconds fps n) img (shape1 p) (shape0 p) in
      n ≤ frame_number f
      ∧ ∃ q, (p :: s) !! Z.to_nat (frame_number f - n) = Some q
             ∧ enc q = Some (image f)
             ∧ width f = shape1 q ∧ height f = shape0 q
             ∧ frame_timestamp f = seconds fps (frame_number f)).
    { intros img He f. split; [simpl; lia|]. exists p. simpl.
      rewrite Z.sub_diag. done. }
    case_decide as Hmod.
    + destruct (enc p) as [img|] eqn:He; [|done].
      case_decide as Ht.
      * injection Hr as <-. constructor; [by apply Hhere|constructor].
      * destruct (read_frames mf enc fps total i s (n + 1) (ec + 1)) as [more|] eqn:Hm;
          [|done].
        injection Hr as <-. constructor; [by apply Hhere|].
        apply Hshift. apply (IH (n + 1) (ec + 1)); [lia|done].
    + case_decide as Ht; [injection Hr as <-; constructor|].
      apply Hshift. apply (IH (n + 1) ec); [lia|done].
Qed.

(** With an encoder that accepts every picture the loop returns, and it
    keeps one frame per multiple of the interval among the pictures it
    reads, up to the room left under [max_frames]. *)
Lemma read_frames_count mf enc fps total i s :
  1 ≤ i → Forall (λ p, is_Some (enc p)) s →
  ∀ n ec d, 0 ≤ d < i → (n + d) mod i = 0 →
  ∃ fs, read_frames mf enc fps total i s n ec = Frames fs
    ∧ Z.of_nat (length fs)
      = Z.min (Z.max 0 (mf - ec))
          (Z.max 0 ((Z.min (Z.of_nat (length s)) (Z.max 1 (total - n)) - d + i - 1) / i)).
Proof.
  intros Hi Henc. induction Henc as [|p s [img Hp] Henc IH]; intros n ec d Hd Hm.
  - exists []. split; [simpl; by case_decide|].
    replace (Z.min (Z.of_nat (length (@nil Picture))) (Z.max 1 (total - n)) - d + i - 1)
      with (i - 1 - d) by (simpl; lia).
    rewrite Z.div_small by lia. simpl. lia.
  - cbn [read_frames]. case_decide as Hec.
    2:{ exists []. split; [done|]. simpl length. lia. }
    rewrite Hp. case_decide as Hn.
    + assert (d = 0) as ->.
      { assert (d mod i = 0) as Hdm.
        { rewrite <- Hm. rewrite Z.add_mod, Hn, Z.add_0_l, Z.mod_mod by lia. done. }
        rewrite Z.mod_small in Hdm by lia. done. }
      case_decide as Ht.
      * eexists. split; [done|].
        replace (Z.min (Z.of_nat (length (p :: s))) (Z.max 1 (total - n)) - 0 + i - 1)
          with (0 + 1 * i) by (simpl length; lia).
        rewrite Z.div_add by lia. rewrite Z.div_0_l by lia. simpl length. lia.
      * destruct (IH (n + 1) (ec + 1) (i - 1)) as (more & -> & Hlen); [lia| |].
        { replace (n + 1 + (i - 1)) with (n + 0 + 1 * i) by lia.
          by rewrite Z.mod_add by lia. }
        eexists. split; [done|].
        replace (Z.min (Z.of_nat (length (p :: s))) (Z.max 1 (total - n)) - 0 + i - 1)
          with (Z.min (Z.of_nat (length s)) (Z.max 1 (total - (n + 1))) + 1 * i)
          by (simpl length; lia).
        replace (Z.min (Z.of_nat (length s)) (Z.max 1 (total - (n + 1))) - (i - 1) + i - 1)
          with (Z.min (Z.of_nat (length s)) (Z.max 1 (total - (n + 1)))) in Hlen by lia.
        rewrite Z.div_add by lia.
        assert (0 ≤ Z.min (Z.of_nat (length s)) (Z.max 1 (total - (n + 1))) / i)
          by (apply Z.div_pos; lia).
        simpl length. lia.
    + assert (d ≠ 0) by (intros ->; apply Hn; by rewrite Z.add_0_r in Hm).
      case_decide as Ht.
      * exists []. split; [done|].
        replace (Z.min (Z.of_nat (length (p :: s))) (Z.max 1 (total - n)) - d + i - 1)
          with (i - d) by (simpl length; lia).
        rewrite Z.div_small by lia. simpl. lia.
      * destruct (IH (n + 1) ec (d - 1)) as (fs & -> & Hlen); [lia| |].
        { by replace (n + 1 + (d - 1)) with (n + d) by lia. }
        exists fs. split; [done|]. rewrite Hlen. do 3 f_equal.
        simpl length. lia.
Qed.


(** The loop keeps no more frames than [max_frames] leaves room for,
    and none at or past [total_frames] other than the first one read. *)
Lemma read_frames_bound mf enc fps total i s :
  ∀ n ec fs,
  read_frames mf enc fps total i s n ec = Frames fs →
  Z.of_nat (length fs) ≤ Z.max 0 (mf - ec)
  ∧ Forall (λ f, frame_number f < Z.max (n + 1) total) fs.
Proof.
  induction s as [|p s IH]; intros n ec fs Hr.
  - simpl in Hr. case_decide; injection Hr as <-; (split; [simpl; lia|constructor]).
  - simpl in Hr. case_decide as Hec; [|injection Hr as <-; (split; [simpl; lia|constructor])].
    case_decide as Hmod.
    + destruct (enc p) as [img|]; [|done].
      case_decide as Ht.
      * injection Hr as <-. split; [simpl; lia|]. repeat constructor. simpl. lia.
      * destruct (read_frames mf enc fps total i s (n + 1) (ec + 1)) as [more|] eqn:Hm;
          [|done].
        injection Hr as <-. destruct (IH _ _ _ Hm) as [Hlen Hall].
        split; [simpl length; lia|]. constructor; [simpl; lia|].
        eapply Forall_impl; [exact Hall|]. simpl. intros; lia.
    + case_decide as Ht; [injection Hr as <-; (split; [simpl; lia|constructor])|].
      destruct (IH _ _ _ Hr) as [Hlen Hall]. split; [done|].
      eapply Forall_impl; [exact Hall|]. simpl. intros; lia.
Qed.

Lemma extract_frames_run max_frames max_duration enc cap :
  max_frames ≠ 0 → isOpened cap = true →
  extract_frames max_frames max_duration enc cap
  = read_frames max_frames enc (CAP_PROP_FPS cap) (total_frames max_duration cap)
      (Z.max 1 (total_frames max_duration cap / max_frames)) (pictures cap) 0 0.
Proof. intros H0 Ho. unfold extract_frames. rewrite decide_False by done. by rewrite Ho. Qed.

Lemma extract_frames_inv max_frames max_duration enc cap frames :
  extract_frames max_frames max_duration enc cap = Frames frames →
  frames = []
  ∨ read_frames max_frames enc (CAP_PROP_FPS cap) (total_frames max_duration cap)
      (Z.max 1 (total_frames max_duration cap / max_frames)) (pictures cap) 0 0
    = Frames frames.
Proof.
  unfold extract_frames. case_decide; [done|].
  destruct (isOpened cap); [by right|]. intros [= <-]. by left.
Qed.

(** X26.  The frames [extract_frames] returns are a regular sample: at
    most [max_frames] of them, the k-th one numbered [k * frame_interval]
    with [frame_interval = max(1, total_frames // max_frames)], built
    from the picture read at that position (its encoding, its width and
    height), stamped with that number divided by the frame rate (zero
    when the rate is not positive), and none numbered at or past
    [total_frames] other than frame 0. *)
Theorem extract_frames_samples_at_interval max_frames max_duration enc cap frames :
  extract_frames max_frames max_duration enc cap = Frames frames →
  let total := total_frames max_duration cap in
  let frame_interval := Z.max 1 (total / max_frames) in
  Z.of_nat (length frames) ≤ Z.max 0 max_frames
  ∧ ∀ k f, frames !! k = Some f →
      frame_number f = Z.of_nat k * frame_interval
      ∧ frame_number f < Z.max 1 total
      ∧ frame_timestamp f = seconds (CAP_PROP_FPS cap) (frame_number f)
      ∧ ∃ p, pictures cap !! Z.to_nat (frame_number f) = Some p
             ∧ enc p = Some (image f)
             ∧ width f = shape1 p ∧ height f = shape0 p.
Proof.
  intros Hx total frame_interval.
  destruct (extract_frames_inv _ _ _ _ _ Hx) as [->|Hr].
  { split; [simpl; lia|]. intros k f Hk. by rewrite lookup_nil in Hk. }
  destruct (read_frames_bound _ _ _ _ _ _ _ _ _ Hr) as [Hlen Hlt].
  split; [lia|]. intros k f Hk.
  pose proof (read_frames_numbers max_frames enc (CAP_PROP_FPS cap) total
                frame_interval (pictures cap) (ltac:(lia)) 0 0 0 frames
                (ltac:(lia)) (ltac:(apply Z.mod_0_l; lia)) Hr k f Hk) as Hnum.
  pose proof (read_frames_content _ _ _ _ _ _ _ _ _ (ltac:(lia) : 0 ≤ 0) Hr) as Hc.
  rewrite Forall_forall in Hc, Hlt.
  assert (f ∈ frames) as Hin by (by eapply list_elem_of_lookup_2).
  destruct (Hc f Hin) as (_ & p & Hp & He & Hw & Hh & Hts).
  split; [lia|]. split; [by apply Hlt|]. split; [done|].
  exists p. by rewrite Z.sub_0_r in Hp.
Qed.

(** X27.  With a positive [max_frames], an opened capture and an encoder
    that accepts every picture, [extract_frames] returns, and the number
    of frames is the smaller of [max_frames] and the number of multiples
    of the interval among the positions it reads: those below both the
    number of pictures the capture yields and [max(1, total_frames)]. *)
Theorem extract_frames_count max_frames max_duration enc cap :
  0 < max_frames → isOpened cap = true →
  Forall (λ p, is_Some (enc p)) (pictures cap) →
  let total := total_frames max_duration cap in
  let frame_interval := Z.max 1 (total / max_frames) in
  let read := Z.min (Z.of_nat (length (pictures cap))) (Z.max 1 total) in
  ∃ frames,
    extract_frames max_frames max_duration enc cap = Frames frames
    ∧ Z.of_nat (length frames)
      = Z.min max_frames ((read + frame_interval - 1) / frame_interval).
Proof.
  intros Hm Ho Henc total frame_interval read.
  rewrite extract_frames_run by (done || lia).
  destruct (read_frames_count max_frames enc (CAP_PROP_FPS cap) total frame_interval
              (pictures cap) (ltac:(lia)) Henc 0 0 0 (ltac:(lia))
              (ltac:(apply Z.mod_0_l; lia))) as (frames & Hr & Hlen).
  exists frames. split; [exact Hr|]. rewrite Hlen.
  rewrite !Z.sub_0_r. fold read.
  assert (0 ≤ (read + frame_interval - 1) / frame_interval)
    by (apply Z.div_pos; unfold read, frame_interval; lia).
  lia.
Qed.

(** X28.  Edge cases of [extract_frames].  With [max_frames = 0] it
    raises [ZeroDivisionError] whatever the video; with a negative
    [max_frames], a capture that did not open or one that yields no
    picture it returns the empty list.  Otherwise the first picture is
    always sampled: an encoder failure on it is re-raised, and a capture
    whose frame count is at most one (also zero or negative) yields
    exactly that picture as frame 0 at timestamp 0. *)
Theorem extract_frames_edge_cases max_frames max_duration enc cap :
  (max_frames = 0 →
   extract_frames max_frames max_duration enc cap = Raise ZeroDivisionError)
  ∧ (max_frames ≠ 0 →
     max_frames < 0 ∨ isOpened cap = false ∨ pictures cap = [] →
     extract_frames max_frames max_duration enc cap = Frames [])
  ∧ (∀ p rest, 0 < max_frames → isOpened cap = true → pictures cap = p :: rest →
     (enc p = None →
      extract_frames max_frames max_duration enc cap = Raise EncodeError)
     ∧ (∀ img, enc p = Some img → total_frames max_duration cap ≤ 1 →
        extract_frames max_frames max_duration enc cap
        = Frames [mkFrame 0 0%Qc img (shape1 p) (shape0 p)])).
Proof.
  split; [|split].
  - intros ->. unfold extract_frames. by rewrite decide_True.
  - intros H0 Hc. unfold extract_frames. rewrite decide_False by done.
    destruct (isOpened cap) eqn:Ho; [|done].
    destruct Hc as [Hneg|[?|Hp]]; [|done|].
    + destruct (pictures cap); simpl; by rewrite decide_False by lia.
    + rewrite Hp. simpl. by case_decide.
  - intros p rest Hm Ho Hp.
    rewrite extract_frames_run by (done || lia). rewrite Hp.
    cbn [read_frames]. rewrite decide_True by lia.
    rewrite decide_True by (apply Z.mod_0_l; lia).
    split.
    + by intros ->.
    + intros img -> Ht. rewrite decide_True by lia. by rewrite seconds_zero.
Qed.

(** X29.  When the video has at least [max_frames] but fewer than
    [2 * max_frames] frames, the interval is one and the sample is the
    first [max_frames] frames: numbers 0 to [max_frames - 1], so no frame
    from [max_frames] on is looked at. *)
Theorem extract_frames_head_only max_frames max_duration enc cap :
  0 < max_frames → isOpened cap = true →
  Forall (λ p, is_Some (enc p)) (pictures cap) →
  max_frames ≤ total_frames max_duration cap < 2 * max_frames →
  max_frames ≤ Z.of_nat (length (pictures cap)) →
  ∃ frames,
    extract_frames max_frames max_duration enc cap = Frames frames
    ∧ map frame_number frames = map Z.of_nat (seq 0 (Z.to_nat max_frames)).
Proof.
  intros Hm Ho Henc Ht Hl.
  rewrite extract_frames_run by (done || lia).
  assert (total_frames max_duration cap / max_frames = 1) as Hq.
  { symmetry. apply (Z.div_unique _ _ 1 (total_frames max_duration cap - max_frames)); lia. }
  rewrite Hq. change (Z.max 1 1) with 1.
  destruct (read_frames_count max_frames enc (CAP_PROP_FPS cap)
              (total_frames max_duration cap) 1
              (pictures cap) (ltac:(lia)) Henc 0 0 0 (ltac:(lia))
              (ltac:(done))) as (frames & Hr & Hlen).
  exists frames. split; [exact Hr|].
  rewrite Z.div_1_r in Hlen.
  assert (length frames = Z.to_nat max_frames) as Hn by lia.
  apply list_eq. intros k. rewrite !list_lookup_fmap.
  destruct (frames !! k) as [f|] eqn:Hk; simpl.
  - rewrite (read_frames_numbers max_frames enc (CAP_PROP_FPS cap)
               (total_frames max_duration cap) 1 (pictures cap) (ltac:(lia)) 0 0 0 frames
               (ltac:(lia)) (ltac:(done)) Hr k f Hk).
    apply lookup_lt_Some in Hk. rewrite lookup_seq_lt by lia. simpl. f_equal. lia.
  - apply lookup_ge_None in Hk. rewrite lookup_seq_ge by lia. done.
Qed.






(** Witness of X26: four frames out of ninety, one every 22. *)
Lemma extract_frames_samples_at_interval_witness :
  let cap := Example.capture 90 100 in
  ∃ frames,
    extract_frames 4 120 Example.encoder cap = Frames frames
    ∧ Z.of_nat (length frames) ≤ 4
    ∧ ∀ k f, frames !! k = Some f → frame_number f = Z.of_nat k * 22.
Proof.
  intros cap.
  pose (frames := match extract_frames 4 120 Example.encoder cap with
                  | Frames l => l
                  | Raise _ => []
                  end).
  assert (Hx : extract_frames 4 120 Example.encoder cap = Frames frames)
    by (vm_compute; reflexivity).
  exists frames. split; [exact Hx|].
  destruct (extract_frames_samples_at_interval 4 120 Example.encoder cap frames Hx)
    as [Hlen Hk].
  split; [exact Hlen|]. intros k f Hf. exact (proj1 (Hk k f Hf)).
Defined.

(** Witness of X27: ninety frames read, five multiples of 22 among them,
    four kept. *)
Lemma extract_frames_count_witness :
  let cap := Example.capture 90 100 in
  0 < 4
  ∧ isOpened cap = true
  ∧ Forall (λ p, is_Some (Example.encoder p)) (pictures cap)
  ∧ ∃ frames,
      extract_frames 4 120 Example.encoder cap = Frames frames
      ∧ Z.of_nat (length frames) = 4.
Proof.
  intros cap.
  assert (H1 : 0 < 4) by lia.
  assert (H2 : isOpened cap = true) by reflexivity.
  assert (H3 : Forall (λ p, is_Some (Example.encoder p)) (pictures cap))
    by (apply Forall_forall; intros p _; by eexists).
  split; [exact H1|]. split; [exact H2|]. split; [exact H3|].
  exact (extract_frames_count 4 120 Example.encoder cap H1 H2 H3).
Defined.

(** Witness of X29: of 59 frames with [max_frames = 30], the first 30. *)
Lemma extract_frames_head_only_witness :
  let cap := Example.capture 59 59 in
  0 < 30
  ∧ isOpened cap = true
  ∧ Forall (λ p, is_Some (Example.encoder p)) (pictures cap)
  ∧ 30 ≤ total_frames 120 cap < 2 * 30
  ∧ 30 ≤ Z.of_nat (length (pictures cap))
  ∧ ∃ frames,
      extract_frames 30 120 Example.encoder cap = Frames frames
      ∧ map frame_number frames = map Z.of_nat (seq 0 30).
Proof.
  intros cap.
  assert (H1 : 0 < 30) by lia.
  assert (H2 : isOpened cap = true) by reflexivity.
  assert (H3 : Forall (λ p, is_Some (Example.encoder p)) (pictures cap))
    by (apply Forall_forall; intros p _; by eexists).
  assert (H4 : 30 ≤ total_frames 120 cap < 2 * 30) by (vm_compute; split; [discriminate|reflexivity]).
  assert (H5 : 30 ≤ Z.of_nat (length (pictures cap))) by (vm_compute; discriminate).
  split; [exact H1|]. split; [exact H2|]. split; [exact H3|].
  split; [exact H4|]. split; [exact H5|].
  exact (extract_frames_head_only 30 120 Example.encoder cap H1 H2 H3 H4 H5).
Defined.

